(** * Star-map geometry pipeline: projection, primitives, label collision
      detector and geometry builder

    A shallow embedding of the TypeScript sources

    - [lib/projection/types.ts], [lib/projection/azimuthal.ts]
    - [lib/geometry/types.ts], [lib/geometry/primitives.ts],
      [lib/geometry/builder.ts]
    - [lib/astronomy/coordinates.ts], [lib/astronomy/planets.ts],
      [lib/astronomy/observer.ts]

    Modelling conventions.

    - A JavaScript [number] is a real number ([R]).  Rounding, infinities,
      NaN and signed zeros of IEEE-754 doubles are not represented; every
      statement below avoids division by zero and square roots of negative
      numbers, where the two readings would differ.  The functions that
      compare or add a field of the observer without guarding it are also
      given on [JsNumber], a number that may be NaN or infinite.
    - A JavaScript string is a [string] whose characters are UTF-16 code
      units below 256, so that [String.length] is the [.length] of the
      source.
    - A thrown exception is the [Throw] case of [result]; code is written
      in the error monad wherever the source can propagate an exception.
    - Mutable objects ([Map], arrays, the collision detector) are threaded
      explicitly. *)

From Stdlib Require Import Reals Lra Lia List String Ascii Bool Arith ZArith.
From Stdlib Require Import DecimalString.
From Stdlib Require Import Sorted.
Import ListNotations.

Open Scope R_scope.

(* ================================================================== *)
(** * Numbers and comparisons *)
(* ================================================================== *)

(** The four comparison operators of the source, as booleans. *)
Definition Rltb (a b : R) : bool := if Rlt_dec a b then true else false.
Definition Rleb (a b : R) : bool := if Rle_dec a b then true else false.
Definition Rgtb (a b : R) : bool := Rltb b a.
Definition Rgeb (a b : R) : bool := Rleb b a.

Declare Scope js_scope.
Delimit Scope js_scope with js.
Notation "a <? b" := (Rltb a b) (at level 70, no associativity) : js_scope.
Notation "a <=? b" := (Rleb a b) (at level 70, no associativity) : js_scope.
Notation "a >? b" := (Rgtb a b) (at level 70, no associativity) : js_scope.
Notation "a >=? b" := (Rgeb a b) (at level 70, no associativity) : js_scope.
Open Scope js_scope.

(** [Math.atan2(y, x)] on reals.  At the origin the value of the source
    depends on the signs of the two zeros ([Math.atan2(+0, +0)] is 0 and
    [Math.atan2(+0, -0)] is PI), which reals do not carry: the model takes
    the value at [(+0, +0)], and the statements below say nothing of the
    angle at the origin except at an input where both zeros of the source
    are positive. *)
Definition atan2 (y x : R) : R :=
  if 0 <? x then atan (y / x)
  else if x <? 0 then
    (if 0 <=? y then atan (y / x) + PI else atan (y / x) - PI)
  else if 0 <? y then PI / 2
  else if y <? 0 then - (PI / 2)
  else 0.

(* ================================================================== *)
(** * Exceptions *)
(* ================================================================== *)

Definition exn := string.

Inductive result (A : Type) : Type :=
| Ok (a : A)
| Throw (e : exn).
Arguments Ok {A} a.
Arguments Throw {A} e.

Definition bind {A B : Type} (m : result A) (k : A -> result B) : result B :=
  match m with
  | Ok a => k a
  | Throw e => Throw e
  end.

Notation "x <- m ;; k" := (bind m (fun x => k))
  (at level 61, m at next level, right associativity).

(** [try { body } catch { handler }] for a body producing a value. *)
Definition try_catch {A : Type} (body : result A) (handler : exn -> A) : A :=
  match body with
  | Ok a => a
  | Throw e => handler e
  end.

(* ================================================================== *)
(** * Projection ([lib/projection]) *)
(* ================================================================== *)

Record Point2D : Type := { x : R; y : R }.

Record ProjectionResult : Type :=
  { proj_x : R; proj_y : R; visible : bool }.

Record ProjectionConfig : Type :=
  { centerAltitude : R;
    maxRadius : R;
    northUp : bool;
    eastRight : bool }.

Definition DEFAULT_PROJECTION_CONFIG : ProjectionConfig :=
  {| centerAltitude := 90;
     maxRadius := 1;
     northUp := true;
     eastRight := true |}.

Record HorizontalCoordinates : Type :=
  { altitude : R; azimuth : R }.

Definition projectAzimuthalEquidistant
    (altitude azimuth : R) (config : ProjectionConfig) : ProjectionResult :=
  let angularDistance := centerAltitude config - altitude in
  let r := (angularDistance / 90) * maxRadius config in
  let azRad := (azimuth * PI) / 180 in
  let azRad := if negb (eastRight config) then - azRad else azRad in
  let x := r * sin azRad in
  let y := if northUp config then - r * cos azRad else r * cos azRad in
  let visible := altitude >? 0 in
  {| proj_x := x; proj_y := y; visible := visible |}.

Definition inverseAzimuthalEquidistant
    (point : Point2D) (config : ProjectionConfig) : HorizontalCoordinates :=
  let r := sqrt (x point * x point + y point * y point) in
  let angularDistance := (r / maxRadius config) * 90 in
  let altitude := centerAltitude config - angularDistance in
  let azRad :=
    if northUp config then atan2 (x point) (- y point)
    else atan2 (x point) (y point) in
  let azRad := if negb (eastRight config) then - azRad else azRad in
  let azimuth := (azRad * 180) / PI in
  let azimuth := if azimuth <? 0 then azimuth + 360 else azimuth in
  {| altitude := altitude; azimuth := azimuth |}.

(** The loop [for (let az = 0; az < 360; az += step)].  [fuel] bounds the
    number of iterations; [generateAltitudeCircle] supplies one more than
    the loop needs for a positive point count.  The counter is summed over
    the reals: this is the loop of the source where the step [360 / n] and
    its multiples are whole numbers, which doubles add exactly (a point
    count dividing 360, as the 72 of the horizon); for other counts the
    rounded sums of the source can stay below 360 for one more turn. *)
Fixpoint altitudeCircleLoop (fuel : nat) (altitude az step : R)
    (config : ProjectionConfig) : list Point2D :=
  match fuel with
  | O => []
  | S fuel' =>
      if az <? 360 then
        let projected := projectAzimuthalEquidistant altitude az config in
        {| x := proj_x projected; y := proj_y projected |}
          :: altitudeCircleLoop fuel' altitude (az + step) step config
      else []
  end.

Definition generateAltitudeCircle
    (altitude : R) (pointCount : nat) (config : ProjectionConfig)
    : list Point2D :=
  let step := 360 / INR pointCount in
  altitudeCircleLoop (S pointCount) altitude 0 step config.

(* ================================================================== *)
(** * Primitives ([lib/geometry/types.ts], [lib/geometry/primitives.ts]) *)
(* ================================================================== *)

Inductive Anchor : Type := anchor_start | anchor_middle | anchor_end.
Inductive Baseline : Type := baseline_top | baseline_middle | baseline_bottom.

Inductive RenderPrimitive : Type :=
| CirclePrimitive (center : Point2D) (radius : R) (id : option R)
| LinePrimitive (start finish : Point2D)
| PathPrimitive (points : list Point2D) (closed : bool)
| TextPrimitive (position : Point2D) (text : string)
                (anchor : Anchor) (baseline : Baseline).

Inductive LayerType : Type :=
| layer_background | layer_topo_contours | layer_grid | layer_horizon
| layer_constellations | layer_constellation_names | layer_stars
| layer_star_glow | layer_star_names | layer_planets | layer_cardinals
| layer_degree_ring | layer_metadata | layer_hour_indices.

Definition LayerType_eqb (a b : LayerType) : bool :=
  match a, b with
  | layer_background, layer_background
  | layer_topo_contours, layer_topo_contours
  | layer_grid, layer_grid
  | layer_horizon, layer_horizon
  | layer_constellations, layer_constellations
  | layer_constellation_names, layer_constellation_names
  | layer_stars, layer_stars
  | layer_star_glow, layer_star_glow
  | layer_star_names, layer_star_names
  | layer_planets, layer_planets
  | layer_cardinals, layer_cardinals
  | layer_degree_ring, layer_degree_ring
  | layer_metadata, layer_metadata
  | layer_hour_indices, layer_hour_indices => true
  | _, _ => false
  end.

Record RenderLayer : Type :=
  { type : LayerType;
    primitives : list RenderPrimitive;
    layer_visible : bool }.

Record Bounds : Type :=
  { width : R; height : R; centerX : R; centerY : R; radius : R }.

Definition Date := option Z.

Record Metadata : Type :=
  { starCount : nat;
    visibleStarCount : nat;
    timestamp : Date;
    location : string }.

(** [Map<LayerType, RenderLayer>]: entries in insertion order. *)
Definition LayerMap := list (LayerType * RenderLayer).

Fixpoint map_set (m : LayerMap) (k : LayerType) (v : RenderLayer) : LayerMap :=
  match m with
  | [] => [(k, v)]
  | (k', v') :: rest =>
      if LayerType_eqb k' k then (k', v) :: rest
      else (k', v') :: map_set rest k v
  end.

Fixpoint map_get (m : LayerMap) (k : LayerType) : option RenderLayer :=
  match m with
  | [] => None
  | (k', v') :: rest => if LayerType_eqb k' k then Some v' else map_get rest k
  end.

Record StarMapGeometry : Type :=
  { layers : LayerMap;
    bounds : Bounds;
    metadata : Metadata }.

Definition createCircle (x y radius : R) (id : option R) : RenderPrimitive :=
  CirclePrimitive {| x := x; y := y |} radius id.

Definition createLine (x1 y1 x2 y2 : R) : RenderPrimitive :=
  LinePrimitive {| x := x1; y := y1 |} {| x := x2; y := y2 |}.

Definition createPath (points : list Point2D) (closed : bool) : RenderPrimitive :=
  PathPrimitive points closed.

Definition createText (x y : R) (text : string)
    (anchor : Anchor) (baseline : Baseline) : RenderPrimitive :=
  TextPrimitive {| x := x; y := y |} text anchor baseline.

Definition magnitudeToRadius
    (magnitude minRadius maxRadius magnitudeLimit : R) : R :=
  let minMag := -1.5 in
  let magRange := magnitudeLimit - minMag in
  let normalized := (magnitude - minMag) / magRange in
  let clamped := Rmax 0 (Rmin 1 normalized) in
  let sizeFactor := sqrt (1 - clamped) in
  minRadius + sizeFactor * (maxRadius - minRadius).

(* ================================================================== *)
(** * Label collision detector ([lib/geometry/builder.ts]) *)
(* ================================================================== *)

Record BoundingBox : Type :=
  { bb_x : R; bb_y : R; bb_width : R; bb_height : R }.

(** The state of a [LabelCollisionDetector] object. *)
Record LabelCollisionDetector : Type :=
  { placedLabels : list BoundingBox;
    padding : R }.

Definition newLabelCollisionDetector (padding : R) : LabelCollisionDetector :=
  {| placedLabels := []; padding := padding |}.

Definition estimateBoundingBox (this : LabelCollisionDetector)
    (x y : R) (text : string) (anchor : Anchor) (fontSize : R) : BoundingBox :=
  let charWidth := fontSize * 0.6 in
  let width := INR (String.length text) * charWidth in
  let height := fontSize * 1.2 in
  let adjustedX :=
    match anchor with
    | anchor_middle => x - width / 2
    | anchor_end => x - width
    | anchor_start => x
    end in
  {| bb_x := adjustedX - padding this;
     bb_y := y - height / 2 - padding this;
     bb_width := width + padding this * 2;
     bb_height := height + padding this * 2 |}.

Definition intersects (a b : BoundingBox) : bool :=
  negb ((bb_x a + bb_width a <? bb_x b)
        || (bb_x b + bb_width b <? bb_x a)
        || (bb_y a + bb_height a <? bb_y b)
        || (bb_y b + bb_height b <? bb_y a)).

(** The scan [for (const placed of this.placedLabels)] of [canPlace]. *)
Fixpoint canPlaceScan (bbox : BoundingBox) (placed : list BoundingBox) : bool :=
  match placed with
  | [] => true
  | p :: rest => if intersects bbox p then false else canPlaceScan bbox rest
  end.

Definition canPlace (this : LabelCollisionDetector)
    (x y : R) (text : string) (anchor : Anchor) (fontSize : R) : bool :=
  let bbox := estimateBoundingBox this x y text anchor fontSize in
  canPlaceScan bbox (placedLabels this).

Definition place (this : LabelCollisionDetector)
    (x y : R) (text : string) (anchor : Anchor) (fontSize : R)
    : LabelCollisionDetector :=
  let bbox := estimateBoundingBox this x y text anchor fontSize in
  {| placedLabels := placedLabels this ++ [bbox];
     padding := padding this |}.

(** Returns the detector after the call and the boolean the method
    returns. *)
Definition tryPlace (this : LabelCollisionDetector)
    (x y : R) (text : string) (anchor : Anchor) (fontSize : R)
    : LabelCollisionDetector * bool :=
  if canPlace this x y text anchor fontSize
  then (place this x y text anchor fontSize, true)
  else (this, false).

(* ================================================================== *)
(** * Data types ([types/observer.ts], [types/star.ts], [types/render.ts]) *)
(* ================================================================== *)

Record Observer : Type :=
  { latitude : R;
    longitude : R;
    elevation : R;
    date : Date }.

Record CatalogStar : Type :=
  { hip : R; ra : R; dec : R; mag : R; name : option string }.

Record ProjectedStar : Type :=
  { ps_hip : R;
    ps_x : R;
    ps_y : R;
    ps_altitude : R;
    ps_azimuth : R;
    ps_magnitude : R;
    ps_radius : R;
    ps_name : option string }.

Inductive Theme : Type := dark | light | monochrome | sepia.
Inductive GridStyle : Type :=
  grid_none | grid_altitude | grid_equatorial | grid_both.
Inductive StarStyle : Type := dots | glow | spikes.

Record RenderOptions : Type :=
  { magnitudeLimit : R;
    starSizeMin : R;
    starSizeMax : R;
    showConstellations : bool;
    showConstellationNames : bool;
    showPlanets : bool;
    showStarNames : bool;
    showHorizon : bool;
    showCardinals : bool;
    showGrid : bool;
    showDegreeRing : bool;
    showTopoContours : bool;
    showMapCoordinates : bool;
    showMapDate : bool;
    starStyle : StarStyle;
    gridStyle : GridStyle;
    theme : Theme }.

(** A vertex of a constellation polyline and an entry of
    [data/constellations.json]. *)
Record RaDec : Type := { pt_ra : R; pt_dec : R }.

Record Constellation : Type :=
  { constellation_name : string;
    lines : list (list RaDec) }.

(* ================================================================== *)
(** * Observer utilities ([lib/astronomy/observer.ts]) *)
(* ================================================================== *)

Record ValidationResult : Type :=
  { valid : bool; errors : list string }.

(** [validateObserver] on an observer whose numeric fields are finite
    numbers; [validateObserverJs] below is the same function on fields
    that may be NaN or infinite. *)
Definition validateObserver (observer : Observer) : ValidationResult :=
  let errors := [] in
  let errors :=
    if (latitude observer <? -90) || (latitude observer >? 90)
    then errors ++ ["Latitude must be between -90 and 90 degrees"%string]
    else errors in
  let errors :=
    if (longitude observer <? -180) || (longitude observer >? 180)
    then errors ++ ["Longitude must be between -180 and 180 degrees"%string]
    else errors in
  let errors :=
    if (elevation observer <? -500) || (elevation observer >? 10000)
    then errors ++ ["Elevation must be between -500 and 10000 meters"%string]
    else errors in
  let errors :=
    match date observer with
    | None => errors ++ ["Invalid date"%string]
    | Some _ => errors
    end in
  {| valid := Nat.eqb (List.length errors) 0; errors := errors |}.

(** The degree sign, one UTF-16 code unit. *)
Definition degree_sign : string := String (ascii_of_nat 176) EmptyString.

(** [String.prototype.replace] with a one-character pattern: the first
    occurrence only. *)
Fixpoint replace_first (c d : ascii) (s : string) : string :=
  match s with
  | EmptyString => EmptyString
  | String a rest =>
      if Ascii.eqb a c then String d rest
      else String a (replace_first c d rest)
  end.

(** Built-in formatting functions of the host that the sources call. *)
Class Host : Type :=
  { (** [Number.prototype.toFixed(2)] *)
    toFixed2 : R -> string;
    (** [Date.prototype.toISOString] of a valid date *)
    toISOString : Z -> string }.

Section ObserverFormatting.
Context {host : Host}.

Definition formatLocation (observer : Observer) : string :=
  let latDir := (if latitude observer >=? 0 then "N" else "S")%string in
  let lonDir := (if longitude observer >=? 0 then "E" else "W")%string in
  let lat := toFixed2 (Rabs (latitude observer)) in
  let lon := toFixed2 (Rabs (longitude observer)) in
  (lat ++ degree_sign ++ latDir ++ ", " ++ lon ++ degree_sign ++ lonDir)%string.

(** [toISOString] throws a [RangeError] on an invalid date. *)
Definition formatDateTime (observer : Observer) : result string :=
  match date observer with
  | None => Throw "RangeError: Invalid time value"%string
  | Some t =>
      Ok (substring 0 19 (replace_first "T"%char " "%char (toISOString t))
            ++ " UTC")%string
  end.
End ObserverFormatting.

(* ================================================================== *)
(** * Ephemeris ([lib/astronomy/coordinates.ts], [lib/astronomy/planets.ts]) *)
(* ================================================================== *)

Inductive Body : Type := Mercury | Venus | Mars | Jupiter | Saturn.

Record EquatorialCoordinates : Type := { equ_ra : R; equ_dec : R }.

(** The functions imported from the external package [astronomy-engine].
    Each may throw.  [Horizon] is always called with the refraction model
    ['normal'] and [Equator] with [ofdate = true], [aberration = true]. *)
Class AstronomyEngine : Type :=
  { AstroObserver : Type;
    AstroTime : Type;
    newAstroObserver : R -> R -> R -> result AstroObserver;
    MakeTime : Date -> result AstroTime;
    Horizon : AstroTime -> AstroObserver -> R -> R
              -> result HorizontalCoordinates;
    Equator : Body -> AstroTime -> AstroObserver
              -> result EquatorialCoordinates }.

Record PlanetPosition : Type :=
  { planet_altitude : R;
    planet_azimuth : R;
    planet_name : string;
    planet_magnitude : R }.

Record PlanetBody : Type :=
  { pb_body : Body; pb_name : string; pb_mag : R }.

Definition planetBodies : list PlanetBody :=
  [ {| pb_body := Mercury; pb_name := "Mercury"%string; pb_mag := 0.0 |};
    {| pb_body := Venus; pb_name := "Venus"%string; pb_mag := -4.0 |};
    {| pb_body := Mars; pb_name := "Mars"%string; pb_mag := 0.0 |};
    {| pb_body := Jupiter; pb_name := "Jupiter"%string; pb_mag := -2.0 |};
    {| pb_body := Saturn; pb_name := "Saturn"%string; pb_mag := 0.0 |} ].

Section Ephemeris.
Context {engine : AstronomyEngine}.

Definition raDecToAltAz (ra dec : R) (observer : Observer)
    : result HorizontalCoordinates :=
  astroObserver <- newAstroObserver (latitude observer)
                     (longitude observer) (elevation observer) ;;
  time <- MakeTime (date observer) ;;
  let raHours := ra / 15 in
  horizontal <- Horizon time astroObserver raHours dec ;;
  Ok {| altitude := altitude horizontal; azimuth := azimuth horizontal |}.

(** The body of the [try] block for one planet: the horizontal position
    of the body, or the exception the engine threw. *)
Definition resolvePlanet (time : AstroTime) (astroObserver : AstroObserver)
    (body : Body) : result HorizontalCoordinates :=
  equ <- Equator body time astroObserver ;;
  Horizon time astroObserver (equ_ra equ) (equ_dec equ).

(** The loop over [planetBodies]; [planets] is the array built so far. *)
Fixpoint planetLoop (time : AstroTime) (astroObserver : AstroObserver)
    (bodies : list PlanetBody) (planets : list PlanetPosition)
    : list PlanetPosition :=
  match bodies with
  | [] => planets
  | b :: rest =>
      let planets :=
        try_catch
          (hor <- resolvePlanet time astroObserver (pb_body b) ;;
           Ok (if altitude hor >? 0
               then planets ++ [ {| planet_altitude := altitude hor;
                                    planet_azimuth := azimuth hor;
                                    planet_name := pb_name b;
                                    planet_magnitude := pb_mag b |} ]
               else planets))
          (fun error => planets) in
      planetLoop time astroObserver rest planets
  end.

Definition getPlanetPositions (observer : Observer)
    : result (list PlanetPosition) :=
  time <- MakeTime (date observer) ;;
  astroObserver <- newAstroObserver (latitude observer)
                     (longitude observer) (elevation observer) ;;
  Ok (planetLoop time astroObserver planetBodies []).
End Ephemeris.

(* ================================================================== *)
(** * Geometry builder ([lib/geometry/builder.ts]) *)
(* ================================================================== *)

(** [Array.prototype.sort(compareFn)]: a stable sort; [a] goes before [b]
    when [compareFn(a, b) <= 0] and [a] came first. *)
Fixpoint sortInsert {A : Type} (compareFn : A -> A -> R) (a : A)
    (sorted : list A) : list A :=
  match sorted with
  | [] => [a]
  | b :: rest =>
      if compareFn a b <=? 0 then a :: b :: rest
      else b :: sortInsert compareFn a rest
  end.

Definition array_sort {A : Type} (compareFn : A -> A -> R) (l : list A)
    : list A :=
  fold_right (sortInsert compareFn) [] l.

(** A loop that pushes zero or more elements per iteration into one array
    and whose body may throw. *)
Fixpoint flatMapM {A B : Type} (f : A -> result (list B)) (l : list A)
    : result (list B) :=
  match l with
  | [] => Ok []
  | a :: rest =>
      bs <- f a ;;
      tail <- flatMapM f rest ;;
      Ok (bs ++ tail)
  end.

Definition StarStyle_eqb (a b : StarStyle) : bool :=
  match a, b with
  | dots, dots | glow, glow | spikes, spikes => true
  | _, _ => false
  end.

Definition mkLayer (t : LayerType) (prims : list RenderPrimitive) : RenderLayer :=
  {| type := t; primitives := prims; layer_visible := true |}.

Record ConstellationLabel : Type :=
  { label_name : string;
    label_x : R;
    label_y : R;
    pointCount : nat }.

Definition scalePoint (center scale : R) (p : ProjectionResult) : Point2D :=
  {| x := center + proj_x p * scale; y := center + proj_y p * scale |}.

(** [Math.sqrt(dx * dx + dy * dy)] with [dx = px - center],
    [dy = py - center]. *)
Definition distanceFromCenter (px py center : R) : R :=
  let dx := px - center in
  let dy := py - center in
  sqrt (dx * dx + dy * dy).

(** The star filter shared by the star layer and the star-name step. *)
Definition insideDegreeRing (center degreeRingInnerRadius : R)
    (star : ProjectedStar) : bool :=
  distanceFromCenter (ps_x star) (ps_y star) center <? degreeRingInnerRadius.

(** Line segments between consecutive points that are closer than
    [threshold] (grid step). *)
Definition closeSegments (points : list Point2D) (threshold : R)
    : list RenderPrimitive :=
  flat_map
    (fun i =>
       match nth_error points i, nth_error points (i + 1) with
       | Some p, Some q =>
           let dx := x q - x p in
           let dy := y q - y p in
           let dist := sqrt (dx * dx + dy * dy) in
           if dist <? threshold
           then [createLine (x p) (y p) (x q) (y q)]
           else []
       | _, _ => []
       end)
    (seq 0 (List.length points - 1)).

Definition cardinalMarkers : list (string * R) :=
  [ ("N"%string, 0); ("E"%string, 90); ("S"%string, 180); ("W"%string, 270) ].

Definition cardinalDegrees : list nat := [0; 90; 180; 270]%nat.

(** The template literal of the degree labels. *)
Definition degreeLabel (deg : nat) : string :=
  (NilEmpty.string_of_uint (Nat.to_uint deg) ++ degree_sign)%string.

Section Builder.
Context {engine : AstronomyEngine} {host : Host}.
Variable constellationData : list Constellation.

(** Star projection loop. *)
Fixpoint projectStars (stars : list CatalogStar) (observer : Observer)
    (options : RenderOptions) (center scale : R)
    : result (list ProjectedStar) :=
  match stars with
  | [] => Ok []
  | star :: rest =>
      if mag star >? magnitudeLimit options
      then projectStars rest observer options center scale
      else
        coords <- raDecToAltAz (ra star) (dec star) observer ;;
        if altitude coords <=? 0
        then projectStars rest observer options center scale
        else
          let projected :=
            projectAzimuthalEquidistant (altitude coords) (azimuth coords)
              DEFAULT_PROJECTION_CONFIG in
          let radius :=
            magnitudeToRadius (mag star) (starSizeMin options)
              (starSizeMax options) (magnitudeLimit options) in
          tail <- projectStars rest observer options center scale ;;
          Ok ({| ps_hip := hip star;
                 ps_x := center + proj_x projected * scale;
                 ps_y := center + proj_y projected * scale;
                 ps_altitude := altitude coords;
                 ps_azimuth := azimuth coords;
                 ps_magnitude := mag star;
                 ps_radius := radius;
                 ps_name := name star |} :: tail)
  end.

Definition topoContours (center scale : R) : list RenderPrimitive :=
  let altitudeSteps := [15; 30; 45; 60; 75] in
  map (fun alt =>
         let r := (90 - alt) / 90 * scale in
         createCircle center center r (Some alt))
      altitudeSteps.

Definition starCircle (star : ProjectedStar) : RenderPrimitive :=
  createCircle (ps_x star) (ps_y star) (ps_radius star) (Some (ps_hip star)).

(** Glow or spike primitives of one bright star. *)
Definition starEffect (options : RenderOptions) (star : ProjectedStar)
    : list RenderPrimitive :=
  let brightnessFactor := Rmax 0.5 ((4 - ps_magnitude star) / 3) in
  if StarStyle_eqb (starStyle options) glow then
    let glowRadius := ps_radius star * (2 + brightnessFactor * 2.5) in
    [createCircle (ps_x star) (ps_y star) glowRadius (Some (ps_hip star))]
  else
    let spikeLength := ps_radius star * (2 + brightnessFactor * 2) in
    let numSpikes := if ps_magnitude star <? 1.5 then 6%nat else 4%nat in
    map (fun i =>
           let angle := (INR i * PI * 2) / INR numSpikes + PI / 4 in
           createLine
             (ps_x star - cos angle * spikeLength)
             (ps_y star - sin angle * spikeLength)
             (ps_x star + cos angle * spikeLength)
             (ps_y star + sin angle * spikeLength))
        (seq 0 numSpikes)
    ++ (let smallGlow := ps_radius star * 1.5 in
        [createCircle (ps_x star) (ps_y star) smallGlow (Some (ps_hip star))]).

Definition starEffects (options : RenderOptions)
    (filteredStars : list ProjectedStar) : list RenderPrimitive :=
  let brightStarsForEffect :=
    filter (fun s => ps_magnitude s <? 3.5) filteredStars in
  flat_map (starEffect options) brightStarsForEffect.

(** The body of the loop over [i] for one polyline: the segment from
    vertex [i] to vertex [i + 1], or nothing. *)
Definition constellationSegment (observer : Observer)
    (center scale degreeRingInnerRadius : R)
    (lineString : list RaDec) (i : nat) : result (list RenderPrimitive) :=
  match nth_error lineString i, nth_error lineString (i + 1) with
  | Some point1, Some point2 =>
      coord1 <- raDecToAltAz (pt_ra point1) (pt_dec point1) observer ;;
      coord2 <- raDecToAltAz (pt_ra point2) (pt_dec point2) observer ;;
      if (altitude coord1 >? 0) && (altitude coord2 >? 0) then
        let proj1 :=
          projectAzimuthalEquidistant (altitude coord1) (azimuth coord1)
            DEFAULT_PROJECTION_CONFIG in
        let proj2 :=
          projectAzimuthalEquidistant (altitude coord2) (azimuth coord2)
            DEFAULT_PROJECTION_CONFIG in
        let x1 := center + proj_x proj1 * scale in
        let y1 := center + proj_y proj1 * scale in
        let x2 := center + proj_x proj2 * scale in
        let y2 := center + proj_y proj2 * scale in
        let dist1 := sqrt ((x1 - center) ^ 2 + (y1 - center) ^ 2) in
        let dist2 := sqrt ((x2 - center) ^ 2 + (y2 - center) ^ 2) in
        if (dist1 <? degreeRingInnerRadius) && (dist2 <? degreeRingInnerRadius)
        then Ok [createLine x1 y1 x2 y2]
        else Ok []
      else Ok []
  | _, _ => Ok []
  end.

Definition constellationLineStrings (observer : Observer)
    (center scale degreeRingInnerRadius : R)
    : result (list RenderPrimitive) :=
  flatMapM
    (fun constellation =>
       let lineStrings := lines constellation in
       if (0 <? List.length lineStrings)%nat then
         flatMapM
           (fun lineString =>
              flatMapM
                (constellationSegment observer center scale
                   degreeRingInnerRadius lineString)
                (seq 0 (List.length lineString - 1)))
           lineStrings
       else Ok [])
    constellationData.

(** The visible vertices of a constellation, projected and scaled. *)
Definition visiblePointsOf (observer : Observer) (center scale : R)
    (lineStrings : list (list RaDec)) : result (list Point2D) :=
  flatMapM
    (fun lineString =>
       flatMapM
         (fun point =>
            coord <- raDecToAltAz (pt_ra point) (pt_dec point) observer ;;
            if altitude coord >? 0 then
              let proj :=
                projectAzimuthalEquidistant (altitude coord) (azimuth coord)
                  DEFAULT_PROJECTION_CONFIG in
              Ok [ {| x := center + proj_x proj * scale;
                      y := center + proj_y proj * scale |} ]
            else Ok [])
         lineString)
    lineStrings.

Definition collectConstellationLabels (observer : Observer)
    (center scale degreeRingInnerRadius : R)
    : result (list ConstellationLabel) :=
  flatMapM
    (fun constellation =>
       let lineStrings := lines constellation in
       if (0 <? List.length lineStrings)%nat then
         visiblePoints <- visiblePointsOf observer center scale lineStrings ;;
         if (2 <=? List.length visiblePoints)%nat then
           let avgX :=
             fold_left (fun sum p => sum + x p) visiblePoints 0
             / INR (List.length visiblePoints) in
           let avgY :=
             fold_left (fun sum p => sum + y p) visiblePoints 0
             / INR (List.length visiblePoints) in
           let distFromCenter :=
             sqrt ((avgX - center) ^ 2 + (avgY - center) ^ 2) in
           if distFromCenter <? degreeRingInnerRadius * 0.85 then
             Ok [ {| label_name := constellation_name constellation;
                     label_x := avgX;
                     label_y := avgY - 15;
                     pointCount := List.length visiblePoints |} ]
           else Ok []
         else Ok []
       else Ok [])
    constellationData.

(** Placement loop of the constellation names. *)
Fixpoint placeConstellationLabels (labels : list ConstellationLabel)
    (labelCollision : LabelCollisionDetector)
    : LabelCollisionDetector * list RenderPrimitive :=
  match labels with
  | [] => (labelCollision, [])
  | label :: rest =>
      let '(labelCollision, placed) :=
        tryPlace labelCollision (label_x label) (label_y label)
          (label_name label) anchor_middle 11 in
      let '(labelCollision, prims) :=
        placeConstellationLabels rest labelCollision in
      (labelCollision,
       if placed
       then createText (label_x label) (label_y label) (label_name label)
              anchor_middle baseline_middle :: prims
       else prims)
  end.

(** [!s.name]: the name is missing or empty. *)
Definition noName (n : option string) : bool :=
  match n with
  | None => true
  | Some s => String.eqb s ""
  end.

Definition brightNamedStars (projectedStars : list ProjectedStar)
    (center degreeRingInnerRadius : R) : list ProjectedStar :=
  array_sort (fun a b => ps_magnitude a - ps_magnitude b)
    (filter
       (fun s =>
          if (ps_magnitude s >? 2.5) || noName (ps_name s) then false
          else insideDegreeRing center degreeRingInnerRadius s)
       projectedStars).

(** Placement loop of the star names. *)
Fixpoint placeStarNames (brightStars : list ProjectedStar)
    (labelCollision : LabelCollisionDetector)
    : LabelCollisionDetector * list RenderPrimitive :=
  match brightStars with
  | [] => (labelCollision, [])
  | star :: rest =>
      let labelX := ps_x star + ps_radius star + 8 in
      let labelY := ps_y star - ps_radius star - 2 in
      let labelText :=
        match ps_name star with
        | Some s => s
        | None => ""%string
        end in
      let '(labelCollision, placed) :=
        tryPlace labelCollision labelX labelY labelText anchor_start 9 in
      let '(labelCollision, prims) := placeStarNames rest labelCollision in
      (labelCollision,
       if placed
       then createText labelX labelY labelText anchor_start baseline_middle
              :: prims
       else prims)
  end.

(** The loop over the planet positions. *)
Fixpoint placePlanets (planetPositions : list PlanetPosition)
    (center scale degreeRingInnerRadius : R)
    (labelCollision : LabelCollisionDetector)
    : LabelCollisionDetector * list RenderPrimitive :=
  match planetPositions with
  | [] => (labelCollision, [])
  | planet :: rest =>
      let projected :=
        projectAzimuthalEquidistant (planet_altitude planet)
          (planet_azimuth planet) DEFAULT_PROJECTION_CONFIG in
      let planetX := center + proj_x projected * scale in
      let planetY := center + proj_y projected * scale in
      if distanceFromCenter planetX planetY center >=? degreeRingInnerRadius
      then placePlanets rest center scale degreeRingInnerRadius labelCollision
      else
        let labelX := planetX + 5 in
        let labelY := planetY - 5 in
        let '(labelCollision, placed) :=
          tryPlace labelCollision labelX labelY (planet_name planet)
            anchor_start 9 in
        let '(labelCollision, prims) :=
          placePlanets rest center scale degreeRingInnerRadius
            labelCollision in
        (labelCollision,
         createCircle planetX planetY 3 (Some 0)
           :: (if placed
               then createText labelX labelY (planet_name planet)
                      anchor_start baseline_middle :: prims
               else prims))
  end.

Definition horizonPath (center scale : R) : RenderPrimitive :=
  let horizonCircle := generateAltitudeCircle 0 72 DEFAULT_PROJECTION_CONFIG in
  let scaledHorizon :=
    map (fun p => {| x := center + x p * scale; y := center + y p * scale |})
        horizonCircle in
  createPath scaledHorizon true.

(** A sampled grid point: kept when the altitude is above -5 degrees and
    projected at an altitude of at least 0.5 degrees. *)
Definition gridPoint (observer : Observer) (center scale ra dec : R)
    : result (list Point2D) :=
  coords <- raDecToAltAz ra dec observer ;;
  if altitude coords >? -5 then
    let projected :=
      projectAzimuthalEquidistant (Rmax (altitude coords) 0.5)
        (azimuth coords) DEFAULT_PROJECTION_CONFIG in
    Ok [ {| x := center + proj_x projected * scale;
            y := center + proj_y projected * scale |} ]
  else Ok [].

Definition declinationCircles (observer : Observer) (center scale : R)
    : result (list RenderPrimitive) :=
  let declinationSteps := [75; 60; 45; 30; 15; 0; -15; -30; -45; -60] in
  flatMapM
    (fun dec =>
       let numPoints := 72%nat in
       points <-
         flatMapM
           (fun i =>
              let ra := (INR i / INR numPoints) * 360 in
              gridPoint observer center scale ra dec)
           (seq 0 (numPoints + 1)) ;;
       Ok (closeSegments points (scale * 0.3)))
    declinationSteps.

(** [for (let ra = 0; ra < 360; ra += 30)] and
    [for (let dec = 89; dec >= -90; dec -= 3)]. *)
Definition rightAscensionLines (observer : Observer) (center scale : R)
    : result (list RenderPrimitive) :=
  flatMapM
    (fun k =>
       let ra := 30 * INR k in
       raPoints <-
         flatMapM
           (fun j =>
              let dec := 89 - 3 * INR j in
              gridPoint observer center scale ra dec)
           (seq 0 60) ;;
       Ok (closeSegments raPoints (scale * 0.2)))
    (seq 0 12).

Definition gridPrimitivesOf (observer : Observer) (center scale : R)
    : result (list RenderPrimitive) :=
  pole <- raDecToAltAz 0 90 observer ;;
  let poleAlt := altitude pole in
  let poleAz := azimuth pole in
  if poleAlt >? 0 then
    let poleProjected :=
      projectAzimuthalEquidistant poleAlt poleAz DEFAULT_PROJECTION_CONFIG in
    let poleX := center + proj_x poleProjected * scale in
    let poleY := center + proj_y poleProjected * scale in
    circles <- declinationCircles observer center scale ;;
    meridians <- rightAscensionLines observer center scale ;;
    let crossSize := scale * 0.02 in
    Ok (circles ++ meridians
        ++ [ createLine (poleX - crossSize) poleY (poleX + crossSize) poleY;
             createLine poleX (poleY - crossSize) poleX (poleY + crossSize) ])
  else
    Ok (map (fun alt =>
               let r := (90 - alt) / 90 * scale in
               createCircle center center r None)
            [15; 30; 45; 60; 75]
        ++ map (fun k =>
                  let az := 30 * INR k in
                  let projected :=
                    projectAzimuthalEquidistant 0 az
                      DEFAULT_PROJECTION_CONFIG in
                  createLine center center
                    (center + proj_x projected * scale)
                    (center + proj_y projected * scale))
               (seq 0 12)).

(** The loop over the four cardinal markers. *)
Fixpoint placeCardinals (cardinals : list (string * R)) (center scale : R)
    (labelCollision : LabelCollisionDetector)
    : LabelCollisionDetector * list RenderPrimitive :=
  match cardinals with
  | [] => (labelCollision, [])
  | (label, azimuth) :: rest =>
      let projected :=
        projectAzimuthalEquidistant (-5) azimuth DEFAULT_PROJECTION_CONFIG in
      let x := center + proj_x projected * scale in
      let y := center + proj_y projected * scale in
      let labelCollision := place labelCollision x y label anchor_middle 14 in
      let '(labelCollision, prims) :=
        placeCardinals rest center scale labelCollision in
      (labelCollision,
       createText x y label anchor_middle baseline_middle :: prims)
  end.

(** The tick loop of the degree ring over the given degrees. *)
Fixpoint degreeTicks (degs : list nat) (center scale : R)
    (labelCollision : LabelCollisionDetector)
    : LabelCollisionDetector * list RenderPrimitive :=
  let ringOuterRadius := scale * 1.0 in
  let ringInnerRadius := scale * 0.96 in
  let innerBezelRadius := scale * 0.94 in
  let textRadius := scale * 0.88 in
  match degs with
  | [] => (labelCollision, [])
  | deg :: rest =>
      let angle := (INR deg - 90) * (PI / 180) in
      let cos := cos angle in
      let sin := sin angle in
      let isMajor := Nat.eqb (deg mod 30) 0 in
      let isMedium := Nat.eqb (deg mod 10) 0 in
      let isCardinal := existsb (Nat.eqb deg) cardinalDegrees in
      let tickInnerRadius :=
        if isMajor then innerBezelRadius
        else if isMedium then ringInnerRadius * 0.99
        else ringInnerRadius in
      let tick :=
        createLine
          (center + cos * tickInnerRadius)
          (center + sin * tickInnerRadius)
          (center + cos * ringOuterRadius)
          (center + sin * ringOuterRadius) in
      if isMajor && negb isCardinal then
        let labelX := center + cos * textRadius in
        let labelY := center + sin * textRadius in
        let labelText := degreeLabel deg in
        let '(labelCollision, placed) :=
          tryPlace labelCollision labelX labelY labelText anchor_middle 8 in
        let '(labelCollision, prims) :=
          degreeTicks rest center scale labelCollision in
        (labelCollision,
         tick :: (if placed
                  then createText labelX labelY labelText
                         anchor_middle baseline_middle :: prims
                  else prims))
      else
        let '(labelCollision, prims) :=
          degreeTicks rest center scale labelCollision in
        (labelCollision, tick :: prims)
  end.

(** [for (let deg = 0; deg < 360; deg += 2)] *)
Definition tickDegrees : list nat := map (fun k => (2 * k)%nat) (seq 0 180).

Definition degreeRing (center scale : R)
    (labelCollision : LabelCollisionDetector)
    : LabelCollisionDetector * list RenderPrimitive :=
  let outerBezelRadius := scale * 1.02 in
  let ringOuterRadius := scale * 1.0 in
  let ringInnerRadius := scale * 0.96 in
  let innerBezelRadius := scale * 0.94 in
  let '(labelCollision, ticks) :=
    degreeTicks tickDegrees center scale labelCollision in
  (labelCollision,
   ticks ++ [ createCircle center center outerBezelRadius None;
              createCircle center center ringOuterRadius None;
              createCircle center center ringInnerRadius None;
              createCircle center center innerBezelRadius None ]).

Definition metadataTexts (observer : Observer) (options : RenderOptions)
    (center viewportSize : R) : result (list RenderPrimitive) :=
  let metadataPrimitives := [] in
  let metadataPrimitives :=
    if showMapCoordinates options
    then metadataPrimitives
         ++ [createText center (viewportSize * 0.94) (formatLocation observer)
               anchor_middle baseline_middle]
    else metadataPrimitives in
  if showMapDate options then
    dateText <- formatDateTime observer ;;
    Ok (metadataPrimitives
        ++ [createText center (viewportSize * 0.97) dateText
              anchor_middle baseline_middle])
  else Ok metadataPrimitives.

(** [layers.set(t, ...)] guarded by [prims.length > 0]. *)
Definition setIfNonEmpty (layers : LayerMap) (t : LayerType)
    (prims : list RenderPrimitive) : LayerMap :=
  if (0 <? List.length prims)%nat then map_set layers t (mkLayer t prims)
  else layers.

(** ** The steps of [buildStarMapGeometry], in source order.

    Each step is one commented block of the function body; it receives
    the [layers] map (and the collision detector when the block uses
    it) and returns them as the block leaves them. *)

(* Build topographic contour lines (altitude bands) *)
Definition topoContoursStep (options : RenderOptions) (center scale : R)
    (layers : LayerMap) : LayerMap :=
  if showTopoContours options
  then map_set layers layer_topo_contours
         (mkLayer layer_topo_contours (topoContours center scale))
  else layers.

(* Build star layer *)
Definition starsStep (filteredStars : list ProjectedStar)
    (layers : LayerMap) : LayerMap :=
  let starPrimitives := map starCircle filteredStars in
  map_set layers layer_stars (mkLayer layer_stars starPrimitives).

(* Build star glow/spikes layer for bright stars *)
Definition starGlowStep (options : RenderOptions)
    (filteredStars : list ProjectedStar) (layers : LayerMap) : LayerMap :=
  if StarStyle_eqb (starStyle options) glow
     || StarStyle_eqb (starStyle options) spikes
  then setIfNonEmpty layers layer_star_glow
         (starEffects options filteredStars)
  else layers.

(* Build constellation lines *)
Definition constellationsStep (observer : Observer)
    (options : RenderOptions) (center scale degreeRingInnerRadius : R)
    (layers : LayerMap) : result LayerMap :=
  if showConstellations options then
    constellationLines <-
      constellationLineStrings observer center scale degreeRingInnerRadius ;;
    Ok (setIfNonEmpty layers layer_constellations constellationLines)
  else Ok layers.

(* Build constellation names (with collision detection) *)
Definition constellationNamesStep (observer : Observer)
    (options : RenderOptions) (center scale degreeRingInnerRadius : R)
    (layers : LayerMap) (labelCollision : LabelCollisionDetector)
    : result (LayerMap * LabelCollisionDetector) :=
  if showConstellationNames options then
    constellationLabels <-
      collectConstellationLabels observer center scale
        degreeRingInnerRadius ;;
    let constellationLabels :=
      array_sort (fun a b => INR (pointCount b) - INR (pointCount a))
        constellationLabels in
    let '(labelCollision, constellationNamePrimitives) :=
      placeConstellationLabels constellationLabels labelCollision in
    Ok (setIfNonEmpty layers layer_constellation_names
          constellationNamePrimitives,
        labelCollision)
  else Ok (layers, labelCollision).

(* Build star names (with collision detection) *)
Definition starNamesStep (options : RenderOptions)
    (projectedStars : list ProjectedStar) (center degreeRingInnerRadius : R)
    (layers : LayerMap) (labelCollision : LabelCollisionDetector)
    : LayerMap * LabelCollisionDetector :=
  if showStarNames options then
    let brightStars :=
      brightNamedStars projectedStars center degreeRingInnerRadius in
    let '(labelCollision, starNamePrimitives) :=
      placeStarNames brightStars labelCollision in
    (setIfNonEmpty layers layer_star_names starNamePrimitives,
     labelCollision)
  else (layers, labelCollision).

(* Build planets layer (with collision detection for labels) *)
Definition planetsStep (observer : Observer) (options : RenderOptions)
    (center scale degreeRingInnerRadius : R)
    (layers : LayerMap) (labelCollision : LabelCollisionDetector)
    : result (LayerMap * LabelCollisionDetector) :=
  if showPlanets options then
    planetPositions <- getPlanetPositions observer ;;
    let '(labelCollision, planetPrimitives) :=
      placePlanets planetPositions center scale degreeRingInnerRadius
        labelCollision in
    Ok (setIfNonEmpty layers layer_planets planetPrimitives,
        labelCollision)
  else Ok (layers, labelCollision).

(* Build horizon layer *)
Definition horizonStep (options : RenderOptions) (center scale : R)
    (layers : LayerMap) : LayerMap :=
  if showHorizon options
  then map_set layers layer_horizon
         (mkLayer layer_horizon [horizonPath center scale])
  else layers.

(* Build grid layer *)
Definition gridStep (observer : Observer) (options : RenderOptions)
    (center scale : R) (layers : LayerMap) : result LayerMap :=
  if showGrid options then
    gridPrimitives <- gridPrimitivesOf observer center scale ;;
    Ok (map_set layers layer_grid (mkLayer layer_grid gridPrimitives))
  else Ok layers.

(* Build cardinal markers *)
Definition cardinalsStep (options : RenderOptions) (center scale : R)
    (layers : LayerMap) (labelCollision : LabelCollisionDetector)
    : LayerMap * LabelCollisionDetector :=
  if showCardinals options then
    let '(labelCollision, cardinalPrimitives) :=
      placeCardinals cardinalMarkers center scale labelCollision in
    (map_set layers layer_cardinals
       (mkLayer layer_cardinals cardinalPrimitives),
     labelCollision)
  else (layers, labelCollision).

(* Build elaborate degree ring on the outside *)
Definition degreeRingStep (options : RenderOptions) (center scale : R)
    (layers : LayerMap) (labelCollision : LabelCollisionDetector)
    : LayerMap * LabelCollisionDetector :=
  if showDegreeRing options then
    let '(labelCollision, degreeRingPrimitives) :=
      degreeRing center scale labelCollision in
    (map_set layers layer_degree_ring
       (mkLayer layer_degree_ring degreeRingPrimitives),
     labelCollision)
  else (layers, labelCollision).

(* Build metadata layer (coordinates and date) *)
Definition metadataStep (observer : Observer) (options : RenderOptions)
    (center viewportSize : R) (layers : LayerMap) : result LayerMap :=
  metadataPrimitives <- metadataTexts observer options center viewportSize ;;
  Ok (setIfNonEmpty layers layer_metadata metadataPrimitives).

Definition buildStarMapGeometry (stars : list CatalogStar)
    (observer : Observer) (options : RenderOptions) (viewportSize : R)
    : result StarMapGeometry :=
  let layers : LayerMap := [] in
  let labelCollision := newLabelCollisionDetector 8 in
  let scale := viewportSize / 2 * 0.91 in
  let center := viewportSize / 2 in
  projectedStars <- projectStars stars observer options center scale ;;
  (* (the map from HIP ids to projected stars built next in the source
     is never read) *)
  let degreeRingInnerRadius := scale * 0.96 in
  let layers := topoContoursStep options center scale layers in
  let filteredStars :=
    filter (insideDegreeRing center degreeRingInnerRadius) projectedStars in
  let layers := starsStep filteredStars layers in
  let layers := starGlowStep options filteredStars layers in
  layers <-
    constellationsStep observer options center scale degreeRingInnerRadius
      layers ;;
  state <-
    constellationNamesStep observer options center scale
      degreeRingInnerRadius layers labelCollision ;;
  let '(layers, labelCollision) := state in
  let '(layers, labelCollision) :=
    starNamesStep options projectedStars center degreeRingInnerRadius
      layers labelCollision in
  state <-
    planetsStep observer options center scale degreeRingInnerRadius
      layers labelCollision ;;
  let '(layers, labelCollision) := state in
  let layers := horizonStep options center scale layers in
  layers <- gridStep observer options center scale layers ;;
  let '(layers, labelCollision) :=
    cardinalsStep options center scale layers labelCollision in
  let '(layers, labelCollision) :=
    degreeRingStep options center scale layers labelCollision in
  layers <- metadataStep observer options center viewportSize layers ;;
  Ok {| layers := layers;
        bounds := {| width := viewportSize;
                     height := viewportSize;
                     centerX := center;
                     centerY := center;
                     radius := scale |};
        metadata := {| starCount := List.length stars;
                       visibleStarCount := List.length projectedStars;
                       timestamp := date observer;
                       location := formatLocation observer |} |}.
End Builder.

(* ================================================================== *)
(** * Specification predicates and example data *)
(* ================================================================== *)

(** The round trip of the default projection at [(alt, az)] reproduces
    both coordinates within [tolerance]. *)
Definition roundTripWithin (tolerance alt az : R) : Prop :=
  let p := projectAzimuthalEquidistant alt az DEFAULT_PROJECTION_CONFIG in
  let h := inverseAzimuthalEquidistant {| x := proj_x p; y := proj_y p |}
             DEFAULT_PROJECTION_CONFIG in
  Rabs (altitude h - alt) <= tolerance /\ Rabs (azimuth h - az) <= tolerance.

(** The two visibility tests of the star loop, for one catalog star: the
    magnitude is within the limit and the computed altitude is positive. *)
Definition passesVisibilityFilter {engine : AstronomyEngine}
    (observer : Observer) (options : RenderOptions) (star : CatalogStar)
    : bool :=
  negb (mag star >? magnitudeLimit options)
  && match raDecToAltAz (ra star) (dec star) observer with
     | Ok coords => negb (altitude coords <=? 0)
     | Throw _ => false
     end.

(** [p] is the projected star computed from the catalog star [star]. *)
Definition projectionOf {engine : AstronomyEngine} (observer : Observer)
    (star : CatalogStar) (p : ProjectedStar) : Prop :=
  raDecToAltAz (ra star) (dec star) observer
  = Ok {| altitude := ps_altitude p; azimuth := ps_azimuth p |}
  /\ ps_hip p = hip star
  /\ ps_magnitude p = mag star
  /\ ps_name p = name star.

(** Two layer maps agree on every key but [k]. *)
Definition sameExcept (k : LayerType) (m m' : LayerMap) : Prop :=
  forall k', k <> k' -> map_get m' k' = map_get m k'.

(** The intermediate results of a build, step by step: the projected
    stars, then the state ([layers], and the collision detector where the
    step uses it) after the constellation lines, constellation names, star
    names, planets, grid (and horizon), cardinals, degree ring and metadata
    steps. *)
Record BuildTrace : Type :=
  { tr_projected : list ProjectedStar;
    tr_lines : LayerMap;
    tr_names : LayerMap * LabelCollisionDetector;
    tr_starNames : LayerMap * LabelCollisionDetector;
    tr_planets : LayerMap * LabelCollisionDetector;
    tr_grid : LayerMap;
    tr_cardinals : LayerMap * LabelCollisionDetector;
    tr_degreeRing : LayerMap * LabelCollisionDetector;
    tr_metadata : LayerMap }.

Definition buildTraceOf {engine : AstronomyEngine} {host : Host}
    (constellationData : list Constellation) (stars : list CatalogStar)
    (observer : Observer) (options : RenderOptions) (viewportSize : R)
    (t : BuildTrace) : Prop :=
  let scale := viewportSize / 2 * 0.91 in
  let center := viewportSize / 2 in
  let degreeRingInnerRadius := scale * 0.96 in
  let filteredStars :=
    filter (insideDegreeRing center degreeRingInnerRadius) (tr_projected t) in
  projectStars stars observer options center scale = Ok (tr_projected t)
  /\ constellationsStep constellationData observer options center scale
       degreeRingInnerRadius
       (starGlowStep options filteredStars
          (starsStep filteredStars
             (topoContoursStep options center scale [])))
     = Ok (tr_lines t)
  /\ constellationNamesStep constellationData observer options center scale
       degreeRingInnerRadius (tr_lines t) (newLabelCollisionDetector 8)
     = Ok (tr_names t)
  /\ starNamesStep options (tr_projected t) center degreeRingInnerRadius
       (fst (tr_names t)) (snd (tr_names t))
     = tr_starNames t
  /\ planetsStep observer options center scale degreeRingInnerRadius
       (fst (tr_starNames t)) (snd (tr_starNames t))
     = Ok (tr_planets t)
  /\ gridStep observer options center scale
       (horizonStep options center scale (fst (tr_planets t)))
     = Ok (tr_grid t)
  /\ cardinalsStep options center scale (tr_grid t) (snd (tr_planets t))
     = tr_cardinals t
  /\ degreeRingStep options center scale
       (fst (tr_cardinals t)) (snd (tr_cardinals t))
     = tr_degreeRing t
  /\ metadataStep observer options center viewportSize
       (fst (tr_degreeRing t))
     = Ok (tr_metadata t).

(** The geometry that [buildStarMapGeometry] returns once every step has
    succeeded. *)
Definition geometryOfTrace {host : Host} (stars : list CatalogStar)
    (observer : Observer) (viewportSize : R) (t : BuildTrace)
    : StarMapGeometry :=
  {| layers := tr_metadata t;
     bounds := {| width := viewportSize;
                  height := viewportSize;
                  centerX := viewportSize / 2;
                  centerY := viewportSize / 2;
                  radius := viewportSize / 2 * 0.91 |};
     metadata := {| starCount := List.length stars;
                    visibleStarCount := List.length (tr_projected t);
                    timestamp := date observer;
                    location := formatLocation observer |} |}.

(** The builder draws [line] for the polyline segment from vertex [point1]
    to vertex [point2]: both vertices are above the horizon, both projected
    endpoints are strictly closer to the centre than the ring-exclusion
    radius [scale * 0.96], and [line] joins the two projected endpoints. *)
Definition segmentDrawn {engine : AstronomyEngine} (observer : Observer)
    (center scale : R) (point1 point2 : RaDec) (line : RenderPrimitive)
    : Prop :=
  exists coord1 coord2,
    raDecToAltAz (pt_ra point1) (pt_dec point1) observer = Ok coord1
    /\ raDecToAltAz (pt_ra point2) (pt_dec point2) observer = Ok coord2
    /\ let proj1 :=
         projectAzimuthalEquidistant (altitude coord1) (azimuth coord1)
           DEFAULT_PROJECTION_CONFIG in
       let proj2 :=
         projectAzimuthalEquidistant (altitude coord2) (azimuth coord2)
           DEFAULT_PROJECTION_CONFIG in
       let x1 := center + proj_x proj1 * scale in
       let y1 := center + proj_y proj1 * scale in
       let x2 := center + proj_x proj2 * scale in
       let y2 := center + proj_y proj2 * scale in
       0 < altitude coord1
       /\ 0 < altitude coord2
       /\ sqrt ((x1 - center) ^ 2 + (y1 - center) ^ 2) < scale * 0.96
       /\ sqrt ((x2 - center) ^ 2 + (y2 - center) ^ 2) < scale * 0.96
       /\ line = LinePrimitive {| x := x1; y := y1 |} {| x := x2; y := y2 |}.

(** The horizontal position and the planet entry a body contributes to
    [getPlanetPositions]: nothing when resolving it throws or when it is
    not above the horizon. *)
Definition planetOf {engine : AstronomyEngine} (time : AstroTime)
    (astroObserver : AstroObserver) (b : PlanetBody) : list PlanetPosition :=
  match resolvePlanet time astroObserver (pb_body b) with
  | Ok hor =>
      if altitude hor >? 0
      then [ {| planet_altitude := altitude hor;
                planet_azimuth := azimuth hor;
                planet_name := pb_name b;
                planet_magnitude := pb_mag b |} ]
      else []
  | Throw _ => []
  end.

Definition Body_eqb (a b : Body) : bool :=
  match a, b with
  | Mercury, Mercury | Venus, Venus | Mars, Mars
  | Jupiter, Jupiter | Saturn, Saturn => true
  | _, _ => false
  end.

(** The estimated bounding box of a text primitive for a font size, as the
    builder's collision detector (padding 8) computes it. *)
Definition labelBox (fontSize : R) (prim : RenderPrimitive)
    : option BoundingBox :=
  match prim with
  | TextPrimitive position text anchor _ =>
      Some (estimateBoundingBox (newLabelCollisionDetector 8)
              (x position) (y position) text anchor fontSize)
  | _ => None
  end.

(** The boxes of the text primitives of a layer, in order. *)
Definition labelBoxes (fontSize : R) (prims : list RenderPrimitive)
    : list BoundingBox :=
  flat_map (fun prim =>
              match labelBox fontSize prim with
              | Some b => [b]
              | None => []
              end)
           prims.

(** The layers that hold labels placed through the collision detector,
    one per priority class, with the font size the builder passes to the
    detector for that class. *)
Definition priorityClassFontSize (k : LayerType) : option R :=
  match k with
  | layer_cardinals => Some 14
  | layer_constellation_names => Some 11
  | layer_star_names => Some 9
  | layer_planets => Some 9
  | layer_degree_ring => Some 8
  | _ => None
  end.

(** No two boxes of the list intersect. *)
Definition disjointBoxes (boxes : list BoundingBox) : Prop :=
  ForallOrdPairs (fun a b => intersects a b = false) boxes.

(** Each box of [boxes], in turn, passes the detector's scan against
    [prior] and the boxes before it. *)
Fixpoint placedFreely (prior boxes : list BoundingBox) : Prop :=
  match boxes with
  | [] => True
  | b :: rest => canPlaceScan b prior = true /\ placedFreely (prior ++ [b]) rest
  end.

(** What a placement loop guarantees: the detector keeps padding 8, gains
    exactly the boxes of the emitted labels, and each of them passed the
    scan against everything placed before it. *)
Definition placementLoop (fontSize : R)
    (d : LabelCollisionDetector)
    (out : LabelCollisionDetector * list RenderPrimitive) : Prop :=
  padding (fst out) = 8
  /\ placedLabels (fst out)
     = placedLabels d ++ labelBoxes fontSize (snd out)
  /\ placedFreely (placedLabels d) (labelBoxes fontSize (snd out)).

(** ** Example data *)

(** A host whose two formatters return fixed strings. *)
Definition stubHost : Host :=
  {| toFixed2 := fun _ => "0.00"%string;
     toISOString := fun _ => "2024-01-01T00:00:00.000Z"%string |}.

(** A toy ephemeris: the observer constructor rejects latitudes outside
    [[-90, 90]] and [MakeTime] rejects an invalid date, as the real engine
    does; the sky does not turn and has its pole at the zenith, so that a
    point of declination [d] and right ascension [h] hours stands at
    altitude [d] and azimuth [15 h]; Mars cannot be resolved, Venus stands
    at altitude 45 and the other planets are below the horizon. *)
Definition toyEngine : AstronomyEngine :=
  {| AstroObserver := R * R * R;
     AstroTime := Z;
     newAstroObserver := fun lat lon h =>
       if (lat <? -90) || (lat >? 90)
       then Throw "Latitude out of range"%string
       else Ok (lat, lon, h);
     MakeTime := fun d =>
       match d with
       | Some t => Ok t
       | None => Throw "Invalid date"%string
       end;
     Horizon := fun _ _ raHours dec =>
       Ok {| altitude := dec; azimuth := raHours * 15 |};
     Equator := fun body _ _ =>
       match body with
       | Mars => Throw "Cannot resolve body"%string
       | Venus => Ok {| equ_ra := 6; equ_dec := 45 |}
       | _ => Ok {| equ_ra := 0; equ_dec := -10 |}
       end |}.

Definition greenwich : Observer :=
  {| latitude := 51.4772; longitude := -0.0005; elevation := 0;
     date := Some 0%Z |}.

(** An observer north of the pole. *)
Definition beyondThePole : Observer :=
  {| latitude := 91; longitude := 0; elevation := 0; date := Some 0%Z |}.

(** Options with every optional step disabled. *)
Definition noLayers : RenderOptions :=
  {| magnitudeLimit := 6.0;
     starSizeMin := 0.2;
     starSizeMax := 2.0;
     showConstellations := false;
     showConstellationNames := false;
     showPlanets := false;
     showStarNames := false;
     showHorizon := false;
     showCardinals := false;
     showGrid := false;
     showDegreeRing := false;
     showTopoContours := false;
     showMapCoordinates := false;
     showMapDate := false;
     starStyle := dots;
     gridStyle := grid_none;
     theme := dark |}.

Definition cardinalsOnly : RenderOptions :=
  {| magnitudeLimit := 6.0;
     starSizeMin := 0.2;
     starSizeMax := 2.0;
     showConstellations := false;
     showConstellationNames := false;
     showPlanets := false;
     showStarNames := false;
     showHorizon := false;
     showCardinals := true;
     showGrid := false;
     showDegreeRing := false;
     showTopoContours := false;
     showMapCoordinates := false;
     showMapDate := false;
     starStyle := dots;
     gridStyle := grid_none;
     theme := dark |}.

(** [===] on numbers and on the time values of dates. *)
Definition Reqb (a b : R) : bool := if Req_EM_T a b then true else false.

Definition Date_eqb (a b : Date) : bool :=
  match a, b with
  | Some s, Some t => Z.eqb s t
  | None, None => true
  | _, _ => false
  end.

(** The engine [engine] made to throw whenever it is asked about a place
    or an instant other than those of [observer], to the last digit. *)
Definition engineFor (engine : AstronomyEngine) (observer : Observer)
    : AstronomyEngine :=
  {| AstroObserver := @AstroObserver engine;
     AstroTime := @AstroTime engine;
     newAstroObserver := fun lat lon h =>
       if Reqb lat (latitude observer) && Reqb lon (longitude observer)
          && Reqb h (elevation observer)
       then newAstroObserver lat lon h
       else Throw "engine asked about another place"%string;
     MakeTime := fun d =>
       if Date_eqb d (date observer) then MakeTime d
       else Throw "engine asked about another instant"%string;
     Horizon := Horizon;
     Equator := Equator |}.

(** A bright named star four degrees above the northern horizon of the toy
    sky, and options that enable the star names and the cardinal markers
    only. *)
Definition nova : CatalogStar :=
  {| hip := 1; ra := 0; dec := 4; mag := -1.5; name := Some "Nova"%string |}.

Definition namesAndCardinals : RenderOptions :=
  {| magnitudeLimit := 6.0;
     starSizeMin := 0.2;
     starSizeMax := 2.0;
     showConstellations := false;
     showConstellationNames := false;
     showPlanets := false;
     showStarNames := true;
     showHorizon := false;
     showCardinals := true;
     showGrid := false;
     showDegreeRing := false;
     showTopoContours := false;
     showMapCoordinates := false;
     showMapDate := false;
     starStyle := dots;
     gridStyle := grid_none;
     theme := dark |}.

(** The projection of [nova] on a viewport of size 500, and its name
    label. *)
Definition novaProjected : ProjectedStar :=
  {| ps_hip := 1;
     ps_x := 250;
     ps_y := 250 - 86 / 90 * 227.5;
     ps_altitude := 4;
     ps_azimuth := 0;
     ps_magnitude := -1.5;
     ps_radius := 2;
     ps_name := Some "Nova"%string |}.

Definition novaLabel : RenderPrimitive :=
  createText (250 + 2 + 8) (250 - 86 / 90 * 227.5 - 2 - 2) "Nova"
    anchor_start baseline_middle.

(** The cardinal marker N on a viewport of size 500. *)
Definition northMarker : RenderPrimitive :=
  createText 250 (250 - 95 / 90 * 227.5) "N" anchor_middle baseline_middle.

(** What [getPlanetPositions] returns under the toy engine: Venus only. *)
Definition toyPlanets : list PlanetPosition :=
  [ {| planet_altitude := 45;
       planet_azimuth := 6 * 15;
       planet_name := "Venus"%string;
       planet_magnitude := -4.0 |} ].


(** A constellation of one polyline whose last vertex is below the
    ring-exclusion radius, and options that draw the constellation lines,
    the planets and the degree ring. *)
Definition triangle : Constellation :=
  {| constellation_name := "Triangle"%string;
     lines := [ [ {| pt_ra := 0; pt_dec := 60 |};
                  {| pt_ra := 30; pt_dec := 50 |};
                  {| pt_ra := 60; pt_dec := 2 |} ] ] |}.

Definition linesAndPlanets : RenderOptions :=
  {| magnitudeLimit := 6.0;
     starSizeMin := 0.2;
     starSizeMax := 2.0;
     showConstellations := true;
     showConstellationNames := true;
     showPlanets := true;
     showStarNames := true;
     showHorizon := true;
     showCardinals := true;
     showGrid := false;
     showDegreeRing := true;
     showTopoContours := false;
     showMapCoordinates := true;
     showMapDate := true;
     starStyle := glow;
     gridStyle := grid_none;
     theme := dark |}.

(** A catalog of three stars: [nova], a star too faint for the magnitude
    limit 6, and a bright star below the horizon of the toy sky. *)
Definition faintStar : CatalogStar :=
  {| hip := 2; ra := 90; dec := 50; mag := 7; name := None |}.

Definition sunkenStar : CatalogStar :=
  {| hip := 3; ra := 180; dec := -10; mag := 1;
     name := Some "Sunken"%string |}.

Definition threeStars : list CatalogStar := [nova; faintStar; sunkenStar].

(** The first side of [triangle] as drawn on a viewport of size 500 under
    the toy engine: from the vertex at altitude 60 due north, a third of
    the scale 227.5 above the centre (250, 250), to the vertex at altitude
    50 and azimuth 30, at four ninths of the scale from the centre. *)
Definition triangleSide : RenderPrimitive :=
  LinePrimitive
    {| x := 250; y := 250 - 227.5 / 3 |}
    {| x := 250 + 227.5 * (4 / 9) * (1 / 2);
       y := 250 - 227.5 * (4 / 9) * (sqrt 3 / 2) |}.

(** Every layer of the map other than ['stars'] holds at least one
    primitive. *)
Definition nonEmptyExceptStars (m : LayerMap) : Prop :=
  forall k layer,
    map_get m k = Some layer -> k <> layer_stars -> primitives layer <> [].

(* ================================================================== *)
(** * Further functions of the sources *)
(* ================================================================== *)

(** ** Projection helpers ([lib/projection/azimuthal.ts]) *)

Definition projectToViewport (altitude azimuth viewportSize : R)
    (config : ProjectionConfig) : ProjectionResult :=
  let projected := projectAzimuthalEquidistant altitude azimuth config in
  let center := viewportSize / 2 in
  let scale := center * 0.95 in
  {| proj_x := center + proj_x projected * scale;
     proj_y := center + proj_y projected * scale;
     visible := visible projected |}.

Definition altitudeToRadius (altitude : R) (config : ProjectionConfig) : R :=
  let angularDistance := centerAltitude config - altitude in
  (angularDistance / 90) * maxRadius config.

(** The loop [for (let alt = 90; alt >= 0; alt -= 5)], bounded by
    [fuel]. *)
Fixpoint azimuthLineLoop (fuel : nat) (alt azimuth : R)
    (config : ProjectionConfig) : list Point2D :=
  match fuel with
  | O => []
  | S fuel' =>
      if alt >=? 0 then
        let projected := projectAzimuthalEquidistant alt azimuth config in
        {| x := proj_x projected; y := proj_y projected |}
          :: azimuthLineLoop fuel' (alt - 5) azimuth config
      else []
  end.

Definition generateAzimuthLine (azimuth : R) (config : ProjectionConfig)
    : list Point2D :=
  azimuthLineLoop 20 90 azimuth config.

(** ** Opacity ([lib/geometry/primitives.ts]) *)

Definition magnitudeToOpacity (magnitude magnitudeLimit : R) : R :=
  let minMag := -1.5 in
  let normalized := (magnitude - minMag) / (magnitudeLimit - minMag) in
  let clamped := Rmax 0 (Rmin 1 normalized) in
  1 - clamped * 0.3.

(** ** Horizon test ([lib/astronomy/coordinates.ts]) *)

Definition isAboveHorizon (altitude : R) : bool := altitude >? 0.

(** ** Projected stars for external use ([lib/geometry/builder.ts]) *)

Section ProjectedStars.
Context {engine : AstronomyEngine}.

Fixpoint getProjectedStars (stars : list CatalogStar) (observer : Observer)
    (options : RenderOptions) : result (list ProjectedStar) :=
  match stars with
  | [] => Ok []
  | star :: rest =>
      if mag star >? magnitudeLimit options
      then getProjectedStars rest observer options
      else
        coords <- raDecToAltAz (ra star) (dec star) observer ;;
        if altitude coords <=? 0
        then getProjectedStars rest observer options
        else
          let projected :=
            projectAzimuthalEquidistant (altitude coords) (azimuth coords)
              DEFAULT_PROJECTION_CONFIG in
          let radius :=
            magnitudeToRadius (mag star) (starSizeMin options)
              (starSizeMax options) (magnitudeLimit options) in
          tail <- getProjectedStars rest observer options ;;
          Ok ({| ps_hip := hip star;
                 ps_x := proj_x projected;
                 ps_y := proj_y projected;
                 ps_altitude := altitude coords;
                 ps_azimuth := azimuth coords;
                 ps_magnitude := mag star;
                 ps_radius := radius;
                 ps_name := name star |} :: tail)
  end.
End ProjectedStars.

(** ** Star catalog ([lib/astronomy/catalog.ts]) *)

Record CatalogMeta : Type :=
  { meta_source : string;
    meta_epoch : string;
    meta_count : R;
    meta_magLimit : R }.

Record StarCatalog : Type :=
  { catalog_meta : CatalogMeta;
    catalog_stars : list CatalogStar }.

(** [Array.prototype.slice(0, count)] for an integer [count]: a negative
    count is taken from the end of the array. *)
Definition slice0 {A : Type} (l : list A) (count : Z) : list A :=
  let len := Z.of_nat (List.length l) in
  let finish :=
    if (count <? 0)%Z then Z.max (len + count) 0 else Z.min count len in
  firstn (Z.to_nat finish) l.

Section Catalog.
(** The imported data file [data/stars.json]. *)
Variable starData : StarCatalog.

(** The module variable [catalogCache] is threaded: each function takes
    the cache and returns it with its result. *)
Definition loadCatalog (catalogCache : option StarCatalog)
    : StarCatalog * option StarCatalog :=
  match catalogCache with
  | Some cached => (cached, catalogCache)
  | None => (starData, Some starData)
  end.

Definition getStarsByMagnitude (catalogCache : option StarCatalog)
    (magnitudeLimit : R) : list CatalogStar * option StarCatalog :=
  let '(catalog, catalogCache) := loadCatalog catalogCache in
  (filter (fun star => mag star <=? magnitudeLimit) (catalog_stars catalog),
   catalogCache).

Definition getStarByHip (catalogCache : option StarCatalog) (hipId : R)
    : option CatalogStar * option StarCatalog :=
  let '(catalog, catalogCache) := loadCatalog catalogCache in
  (find (fun star => Reqb (hip star) hipId) (catalog_stars catalog),
   catalogCache).

Definition getBrightestStars (catalogCache : option StarCatalog) (count : Z)
    : list CatalogStar * option StarCatalog :=
  let '(catalog, catalogCache) := loadCatalog catalogCache in
  (slice0 (array_sort (fun a b => mag a - mag b) (catalog_stars catalog))
     count,
   catalogCache).
End Catalog.

(** ** Export utilities ([lib/export/utils.ts]) *)

(** [Math.round]: the nearest integer, halves rounded up. *)
Definition Math_round (v : R) : R := IZR (Zfloor (v + 0.5)).

Definition mmToPixels (mm dpi : R) : R :=
  let inches := mm / 25.4 in
  Math_round (inches * dpi).

Definition pixelsToMm (pixels dpi : R) : R :=
  let inches := pixels / dpi in
  inches * 25.4.

(** The character class [[a-zA-Z0-9]]. *)
Definition isAlphanumeric (c : ascii) : bool :=
  let n := nat_of_ascii c in
  ((48 <=? n) && (n <=? 57) || (65 <=? n) && (n <=? 90)
   || (97 <=? n) && (n <=? 122))%nat.

Definition hyphen : ascii := "-"%char.

(** [.replace(/[^a-zA-Z0-9]/g, '-')] *)
Fixpoint replaceNonAlphanumeric (s : string) : string :=
  match s with
  | EmptyString => EmptyString
  | String c rest =>
      String (if isAlphanumeric c then c else hyphen)
        (replaceNonAlphanumeric rest)
  end.

(** [.replace(/-+/g, '-')]: every run of hyphens becomes one hyphen. *)
Fixpoint collapseHyphens (s : string) : string :=
  match s with
  | EmptyString => EmptyString
  | String c rest =>
      if Ascii.eqb c hyphen then
        match rest with
        | String c' _ =>
            if Ascii.eqb c' hyphen then collapseHyphens rest
            else String hyphen (collapseHyphens rest)
        | EmptyString => String hyphen EmptyString
        end
      else String c (collapseHyphens rest)
  end.

Definition locationSlug (location : string) : string :=
  collapseHyphens (replaceNonAlphanumeric location).

Section Filename.
Context {host : Host}.

(** [date.toISOString()] throws on an invalid date. *)
Definition generateFilename (location : string) (date : Date)
    (format : string) : result string :=
  let locationSlug := locationSlug location in
  match date with
  | None => Throw "RangeError: Invalid time value"%string
  | Some t =>
      let dateStr := substring 0 10 (toISOString t) in
      Ok ("starmap-" ++ locationSlug ++ "-" ++ dateStr ++ "." ++ format)%string
  end.
End Filename.

(** ** XML escaping ([lib/render/svg.ts]) *)

(** [.replace(/c/g, replacement)] for a one-character pattern. *)
Fixpoint replaceAllChar (c : ascii) (replacement : string) (s : string)
    : string :=
  match s with
  | EmptyString => EmptyString
  | String a rest =>
      if Ascii.eqb a c
      then (replacement ++ replaceAllChar c replacement rest)%string
      else String a (replaceAllChar c replacement rest)
  end.

Definition ampersand : ascii := "&"%char.
Definition lessThan : ascii := "<"%char.
Definition greaterThan : ascii := ">"%char.
Definition doubleQuote : ascii := ascii_of_nat 34.
Definition apostrophe : ascii := "'"%char.

Definition escapeXml (str : string) : string :=
  replaceAllChar apostrophe "&apos;"
    (replaceAllChar doubleQuote "&quot;"
       (replaceAllChar greaterThan "&gt;"
          (replaceAllChar lessThan "&lt;"
             (replaceAllChar ampersand "&amp;" str)))).

(** ** Render styles ([lib/render/styles.ts]) *)

Record ThemeColors : Type :=
  { color_background : string;
    color_stars : string;
    color_starGlow : string;
    color_horizon : string;
    color_cardinals : string;
    color_grid : string;
    color_text : string;
    color_constellations : string;
    color_planets : string;
    color_starNames : string;
    color_constellationNames : string;
    color_degreeRing : string;
    color_topoContours : list string }.

Record RenderStyles : Type :=
  { colors : ThemeColors;
    starFill : bool;
    starStroke : bool;
    starStrokeWidth : R;
    horizonWidth : R;
    gridWidth : R;
    constellationWidth : R;
    planetSize : R;
    cardinalFontSize : R;
    metadataFontSize : R;
    fontFamily : string }.

Definition scaleStyles (styles : RenderStyles) (scaleFactor : R)
    : RenderStyles :=
  {| colors := colors styles;
     starFill := starFill styles;
     starStroke := starStroke styles;
     starStrokeWidth := starStrokeWidth styles * scaleFactor;
     horizonWidth := horizonWidth styles * scaleFactor;
     gridWidth := gridWidth styles * scaleFactor;
     constellationWidth := constellationWidth styles * scaleFactor;
     planetSize := planetSize styles;
     cardinalFontSize := cardinalFontSize styles * scaleFactor;
     metadataFontSize := metadataFontSize styles * scaleFactor;
     fontFamily := fontFamily styles |}.

(** ** Observers whose fields need not be finite *)

(** A JavaScript number that may be NaN or infinite. *)
Inductive JsNumber : Type :=
| Num (r : R)
| PosInfinity
| NegInfinity
| NaN.

(** [a < b] and [a > b] for a finite [b]: both false on NaN. *)
Definition js_ltb (a : JsNumber) (b : R) : bool :=
  match a with
  | Num r => r <? b
  | NegInfinity => true
  | PosInfinity | NaN => false
  end.

Definition js_gtb (a : JsNumber) (b : R) : bool :=
  match a with
  | Num r => r >? b
  | PosInfinity => true
  | NegInfinity | NaN => false
  end.

(** An [Observer] object as a function receives it at run time. *)
Record JsObserver : Type :=
  { js_latitude : JsNumber;
    js_longitude : JsNumber;
    js_elevation : JsNumber;
    js_date : Date }.

Definition jsObserverOf (observer : Observer) : JsObserver :=
  {| js_latitude := Num (latitude observer);
     js_longitude := Num (longitude observer);
     js_elevation := Num (elevation observer);
     js_date := date observer |}.

(** [validateObserver] ([lib/astronomy/observer.ts]) on such an
    observer. *)
Definition validateObserverJs (observer : JsObserver) : ValidationResult :=
  let errors := [] in
  let errors :=
    if js_ltb (js_latitude observer) (-90)
       || js_gtb (js_latitude observer) 90
    then errors ++ ["Latitude must be between -90 and 90 degrees"%string]
    else errors in
  let errors :=
    if js_ltb (js_longitude observer) (-180)
       || js_gtb (js_longitude observer) 180
    then errors ++ ["Longitude must be between -180 and 180 degrees"%string]
    else errors in
  let errors :=
    if js_ltb (js_elevation observer) (-500)
       || js_gtb (js_elevation observer) 10000
    then errors ++ ["Elevation must be between -500 and 10000 meters"%string]
    else errors in
  let errors :=
    match js_date observer with
    | None => errors ++ ["Invalid date"%string]
    | Some _ => errors
    end in
  {| valid := Nat.eqb (List.length errors) 0; errors := errors |}.

(** ** Local sidereal time ([lib/astronomy/coordinates.ts]) *)

(** The UTC getters of [Date] on a valid time value. *)
Class DateFields : Type :=
  { getUTCFullYear : Z -> Z;
    getUTCMonth : Z -> Z;
    getUTCDate : Z -> Z;
    getUTCHours : Z -> Z;
    getUTCMinutes : Z -> Z;
    getUTCSeconds : Z -> Z }.

(** The remainder operator [%] on finite numbers: the quotient is
    truncated towards zero, so the result has the sign of the dividend. *)
Definition Ztrunc (v : R) : Z :=
  if v <? 0 then (- Zfloor (- v))%Z else Zfloor v.

Definition js_rem (a b : R) : R := a - b * IZR (Ztrunc (a / b)).

Section SiderealTime.
Context {fields : DateFields}.

(** The getters return integers, on which [Math.floor] of a quotient is
    the integer division. *)
Definition dateToJulianDay (t : Z) : R :=
  let year := getUTCFullYear t in
  let month := (getUTCMonth t + 1)%Z in
  let day := getUTCDate t in
  let hour := getUTCHours t in
  let minute := getUTCMinutes t in
  let second := getUTCSeconds t in
  let a := ((14 - month) / 12)%Z in
  let y := (year + 4800 - a)%Z in
  let m := (month + 12 * a - 3)%Z in
  let jdn :=
    (day + (153 * m + 2) / 5 + 365 * y + y / 4 - y / 100 + y / 400
     - 32045)%Z in
  IZR jdn + (IZR hour - 12) / 24 + IZR minute / 1440 + IZR second / 86400.

(** On an invalid date every getter returns NaN and so does the function.
    On a valid date [gmst] is finite; adding a longitude that is NaN or
    infinite gives NaN or an infinity, whose remainder is NaN, and NaN
    goes through the final test unchanged. *)
Definition calculateLST (observer : JsObserver) : JsNumber :=
  match js_date observer with
  | None => NaN
  | Some t =>
      let jd := dateToJulianDay t in
      let T := (jd - 2451545.0) / 36525 in
      let gmst :=
        280.46061837 + 360.98564736629 * (jd - 2451545.0)
        + T * T * (0.000387933 - T / 38710000) in
      match js_longitude observer with
      | Num longitude =>
          let lst := js_rem (gmst + longitude) 360 in
          Num (if lst <? 0 then lst + 360 else lst)
      | PosInfinity | NegInfinity | NaN => NaN
      end
  end.
End SiderealTime.

(* ================================================================== *)
(** * Further specification predicates and example data *)
(* ================================================================== *)

(** The point of a projection result. *)
Definition pointOf (p : ProjectionResult) : Point2D :=
  {| x := proj_x p; y := proj_y p |}.

(** A configuration with south at the top, east on the left and the
    horizon at radius 2. *)
Definition southUpWestRight : ProjectionConfig :=
  {| centerAltitude := 90; maxRadius := 2; northUp := false;
     eastRight := false |}.

(** The boxes of the labels of layer [k], empty when the layer is not in
    the map. *)
Definition layerBoxes (fontSize : R) (m : LayerMap) (k : LayerType)
    : list BoundingBox :=
  match map_get m k with
  | Some layer => labelBoxes fontSize (primitives layer)
  | None => []
  end.

(** What a label step guarantees about the detector: it keeps padding 8,
    gains exactly the boxes of the labels of the step's layer, and each of
    them passed the scan against everything placed before it. *)
Definition stepPlaces (fontSize : R) (k : LayerType)
    (lc : LabelCollisionDetector) (st : LayerMap * LabelCollisionDetector)
    : Prop :=
  padding (snd st) = 8
  /\ placedLabels (snd st)
     = placedLabels lc ++ layerBoxes fontSize (fst st) k
  /\ placedFreely (placedLabels lc) (layerBoxes fontSize (fst st) k).

(** The option that switches the step of a layer on.  The builder has no
    step for the background and the hour indices. *)
Definition layerEnabled (options : RenderOptions) (k : LayerType) : bool :=
  match k with
  | layer_topo_contours => showTopoContours options
  | layer_stars => true
  | layer_star_glow =>
      StarStyle_eqb (starStyle options) glow
      || StarStyle_eqb (starStyle options) spikes
  | layer_constellations => showConstellations options
  | layer_constellation_names => showConstellationNames options
  | layer_star_names => showStarNames options
  | layer_planets => showPlanets options
  | layer_horizon => showHorizon options
  | layer_grid => showGrid options
  | layer_cardinals => showCardinals options
  | layer_degree_ring => showDegreeRing options
  | layer_metadata => showMapCoordinates options || showMapDate options
  | layer_background | layer_hour_indices => false
  end.

(** The layers whose [layers.set] has no [length > 0] guard. *)
Definition unguardedLayer (k : LayerType) : bool :=
  match k with
  | layer_topo_contours | layer_stars | layer_horizon | layer_grid
  | layer_cardinals | layer_degree_ring => true
  | _ => false
  end.

(** Every layer of the map is stored under its own type, is visible and
    belongs to a step that the options switch on. *)
Definition wellKeyed (options : RenderOptions) (m : LayerMap) : Prop :=
  forall k layer,
    map_get m k = Some layer ->
    layerEnabled options k = true
    /\ type layer = k /\ layer_visible layer = true.

(** A projected star in viewport coordinates. *)
Definition scaleStar (center scale : R) (p : ProjectedStar) : ProjectedStar :=
  {| ps_hip := ps_hip p;
     ps_x := center + ps_x p * scale;
     ps_y := center + ps_y p * scale;
     ps_altitude := ps_altitude p;
     ps_azimuth := ps_azimuth p;
     ps_magnitude := ps_magnitude p;
     ps_radius := ps_radius p;
     ps_name := ps_name p |}.

(** The circle the builder draws for [novaProjected]. *)
Definition novaCircle : RenderPrimitive := starCircle novaProjected.

(** The module cache of the catalog is empty or holds the data file. *)
Definition validCache (starData : StarCatalog)
    (catalogCache : option StarCatalog) : Prop :=
  catalogCache = None \/ catalogCache = Some starData.

(** A toy catalog file holding [threeStars]. *)
Definition toyCatalog : StarCatalog :=
  {| catalog_meta :=
       {| meta_source := "toy"; meta_epoch := "J2000"; meta_count := 3;
          meta_magLimit := 7 |};
     catalog_stars := threeStars |}.

(** Every character of the string passes the test. *)
Fixpoint allChars (test : ascii -> bool) (s : string) : bool :=
  match s with
  | EmptyString => true
  | String c rest => test c && allChars test rest
  end.

(** The characters a location slug may hold. *)
Definition slugChar (c : ascii) : bool :=
  isAlphanumeric c || Ascii.eqb c hyphen.

(** No hyphen of the string is followed by a hyphen. *)
Fixpoint noDoubleHyphen (s : string) : bool :=
  match s with
  | EmptyString => true
  | String c rest =>
      negb (Ascii.eqb c hyphen
            && match rest with
               | String c' _ => Ascii.eqb c' hyphen
               | EmptyString => false
               end)
      && noDoubleHyphen rest
  end.

(** Escaping read character by character: the entity of each of the five
    special characters, every other character as it is. *)
Definition escapeChar (c : ascii) : string :=
  if Ascii.eqb c ampersand then "&amp;"
  else if Ascii.eqb c lessThan then "&lt;"
  else if Ascii.eqb c greaterThan then "&gt;"
  else if Ascii.eqb c doubleQuote then "&quot;"
  else if Ascii.eqb c apostrophe then "&apos;"
  else String c EmptyString.

Fixpoint escapeEach (s : string) : string :=
  match s with
  | EmptyString => EmptyString
  | String c rest => (escapeChar c ++ escapeEach rest)%string
  end.

(** The characters that delimit markup and attribute values. *)
Definition markupChar (c : ascii) : bool :=
  Ascii.eqb c lessThan || Ascii.eqb c greaterThan
  || Ascii.eqb c doubleQuote || Ascii.eqb c apostrophe.

Definition specialChar (c : ascii) : bool :=
  Ascii.eqb c ampersand || markupChar c.

(** The toy ephemeris without the range check of its observer
    constructor: it answers for every latitude. *)
Definition lenientEngine : AstronomyEngine :=
  {| AstroObserver := R * R * R;
     AstroTime := Z;
     newAstroObserver := fun lat lon h => Ok (lat, lon, h);
     MakeTime := fun d =>
       match d with
       | Some t => Ok t
       | None => Throw "Invalid date"%string
       end;
     Horizon := fun _ _ raHours dec =>
       Ok {| altitude := dec; azimuth := raHours * 15 |};
     Equator := fun body _ _ =>
       match body with
       | Mars => Throw "Cannot resolve body"%string
       | Venus => Ok {| equ_ra := 6; equ_dec := 45 |}
       | _ => Ok {| equ_ra := 0; equ_dec := -10 |}
       end |}.

(** A detector of padding 8 that holds the box of the marker N placed at
    the origin with font size 14. *)
Definition oneLabel : LabelCollisionDetector :=
  place (newLabelCollisionDetector 8) 0 0 "N" anchor_middle 14.

(** The number is NaN or a finite number between the two bounds: what a
    range test of [validateObserver] lets through. *)
Definition passesRange (lo hi : R) (n : JsNumber) : Prop :=
  match n with
  | Num r => lo <= r <= hi
  | NaN => True
  | PosInfinity | NegInfinity => False
  end.

Definition finite (n : JsNumber) : Prop := exists r, n = Num r.


(* ================================================================== *)
(** * Properties *)
(* ================================================================== *)

Lemma Rltb_true (a b : R) : (a <? b) = true <-> a < b.
Proof. unfold Rltb. destruct (Rlt_dec a b); split; intros; try easy. Qed.

Lemma Rltb_false (a b : R) : (a <? b) = false <-> b <= a.
Proof. unfold Rltb. destruct (Rlt_dec a b); split; intros; try easy; lra. Qed.

Lemma Rleb_true (a b : R) : (a <=? b) = true <-> a <= b.
Proof. unfold Rleb. destruct (Rle_dec a b); split; intros; try easy. Qed.

Lemma Rleb_false (a b : R) : (a <=? b) = false <-> b < a.
Proof. unfold Rleb. destruct (Rle_dec a b); split; intros; try easy; lra. Qed.

Lemma Rgtb_true (a b : R) : (a >? b) = true <-> b < a.
Proof. apply Rltb_true. Qed.

Lemma Rgtb_false (a b : R) : (a >? b) = false <-> a <= b.
Proof. apply Rltb_false. Qed.

Lemma Rgeb_true (a b : R) : (a >=? b) = true <-> b <= a.
Proof. apply Rleb_true. Qed.

Lemma Rgeb_false (a b : R) : (a >=? b) = false <-> a < b.
Proof. apply Rleb_false. Qed.

(** Decide the comparisons of the goal whose outcome [lra] can settle. *)
Ltac js_cmp :=
  unfold Rgtb, Rgeb;
  repeat match goal with
  | |- context [Rltb ?a ?b] =>
      first [ rewrite (proj2 (Rltb_true a b)) by lra
            | rewrite (proj2 (Rltb_false a b)) by lra ]
  | |- context [Rleb ?a ?b] =>
      first [ rewrite (proj2 (Rleb_true a b)) by lra
            | rewrite (proj2 (Rleb_false a b)) by lra ]
  end.

(** ** The magnitude-to-radius curve *)

Lemma clamp01_range (t : R) : 0 <= Rmax 0 (Rmin 1 t) <= 1.
Proof.
  unfold Rmax, Rmin.
  destruct (Rle_dec 1 t); destruct (Rle_dec 0 _); lra.
Qed.

Lemma clamp01_mono (s t : R) :
  s <= t -> Rmax 0 (Rmin 1 s) <= Rmax 0 (Rmin 1 t).
Proof.
  intros H. unfold Rmax, Rmin.
  destruct (Rle_dec 1 s); destruct (Rle_dec 1 t);
    repeat match goal with |- context [Rle_dec ?a ?b] => destruct (Rle_dec a b) end;
    lra.
Qed.

Lemma magnitudeToRadius_brightest (minRadius maxRadius magnitudeLimit : R) :
  magnitudeLimit <> -1.5 ->
  magnitudeToRadius (-1.5) minRadius maxRadius magnitudeLimit = maxRadius.
Proof.
  intros H. unfold magnitudeToRadius.
  replace ((-1.5 - -1.5) / (magnitudeLimit - -1.5)) with 0 by (field; lra).
  replace (Rmax 0 (Rmin 1 0)) with 0.
  - rewrite Rminus_0_r, sqrt_1. ring.
  - unfold Rmax, Rmin. destruct (Rle_dec 1 0); try lra.
    destruct (Rle_dec 0 0); lra.
Qed.





(** ** Polar angles and [atan2] *)

Lemma tan_shift_PI (t : R) : cos t <> 0 -> tan (t + PI) = tan t.
Proof.
  intros H. unfold tan. rewrite neg_sin, neg_cos. field. exact H.
Qed.

Lemma polar_quotient (r t : R) :
  0 < r -> cos t <> 0 -> (r * sin t) / (r * cos t) = tan t.
Proof. intros Hr Hc. unfold tan. field. split; lra. Qed.

(** [atan2] recovers the angle of a point given in polar form, for an
    angle in the principal range. *)
Lemma atan2_polar (r t : R) :
  0 < r -> - PI < t <= PI -> atan2 (r * sin t) (r * cos t) = t.
Proof.
  intros Hr [Hlo Hhi].
  pose proof PI_RGT_0 as HPI.
  unfold atan2.
  destruct (Rlt_dec t (- (PI / 2))) as [L1 | L1].
  { (* third quadrant *)
    assert (Hc : cos (t + PI) > 0) by (apply cos_gt_0; lra).
    assert (Hs : sin (t + PI) > 0) by (apply sin_gt_0; lra).
    rewrite neg_cos in Hc. rewrite neg_sin in Hs.
    assert (r * cos t < 0) by nra.
    assert (r * sin t < 0) by nra.
    js_cmp.
    rewrite polar_quotient by lra.
    rewrite <- tan_shift_PI by lra.
    rewrite atan_tan by lra. lra. }
  destruct (Req_dec t (- (PI / 2))) as [E1 | E1].
  { subst t. rewrite cos_neg, sin_neg, cos_PI2, sin_PI2.
    replace (r * 0) with 0 by ring.
    js_cmp. reflexivity. }
  destruct (Rlt_dec t (PI / 2)) as [L2 | L2].
  { assert (Hc : 0 < cos t) by (apply cos_gt_0; lra).
    assert (0 < r * cos t) by nra.
    js_cmp. rewrite polar_quotient by lra.
    apply atan_tan. lra. }
  destruct (Req_dec t (PI / 2)) as [E2 | E2].
  { subst t. rewrite cos_PI2, sin_PI2.
    replace (r * 0) with 0 by ring.
    js_cmp. reflexivity. }
  (* second quadrant *)
  assert (Hc : cos t < 0) by (apply cos_lt_0; lra).
  assert (Hs : 0 <= sin t) by (apply sin_ge_0; lra).
  assert (r * cos t < 0) by nra.
  assert (0 <= r * sin t) by nra.
  js_cmp.
  rewrite polar_quotient by lra.
  replace (tan t) with (tan (t - PI)).
  - rewrite atan_tan by lra. lra.
  - replace t with ((t - PI) + PI) at 2 by ring.
    symmetry. apply tan_shift_PI.
    replace (t - PI) with (- (PI - t)) by ring.
    rewrite cos_neg, Rtrigo_facts.cos_pi_minus. lra.
Qed.

Lemma sin_minus_turn (t : R) : sin (t - 2 * PI) = sin t.
Proof.
  replace t with (((t - 2 * PI) + PI) + PI) at 2 by ring.
  rewrite !neg_sin. ring.
Qed.

Lemma cos_minus_turn (t : R) : cos (t - 2 * PI) = cos t.
Proof.
  replace t with (((t - 2 * PI) + PI) + PI) at 2 by ring.
  rewrite !neg_cos. ring.
Qed.

(** The same for an angle in [[0, 2 PI)]: the result is the angle reduced
    to the principal range. *)
Lemma atan2_polar_turn (r t : R) :
  0 < r -> 0 <= t < 2 * PI ->
  atan2 (r * sin t) (r * cos t) = if t <=? PI then t else t - 2 * PI.
Proof.
  intros Hr [Hlo Hhi].
  pose proof PI_RGT_0 as HPI.
  destruct (Rle_dec t PI) as [L | L].
  - js_cmp. apply atan2_polar; lra.
  - js_cmp.
    rewrite <- (sin_minus_turn t), <- (cos_minus_turn t).
    apply atan2_polar; lra.
Qed.

Lemma polar_norm (r t : R) :
  0 <= r ->
  sqrt (r * sin t * (r * sin t) + - r * cos t * (- r * cos t)) = r.
Proof.
  intros Hr.
  replace (r * sin t * (r * sin t) + - r * cos t * (- r * cos t))
    with (r * r * ((sin t)² + (cos t)²)) by (unfold Rsqr; ring).
  rewrite sin2_cos2, Rmult_1_r. apply sqrt_square. exact Hr.
Qed.

(** Round trip of the default projection away from the zenith. *)
Lemma inverse_project_default (alt az : R) :
  0 <= alt < 90 -> 0 <= az < 360 ->
  let p := projectAzimuthalEquidistant alt az DEFAULT_PROJECTION_CONFIG in
  inverseAzimuthalEquidistant {| x := proj_x p; y := proj_y p |}
    DEFAULT_PROJECTION_CONFIG
  = {| altitude := alt; azimuth := az |}.
Proof.
  intros [Ha0 Ha1] [Hz0 Hz1].
  pose proof PI_RGT_0 as HPI.
  unfold projectAzimuthalEquidistant, inverseAzimuthalEquidistant.
  cbn [DEFAULT_PROJECTION_CONFIG centerAltitude maxRadius northUp eastRight
       negb proj_x proj_y x y].
  set (r := (90 - alt) / 90 * 1).
  set (t := az * PI / 180).
  assert (Hr : 0 < r) by (unfold r; lra).
  assert (Ht : 0 <= t < 2 * PI).
  { unfold t. split.
    - apply Rmult_le_pos; [| lra]. 
      apply Rmult_le_pos; lra.
    - apply Rmult_lt_reg_r with 180; [lra |].
      replace (az * PI / 180 * 180) with (az * PI) by field.
      nra. }
  rewrite polar_norm by lra.
  replace (- (- r * cos t)) with (r * cos t) by ring.
  rewrite atan2_polar_turn by assumption.
  f_equal.
  - unfold r. field.
  - destruct (Rle_dec t PI) as [L | L]; js_cmp.
    + assert (0 <= t * 180 / PI).
      { apply Rmult_le_pos; [lra |]. apply Rlt_le, Rinv_0_lt_compat; lra. }
      js_cmp. unfold t. field. lra.
    + assert ((t - 2 * PI) * 180 / PI < 0).
      { apply Rmult_lt_reg_r with PI; [lra |].
        replace ((t - 2 * PI) * 180 / PI * PI) with ((t - 2 * PI) * 180)
          by (field; lra).
        lra. }
      js_cmp. unfold t. field. lra.
Qed.

(** At the zenith every azimuth projects to the origin, and the inverse
    gives the altitude back. *)
Lemma project_zenith (az : R) :
  let p := projectAzimuthalEquidistant 90 az DEFAULT_PROJECTION_CONFIG in
  proj_x p = 0 /\ proj_y p = 0
  /\ altitude
       (inverseAzimuthalEquidistant {| x := proj_x p; y := proj_y p |}
          DEFAULT_PROJECTION_CONFIG)
     = 90.
Proof.
  unfold projectAzimuthalEquidistant, inverseAzimuthalEquidistant.
  cbn [DEFAULT_PROJECTION_CONFIG centerAltitude maxRadius northUp eastRight
       negb proj_x proj_y x y altitude].
  replace ((90 - 90) / 90 * 1) with 0 by field.
  rewrite Ropp_0, !Rmult_0_l, Rplus_0_l, sqrt_0.
  repeat split; field.
Qed.

(** At the zenith with azimuth 90 the source hands two positive zeros to
    [Math.atan2] ([x = 0 * sin (PI / 2)] and [- y = 0 * cos (PI / 2)]
    with a positive cosine), and the inverse returns azimuth 0. *)
Lemma inverse_project_zenith_east :
  let p := projectAzimuthalEquidistant 90 90 DEFAULT_PROJECTION_CONFIG in
  inverseAzimuthalEquidistant {| x := proj_x p; y := proj_y p |}
    DEFAULT_PROJECTION_CONFIG
  = {| altitude := 90; azimuth := 0 |}.
Proof.
  unfold projectAzimuthalEquidistant, inverseAzimuthalEquidistant.
  cbn [DEFAULT_PROJECTION_CONFIG centerAltitude maxRadius northUp eastRight
       negb proj_x proj_y x y].
  replace ((90 - 90) / 90 * 1) with 0 by field.
  rewrite Ropp_0, !Rmult_0_l, Ropp_0, Rplus_0_l, sqrt_0.
  unfold atan2. js_cmp.
  replace (0 * 180 / PI) with 0 by (field; apply PI_neq0).
  js_cmp. f_equal. field.
Qed.

(** ** Error monad *)

Lemma bind_Ok_inv {A B : Type} (m : result A) (k : A -> result B) (b : B) :
  bind m k = Ok b -> exists a, m = Ok a /\ k a = Ok b.
Proof. destruct m as [a | e]; cbn; [eauto | discriminate]. Qed.

Lemma Ok_inj {A : Type} (a b : A) : Ok a = Ok b -> a = b.
Proof. now intros [= ->]. Qed.

Ltac bind_inv H :=
  let a := fresh "v" in
  let E := fresh "E" in
  apply bind_Ok_inv in H; destruct H as (a & E & H).

Lemma flatMapM_In {A B : Type} (f : A -> result (list B)) (l : list A)
    (r : list B) :
  flatMapM f l = Ok r ->
  forall b, In b r <-> exists a bs, In a l /\ f a = Ok bs /\ In b bs.
Proof.
  revert r. induction l as [| a l IH]; cbn; intros r H b.
  - injection H as <-. split; [easy | intros (a & bs & [] & _)].
  - bind_inv H. bind_inv H. injection H as <-.
    rewrite in_app_iff, (IH _ E0). split.
    + intros [Hb | (a' & bs & Ha & Hf & Hb)].
      * exists a, v. auto.
      * exists a', bs. auto.
    + intros (a' & bs & [<- | Ha] & Hf & Hb).
      * left. congruence.
      * right. eauto.
Qed.

Lemma flatMapM_defined {A B : Type} (f : A -> result (list B)) (l : list A)
    (r : list B) (a : A) :
  flatMapM f l = Ok r -> In a l -> exists bs, f a = Ok bs.
Proof.
  revert r. induction l as [| a' l IH]; cbn [flatMapM]; intros r H Ha.
  - destruct Ha.
  - bind_inv H. bind_inv H. destruct Ha as [-> | Ha]; eauto.
Qed.

Lemma flatMapM_total {A B : Type} (f : A -> result (list B)) (l : list A) :
  (forall a, In a l -> exists bs, f a = Ok bs) ->
  exists r, flatMapM f l = Ok r.
Proof.
  induction l as [| a l IH]; cbn; intros H.
  - eauto.
  - destruct (H a) as [bs Hbs]; [auto |].
    destruct IH as [r Hr]; [auto |].
    rewrite Hbs, Hr. cbn. eauto.
Qed.

Lemma flatMapM_ext {A B : Type} (f g : A -> result (list B)) (l : list A) :
  (forall a, In a l -> f a = g a) -> flatMapM f l = flatMapM g l.
Proof.
  induction l as [| a l IH]; cbn; intros H; [reflexivity |].
  rewrite (H a), IH; auto.
Qed.

(** ** The layer map *)

Lemma LayerType_eqb_eq (a b : LayerType) : LayerType_eqb a b = true <-> a = b.
Proof. destruct a, b; cbn; split; intros H; congruence. Qed.

Lemma LayerType_eqb_refl (a : LayerType) : LayerType_eqb a a = true.
Proof. now apply LayerType_eqb_eq. Qed.

Lemma LayerType_eqb_neq (a b : LayerType) : a <> b -> LayerType_eqb a b = false.
Proof.
  intros H. destruct (LayerType_eqb a b) eqn:E; [| reflexivity].
  apply LayerType_eqb_eq in E. contradiction.
Qed.

Lemma map_get_set_same (m : LayerMap) (k : LayerType) (v : RenderLayer) :
  map_get (map_set m k v) k = Some v.
Proof.
  induction m as [| [k' v'] m IH]; cbn.
  - now rewrite LayerType_eqb_refl.
  - destruct (LayerType_eqb k' k) eqn:E; cbn; rewrite E; auto.
Qed.

Lemma map_get_set_other (m : LayerMap) (k k' : LayerType) (v : RenderLayer) :
  k <> k' -> map_get (map_set m k v) k' = map_get m k'.
Proof.
  intros Hk. induction m as [| [k0 v0] m IH]; cbn.
  - now rewrite LayerType_eqb_neq.
  - destruct (LayerType_eqb k0 k) eqn:E; cbn.
    + apply LayerType_eqb_eq in E. subst k0.
      now rewrite LayerType_eqb_neq.
    + now rewrite IH.
Qed.

Lemma map_get_setIfNonEmpty_other (m : LayerMap) (k k' : LayerType)
    (prims : list RenderPrimitive) :
  k <> k' -> map_get (setIfNonEmpty m k prims) k' = map_get m k'.
Proof.
  intros Hk. unfold setIfNonEmpty.
  destruct (0 <? List.length prims)%nat; [| reflexivity].
  now apply map_get_set_other.
Qed.

Lemma map_get_setIfNonEmpty_same (m : LayerMap) (k : LayerType)
    (prims : list RenderPrimitive) :
  map_get m k = None ->
  map_get (setIfNonEmpty m k prims) k
  = match prims with [] => None | _ => Some (mkLayer k prims) end.
Proof.
  intros Hm. unfold setIfNonEmpty. destruct prims; cbn [List.length Nat.ltb Nat.leb].
  - exact Hm.
  - apply map_get_set_same.
Qed.

Lemma sameExcept_refl (k : LayerType) (m : LayerMap) : sameExcept k m m.
Proof. intros k' _. reflexivity. Qed.

Lemma sameExcept_set (k : LayerType) (m : LayerMap) (v : RenderLayer) :
  sameExcept k m (map_set m k v).
Proof. intros k' Hk. now apply map_get_set_other. Qed.

Lemma sameExcept_setIfNonEmpty (k : LayerType) (m : LayerMap)
    (prims : list RenderPrimitive) :
  sameExcept k m (setIfNonEmpty m k prims).
Proof. intros k' Hk. now apply map_get_setIfNonEmpty_other. Qed.

Create HintDb layers.

#[local] Hint Resolve sameExcept_refl sameExcept_set sameExcept_setIfNonEmpty
  : layers.

Section BuilderSteps.
Context {engine : AstronomyEngine} {host : Host}.
Variable constellationData : list Constellation.
Variables (observer : Observer) (options : RenderOptions).
Variables (center scale degreeRingInnerRadius : R).

Lemma topoContoursStep_same m :
  sameExcept layer_topo_contours m (topoContoursStep options center scale m).
Proof. unfold topoContoursStep. destruct showTopoContours; auto with layers. Qed.

Lemma starsStep_same filteredStars m :
  sameExcept layer_stars m (starsStep filteredStars m).
Proof. unfold starsStep. auto with layers. Qed.

Lemma starGlowStep_same filteredStars m :
  sameExcept layer_star_glow m (starGlowStep options filteredStars m).
Proof. unfold starGlowStep. destruct (_ || _); auto with layers. Qed.

Lemma constellationsStep_same m m' :
  constellationsStep constellationData observer options center scale
    degreeRingInnerRadius m = Ok m' ->
  sameExcept layer_constellations m m'.
Proof.
  unfold constellationsStep. destruct showConstellations; intros H.
  - bind_inv H. injection H as <-. auto with layers.
  - injection H as <-. auto with layers.
Qed.

Lemma constellationNamesStep_same m lc st :
  constellationNamesStep constellationData observer options center scale
    degreeRingInnerRadius m lc = Ok st ->
  sameExcept layer_constellation_names m (fst st).
Proof.
  unfold constellationNamesStep. destruct showConstellationNames; intros H.
  - bind_inv H. destruct placeConstellationLabels. injection H as <-.
    cbn. auto with layers.
  - injection H as <-. cbn. auto with layers.
Qed.

Lemma starNamesStep_same projectedStars m lc :
  sameExcept layer_star_names m
    (fst (starNamesStep options projectedStars center degreeRingInnerRadius
            m lc)).
Proof.
  unfold starNamesStep. destruct showStarNames.
  - destruct placeStarNames. cbn. auto with layers.
  - cbn. auto with layers.
Qed.

Lemma planetsStep_same m lc st :
  planetsStep observer options center scale degreeRingInnerRadius m lc
  = Ok st ->
  sameExcept layer_planets m (fst st).
Proof.
  unfold planetsStep. destruct showPlanets; intros H.
  - bind_inv H. destruct placePlanets. injection H as <-.
    cbn. auto with layers.
  - injection H as <-. cbn. auto with layers.
Qed.

Lemma horizonStep_same m :
  sameExcept layer_horizon m (horizonStep options center scale m).
Proof. unfold horizonStep. destruct showHorizon; auto with layers. Qed.

Lemma gridStep_same m m' :
  gridStep observer options center scale m = Ok m' ->
  sameExcept layer_grid m m'.
Proof.
  unfold gridStep. destruct showGrid; intros H.
  - bind_inv H. injection H as <-. auto with layers.
  - injection H as <-. auto with layers.
Qed.

Lemma cardinalsStep_same m lc :
  sameExcept layer_cardinals m (fst (cardinalsStep options center scale m lc)).
Proof.
  unfold cardinalsStep. destruct showCardinals.
  - destruct placeCardinals. cbn. auto with layers.
  - cbn. auto with layers.
Qed.

Lemma degreeRingStep_same m lc :
  sameExcept layer_degree_ring m
    (fst (degreeRingStep options center scale m lc)).
Proof.
  unfold degreeRingStep. destruct showDegreeRing.
  - destruct degreeRing. cbn. auto with layers.
  - cbn. auto with layers.
Qed.

Lemma metadataStep_same viewportSize m m' :
  metadataStep observer options center viewportSize m = Ok m' ->
  sameExcept layer_metadata m m'.
Proof.
  unfold metadataStep. intros H. bind_inv H. injection H as <-.
  auto with layers.
Qed.
End BuilderSteps.


Section BuildTrace.
Context {engine : AstronomyEngine} {host : Host}.
Variable constellationData : list Constellation.
Variables (stars : list CatalogStar) (observer : Observer).
Variables (options : RenderOptions) (viewportSize : R).

(** A build returns a geometry exactly when every step succeeds, and the
    geometry is then the result of the last step. *)
Lemma build_trace (g : StarMapGeometry) :
  buildStarMapGeometry constellationData stars observer options viewportSize
  = Ok g <->
  exists t,
    buildTraceOf constellationData stars observer options viewportSize t
    /\ g = geometryOfTrace stars observer viewportSize t.
Proof.
  unfold buildStarMapGeometry, buildTraceOf, geometryOfTrace. split.
  - intros H.
    bind_inv H. bind_inv H. bind_inv H.
    destruct v1 as [m5 lc5].
    destruct starNamesStep as [m6 lc6] eqn:E6.
    bind_inv H. destruct v1 as [m7 lc7].
    bind_inv H.
    destruct cardinalsStep as [m10 lc10] eqn:E10.
    destruct degreeRingStep as [m11 lc11] eqn:E11.
    bind_inv H. injection H as <-.
    exists {| tr_projected := v; tr_lines := v0; tr_names := (m5, lc5);
              tr_starNames := (m6, lc6); tr_planets := (m7, lc7);
              tr_grid := v1; tr_cardinals := (m10, lc10);
              tr_degreeRing := (m11, lc11); tr_metadata := v2 |}.
    cbn. repeat split; assumption.
  - intros (t & (E1 & E2 & E3 & E4 & E5 & E6 & E7 & E8 & E9) & ->).
    destruct t as [ps m4 [m5 lc5] [m6 lc6] [m7 lc7] m9 [m10 lc10]
                     [m11 lc11] m12].
    cbn in *.
    rewrite E1. cbn. rewrite E2. cbn. rewrite E3. cbn. rewrite E4.
    rewrite E5. cbn. rewrite E6. cbn. rewrite E7, E8, E9. reflexivity.
Qed.

Variable t : BuildTrace.
Hypothesis Ht :
  buildTraceOf constellationData stars observer options viewportSize t.

(** The steps that follow a step leave its layer alone. *)
Lemma after_planets (k : LayerType) :
  k <> layer_horizon -> k <> layer_grid -> k <> layer_cardinals ->
  k <> layer_degree_ring -> k <> layer_metadata ->
  map_get (tr_metadata t) k = map_get (fst (tr_planets t)) k.
Proof.
  intros K1 K2 K3 K4 K5.
  destruct Ht as (E1 & E2 & E3 & E4 & E5 & E6 & E7 & E8 & E9).
  rewrite (metadataStep_same _ _ _ _ _ _ E9) by congruence.
  rewrite <- E8, degreeRingStep_same by congruence.
  rewrite <- E7, cardinalsStep_same by congruence.
  rewrite (gridStep_same _ _ _ _ _ _ E6) by congruence.
  rewrite horizonStep_same by congruence.
  reflexivity.
Qed.

Lemma after_starNames (k : LayerType) :
  k <> layer_planets ->
  k <> layer_horizon -> k <> layer_grid -> k <> layer_cardinals ->
  k <> layer_degree_ring -> k <> layer_metadata ->
  map_get (tr_metadata t) k = map_get (fst (tr_starNames t)) k.
Proof.
  intros K0 K1 K2 K3 K4 K5. rewrite after_planets by assumption.
  destruct Ht as (E1 & E2 & E3 & E4 & E5 & E6 & E7 & E8 & E9).
  rewrite (planetsStep_same _ _ _ _ _ _ _ _ E5) by congruence.
  reflexivity.
Qed.

Lemma after_names (k : LayerType) :
  k <> layer_star_names -> k <> layer_planets ->
  k <> layer_horizon -> k <> layer_grid -> k <> layer_cardinals ->
  k <> layer_degree_ring -> k <> layer_metadata ->
  map_get (tr_metadata t) k = map_get (fst (tr_names t)) k.
Proof.
  intros K K0 K1 K2 K3 K4 K5. rewrite after_starNames by assumption.
  destruct Ht as (E1 & E2 & E3 & E4 & E5 & E6 & E7 & E8 & E9).
  rewrite <- E4, starNamesStep_same by congruence.
  reflexivity.
Qed.

Lemma after_lines (k : LayerType) :
  k <> layer_constellation_names ->
  k <> layer_star_names -> k <> layer_planets ->
  k <> layer_horizon -> k <> layer_grid -> k <> layer_cardinals ->
  k <> layer_degree_ring -> k <> layer_metadata ->
  map_get (tr_metadata t) k = map_get (tr_lines t) k.
Proof.
  intros K' K K0 K1 K2 K3 K4 K5. rewrite after_names by assumption.
  destruct Ht as (E1 & E2 & E3 & E4 & E5 & E6 & E7 & E8 & E9).
  rewrite (constellationNamesStep_same _ _ _ _ _ _ _ _ _ E3) by congruence.
  reflexivity.
Qed.

(** The stars layer of the result. *)
Lemma stars_layer :
  map_get (tr_metadata t) layer_stars
  = Some (mkLayer layer_stars
            (map starCircle
               (filter (insideDegreeRing (viewportSize / 2)
                          (viewportSize / 2 * 0.91 * 0.96))
                  (tr_projected t)))).
Proof.
  rewrite after_lines by discriminate.
  destruct Ht as (E1 & E2 & E3 & E4 & E5 & E6 & E7 & E8 & E9).
  rewrite (constellationsStep_same _ _ _ _ _ _ _ _ E2) by discriminate.
  rewrite starGlowStep_same by discriminate.
  apply map_get_set_same.
Qed.
End BuildTrace.

(** ** Star projection and the visibility filter *)

Section StarProjection.
Context {engine : AstronomyEngine}.
Variables (observer : Observer) (options : RenderOptions).
Variables (center scale : R).

(** The projected stars are, in catalog order, the projections of exactly
    the catalog stars that pass both visibility tests. *)
Lemma projectStars_filter (stars : list CatalogStar)
    (projectedStars : list ProjectedStar) :
  projectStars stars observer options center scale = Ok projectedStars ->
  Forall2 (projectionOf observer)
    (filter (passesVisibilityFilter observer options) stars) projectedStars.
Proof.
  revert projectedStars.
  induction stars as [| star rest IH]; cbn [projectStars filter];
    intros projectedStars H.
  - injection H as <-. constructor.
  - unfold passesVisibilityFilter at 1.
    destruct (mag star >? magnitudeLimit options); cbn [negb andb].
    + auto.
    + destruct (raDecToAltAz (ra star) (dec star) observer)
        as [coords | e] eqn:Ecoords; cbn [bind] in H; [| discriminate].
      destruct (altitude coords <=? 0); cbn [negb].
      * auto.
      * bind_inv H. injection H as <-.
        constructor; [| auto].
        unfold projectionOf. cbn. destruct coords. auto.
Qed.

Lemma projectStars_visible (stars : list CatalogStar)
    (projectedStars : list ProjectedStar) :
  projectStars stars observer options center scale = Ok projectedStars ->
  Forall (fun p => 0 < ps_altitude p
                   /\ ps_magnitude p <= magnitudeLimit options)
    projectedStars.
Proof.
  revert projectedStars.
  induction stars as [| star rest IH]; cbn [projectStars];
    intros projectedStars H.
  - injection H as <-. constructor.
  - destruct (mag star >? magnitudeLimit options) eqn:Emag; [auto |].
    bind_inv H.
    destruct (altitude v <=? 0) eqn:Ealt; [auto |].
    bind_inv H. injection H as <-.
    constructor; [| auto]. cbn.
    apply Rleb_false in Ealt. apply Rgtb_false in Emag. auto.
Qed.
End StarProjection.

(** C5.  In every geometry that [buildStarMapGeometry] returns, no star
    with computed altitude [<= 0] and no star with magnitude above
    [options.magnitudeLimit] is included: the projected stars all have
    positive altitude and magnitude within the limit; they are, in order,
    the projections of exactly the catalog stars passing both tests, so a
    star failing either test is absent from the list, from
    [metadata.visibleStarCount], and from the stars layer, whose circles
    are drawn from the projected stars only. *)
Theorem visibility_filter
    {engine : AstronomyEngine} {host : Host}
    (constellationData : list Constellation)
    (stars : list CatalogStar) (observer : Observer)
    (options : RenderOptions) (viewportSize : R) (g : StarMapGeometry) :
  buildStarMapGeometry constellationData stars observer options viewportSize
  = Ok g ->
  let center := viewportSize / 2 in
  let scale := viewportSize / 2 * 0.91 in
  exists projectedStars,
    projectStars stars observer options center scale = Ok projectedStars
    /\ Forall (fun p => 0 < ps_altitude p
                        /\ ps_magnitude p <= magnitudeLimit options)
         projectedStars
    /\ Forall2 (projectionOf observer)
         (filter (passesVisibilityFilter observer options) stars)
         projectedStars
    /\ visibleStarCount (metadata g)
       = List.length (filter (passesVisibilityFilter observer options) stars)
    /\ map_get (layers g) layer_stars
       = Some (mkLayer layer_stars
                 (map starCircle
                    (filter (insideDegreeRing center (scale * 0.96))
                       projectedStars))).
Proof.
  intros H center scale.
  apply build_trace in H. destruct H as (t & Ht & ->).
  pose proof Ht as (E1 & _).
  exists (tr_projected t).
  split; [exact E1 |].
  split; [exact (projectStars_visible _ _ _ _ _ _ E1) |].
  pose proof (projectStars_filter _ _ _ _ _ _ E1) as HF.
  split; [exact HF |].
  split.
  - cbn. symmetry. exact (Forall2_length HF).
  - cbn [layers geometryOfTrace].
    exact (stars_layer _ _ _ _ _ _ Ht).
Qed.

(** ** Constellation lines *)

Section ConstellationLines.
Context {engine : AstronomyEngine} {host : Host}.
Variable constellationData : list Constellation.
Variables (observer : Observer) (center scale : R).

Lemma constellationSegment_In (lineString : list RaDec) (i : nat)
    (segs : list RenderPrimitive) (line : RenderPrimitive) :
  constellationSegment observer center scale (scale * 0.96) lineString i
  = Ok segs ->
  In line segs <->
  exists point1 point2,
    nth_error lineString i = Some point1
    /\ nth_error lineString (i + 1) = Some point2
    /\ segmentDrawn observer center scale point1 point2 line.
Proof.
  unfold constellationSegment, segmentDrawn.
  destruct (nth_error lineString i) as [point1 |];
    [destruct (nth_error lineString (i + 1)) as [point2 |] |].
  - intros H. bind_inv H. bind_inv H.
    rename v into coord1, v0 into coord2.
    destruct (altitude coord1 >? 0) eqn:A1;
      [destruct (altitude coord2 >? 0) eqn:A2 |]; cbn [andb] in H.
    + match type of H with
      | (if ?b1 && ?b2 then _ else _) = _ =>
          destruct b1 eqn:D1; [destruct b2 eqn:D2 |]
      end; cbn [andb] in H; injection H as <-.
      * apply Rgtb_true in A1, A2. apply Rltb_true in D1, D2.
        split.
        -- intros [<- | []]. exists point1, point2.
           repeat split; try reflexivity.
           exists coord1, coord2. cbv zeta. auto 10.
        -- intros (p1 & p2 & [= <-] & [= <-] & c1 & c2 & E1 & E2 & Hs).
           rewrite E in E1. rewrite E0 in E2.
           injection E1 as <-. injection E2 as <-.
           cbv zeta in Hs. destruct Hs as (_ & _ & _ & _ & ->). now left.
      * apply Rltb_false in D2.
        split; [intros [] |].
        intros (p1 & p2 & [= <-] & [= <-] & c1 & c2 & E1 & E2 & Hs).
        rewrite E in E1. rewrite E0 in E2.
        injection E1 as <-. injection E2 as <-.
        cbv zeta in Hs. lra.
      * apply Rltb_false in D1.
        split; [intros [] |].
        intros (p1 & p2 & [= <-] & [= <-] & c1 & c2 & E1 & E2 & Hs).
        rewrite E in E1. rewrite E0 in E2.
        injection E1 as <-. injection E2 as <-.
        cbv zeta in Hs. lra.
    + injection H as <-. apply Rgtb_false in A2.
      split; [intros [] |].
      intros (p1 & p2 & [= <-] & [= <-] & c1 & c2 & E1 & E2 & Hs).
      rewrite E0 in E2. injection E2 as <-.
      cbv zeta in Hs. lra.
    + injection H as <-. apply Rgtb_false in A1.
      split; [intros [] |].
      intros (p1 & p2 & [= <-] & [= <-] & c1 & c2 & E1 & E2 & Hs).
      rewrite E in E1. injection E1 as <-.
      cbv zeta in Hs. lra.
  - intros [= <-]. split; [intros [] |].
    intros (p1 & p2 & _ & [=] & _).
  - intros [= <-]. split; [intros [] |].
    intros (p1 & p2 & [=] & _).
Qed.

(** The lines collected by the constellation loop are exactly the drawn
    segments of consecutive vertices of the polylines of the data set. *)
Lemma constellationLineStrings_In (constellationLines : list RenderPrimitive)
    (line : RenderPrimitive) :
  constellationLineStrings constellationData observer center scale
    (scale * 0.96) = Ok constellationLines ->
  In line constellationLines <->
  exists constellation lineString i point1 point2,
    In constellation constellationData
    /\ In lineString (lines constellation)
    /\ nth_error lineString i = Some point1
    /\ nth_error lineString (i + 1) = Some point2
    /\ segmentDrawn observer center scale point1 point2 line.
Proof.
  unfold constellationLineStrings. intros H.
  rewrite (flatMapM_In _ _ _ H). split.
  - intros (constellation & segs & Hc & Hsegs & Hl).
    destruct (0 <? List.length (lines constellation))%nat;
      [| injection Hsegs as <-; destruct Hl].
    rewrite (flatMapM_In _ _ _ Hsegs) in Hl.
    destruct Hl as (lineString & segs' & Hls & Hsegs' & Hl).
    rewrite (flatMapM_In _ _ _ Hsegs') in Hl.
    destruct Hl as (i & segs'' & Hi & Hseg & Hl).
    apply (constellationSegment_In _ _ _ _ Hseg) in Hl.
    destruct Hl as (point1 & point2 & H1 & H2 & Hd).
    exists constellation, lineString, i, point1, point2. auto.
  - intros (constellation & lineString & i & point1 & point2
            & Hc & Hls & H1 & H2 & Hd).
    destruct (flatMapM_defined _ _ _ _ H Hc) as (segs & Hsegs).
    exists constellation, segs. split; [exact Hc |]. split; [exact Hsegs |].
    cbv zeta in Hsegs.
    destruct (lines constellation) as [| ls0 lss] eqn:El; [destruct Hls |].
    cbn [List.length Nat.ltb Nat.leb] in Hsegs.
    rewrite (flatMapM_In _ _ _ Hsegs).
    destruct (flatMapM_defined _ _ _ _ Hsegs Hls) as (segs' & Hsegs').
    exists lineString, segs'. split; [exact Hls |]. split; [exact Hsegs' |].
    rewrite (flatMapM_In _ _ _ Hsegs').
    assert (Hi : In i (seq 0 (List.length lineString - 1))).
    { apply in_seq. assert (i + 1 < List.length lineString)%nat.
      { apply nth_error_Some. congruence. }
      lia. }
    destruct (flatMapM_defined _ _ _ _ Hsegs' Hi) as (segs'' & Hsegs'').
    exists i, segs''. split; [exact Hi |]. split; [exact Hsegs'' |].
    apply (constellationSegment_In _ _ _ _ Hsegs'').
    exists point1, point2. auto.
Qed.
End ConstellationLines.

Section EarlyLayers.
Context {engine : AstronomyEngine} {host : Host}.
Variable constellationData : list Constellation.
Variables (stars : list CatalogStar) (observer : Observer).
Variables (options : RenderOptions) (viewportSize : R).
Variable t : BuildTrace.
Hypothesis Ht :
  buildTraceOf constellationData stars observer options viewportSize t.

(** The constellations layer of the result: absent when the step is
    disabled or collected no line, and otherwise holding the collected
    lines. *)
Lemma constellations_layer :
  if showConstellations options then
    exists constellationLines,
      constellationLineStrings constellationData observer (viewportSize / 2)
        (viewportSize / 2 * 0.91) (viewportSize / 2 * 0.91 * 0.96)
      = Ok constellationLines
      /\ map_get (tr_metadata t) layer_constellations
         = match constellationLines with
           | [] => None
           | _ => Some (mkLayer layer_constellations constellationLines)
           end
  else map_get (tr_metadata t) layer_constellations = None.
Proof.
  rewrite (after_lines _ _ _ _ _ _ Ht) by discriminate.
  destruct Ht as (_ & E2 & _).
  unfold constellationsStep in E2.
  destruct (showConstellations options).
  - bind_inv E2. injection E2 as E2.
    exists v. split; [exact E |].
    rewrite <- E2. apply map_get_setIfNonEmpty_same.
    rewrite starGlowStep_same, starsStep_same, topoContoursStep_same
      by discriminate.
    reflexivity.
  - injection E2 as E2. rewrite <- E2.
    rewrite starGlowStep_same, starsStep_same, topoContoursStep_same
      by discriminate.
    reflexivity.
Qed.
End EarlyLayers.

(** C7.  For every constellation polyline and every consecutive vertex
    pair, the geometry returned by [buildStarMapGeometry] holds the line
    segment in its constellations layer if and only if the step is enabled
    and both endpoints have altitude above 0 and lie strictly inside the
    ring-exclusion radius [0.96 * scale]; the segment is emitted whole,
    as the line primitive that starts at the scaled projection of the
    first vertex and ends at that of the second, or not at all. *)
Theorem constellation_segments
    {engine : AstronomyEngine} {host : Host}
    (constellationData : list Constellation)
    (stars : list CatalogStar) (observer : Observer)
    (options : RenderOptions) (viewportSize : R) (g : StarMapGeometry) :
  buildStarMapGeometry constellationData stars observer options viewportSize
  = Ok g ->
  let center := viewportSize / 2 in
  let scale := viewportSize / 2 * 0.91 in
  forall line : RenderPrimitive,
    (exists layer,
        map_get (layers g) layer_constellations = Some layer
        /\ In line (primitives layer))
    <->
    (showConstellations options = true
     /\ exists constellation lineString i point1 point2,
         In constellation constellationData
         /\ In lineString (lines constellation)
         /\ nth_error lineString i = Some point1
         /\ nth_error lineString (i + 1) = Some point2
         /\ segmentDrawn observer center scale point1 point2 line).
Proof.
  intros H center scale line. subst center scale.
  apply build_trace in H. destruct H as (t & Ht & ->).
  cbn [layers geometryOfTrace].
  pose proof (constellations_layer _ _ _ _ _ _ Ht) as HL.
  destruct (showConstellations options).
  - destruct HL as (constellationLines & Hlines & Hget).
    rewrite Hget.
    rewrite <- (constellationLineStrings_In _ _ _ _ _ _ Hlines).
    split.
    + intros (layer & Hlayer & Hin).
      destruct constellationLines; [discriminate |].
      injection Hlayer as <-. auto.
    + intros (_ & Hin).
      destruct constellationLines as [| l0 ls]; [destruct Hin |].
      eexists. split; [reflexivity | exact Hin].
  - rewrite HL. split.
    + intros (layer & [=] & _).
    + intros ([=] & _).
Qed.

(** ** The collision detector *)

Lemma intersects_sym (a b : BoundingBox) : intersects a b = intersects b a.
Proof.
  unfold intersects.
  destruct (bb_x a + bb_width a <? bb_x b), (bb_x b + bb_width b <? bb_x a),
    (bb_y a + bb_height a <? bb_y b), (bb_y b + bb_height b <? bb_y a);
    reflexivity.
Qed.

Lemma canPlaceScan_Forall (bbox : BoundingBox) (placed : list BoundingBox) :
  canPlaceScan bbox placed = true <->
  Forall (fun p => intersects bbox p = false) placed.
Proof.
  induction placed as [| p rest IH]; cbn.
  - split; [constructor | reflexivity].
  - destruct (intersects bbox p) eqn:E.
    + split; [discriminate |]. intros H. inversion H. congruence.
    + rewrite IH. split; [now constructor | intros H; now inversion H].
Qed.

Lemma estimateBoundingBox_padding (d d' : LabelCollisionDetector)
    (px py : R) (text : string) (anchor : Anchor) (fontSize : R) :
  padding d = padding d' ->
  estimateBoundingBox d px py text anchor fontSize
  = estimateBoundingBox d' px py text anchor fontSize.
Proof. intros H. unfold estimateBoundingBox. now rewrite H. Qed.

(** The effect of [tryPlace] on a detector of padding 8: the label is
    placed exactly when its box passes the scan, and its box is then
    appended. *)
Lemma tryPlace_spec (d : LabelCollisionDetector) (px py : R) (text : string)
    (anchor : Anchor) (fontSize : R) :
  padding d = 8 ->
  let b := estimateBoundingBox (newLabelCollisionDetector 8) px py text
             anchor fontSize in
  tryPlace d px py text anchor fontSize
  = if canPlaceScan b (placedLabels d)
    then ({| placedLabels := placedLabels d ++ [b]; padding := 8 |}, true)
    else (d, false).
Proof.
  intros Hp b. unfold tryPlace, canPlace, place.
  rewrite (estimateBoundingBox_padding d (newLabelCollisionDetector 8))
    by exact Hp.
  fold b. rewrite Hp. reflexivity.
Qed.

Lemma place_spec (d : LabelCollisionDetector) (px py : R) (text : string)
    (anchor : Anchor) (fontSize : R) :
  padding d = 8 ->
  place d px py text anchor fontSize
  = {| placedLabels :=
         placedLabels d
         ++ [estimateBoundingBox (newLabelCollisionDetector 8) px py text
               anchor fontSize];
       padding := 8 |}.
Proof.
  intros Hp. unfold place.
  rewrite (estimateBoundingBox_padding d (newLabelCollisionDetector 8))
    by exact Hp.
  rewrite Hp. reflexivity.
Qed.

Lemma placedFreely_prior (prior boxes : list BoundingBox) :
  placedFreely prior boxes ->
  forall p b, In p prior -> In b boxes -> intersects b p = false.
Proof.
  revert prior. induction boxes as [| b0 rest IH]; cbn; intros prior H p b Hp Hb.
  - destruct Hb.
  - destruct H as [Hscan Hrest]. destruct Hb as [<- | Hb].
    + apply canPlaceScan_Forall in Hscan.
      rewrite Forall_forall in Hscan. auto.
    + apply (IH _ Hrest); [| exact Hb]. apply in_or_app. now left.
Qed.

(** Boxes placed one after the other through the scan are pairwise
    disjoint. *)
Lemma placedFreely_disjoint (prior boxes : list BoundingBox) :
  placedFreely prior boxes -> disjointBoxes boxes.
Proof.
  unfold disjointBoxes. revert prior.
  induction boxes as [| b rest IH]; cbn; intros prior H.
  - constructor.
  - destruct H as [_ Hrest]. constructor.
    + apply Forall_forall. intros c Hc. rewrite intersects_sym.
      apply (placedFreely_prior _ _ Hrest); [| exact Hc].
      apply in_or_app. right. now left.
    + exact (IH _ Hrest).
Qed.

Lemma placedFreely_app (prior boxes1 boxes2 : list BoundingBox) :
  placedFreely prior boxes1 ->
  placedFreely (prior ++ boxes1) boxes2 ->
  placedFreely prior (boxes1 ++ boxes2).
Proof.
  revert prior. induction boxes1 as [| b rest IH]; cbn; intros prior H1 H2.
  - now rewrite app_nil_r in H2.
  - destruct H1 as [Hs Hr]. split; [exact Hs |].
    apply IH; [exact Hr |]. now rewrite <- app_assoc.
Qed.

Lemma placementLoop_skip (fontSize : R) (d d' : LabelCollisionDetector)
    (prims : list RenderPrimitive) (prim : RenderPrimitive) :
  labelBox fontSize prim = None ->
  placementLoop fontSize d (d', prims) ->
  placementLoop fontSize d (d', prim :: prims).
Proof.
  unfold placementLoop, labelBoxes. cbn [fst snd flat_map].
  intros ->. exact (fun H => H).
Qed.

Lemma placementLoop_placed (fontSize : R) (d d' : LabelCollisionDetector)
    (prims : list RenderPrimitive) (prim : RenderPrimitive) (b : BoundingBox) :
  labelBox fontSize prim = Some b ->
  canPlaceScan b (placedLabels d) = true ->
  placementLoop fontSize
    {| placedLabels := placedLabels d ++ [b]; padding := 8 |} (d', prims) ->
  placementLoop fontSize d (d', prim :: prims).
Proof.
  unfold placementLoop, labelBoxes. cbn [fst snd flat_map placedLabels].
  intros -> Hscan (Hp & Hl & Hf). cbn [app].
  split; [exact Hp |]. split.
  - rewrite Hl, <- app_assoc. reflexivity.
  - split; assumption.
Qed.

Lemma placementLoop_nil (fontSize : R) (d : LabelCollisionDetector) :
  padding d = 8 -> placementLoop fontSize d (d, []).
Proof.
  intros Hp. unfold placementLoop. cbn. rewrite app_nil_r. auto.
Qed.

Section PlacementLoops.

Lemma placeConstellationLabels_loop (labels : list ConstellationLabel)
    (d : LabelCollisionDetector) :
  padding d = 8 -> placementLoop 11 d (placeConstellationLabels labels d).
Proof.
  revert d. induction labels as [| label rest IH]; intros d Hp;
    cbn [placeConstellationLabels].
  - now apply placementLoop_nil.
  - rewrite tryPlace_spec by exact Hp.
    destruct canPlaceScan eqn:Hscan.
    + match goal with
      | |- context [placeConstellationLabels rest ?d1] =>
          specialize (IH d1 eq_refl);
          destruct (placeConstellationLabels rest d1) as [d2 prims]
      end.
      eapply placementLoop_placed; [reflexivity | exact Hscan | exact IH].
    + specialize (IH d Hp).
      destruct (placeConstellationLabels rest d) as [d2 prims]. exact IH.
Qed.

Lemma placeStarNames_loop (brightStars : list ProjectedStar)
    (d : LabelCollisionDetector) :
  padding d = 8 -> placementLoop 9 d (placeStarNames brightStars d).
Proof.
  revert d. induction brightStars as [| star rest IH]; intros d Hp;
    cbn [placeStarNames].
  - now apply placementLoop_nil.
  - cbv zeta. rewrite tryPlace_spec by exact Hp.
    destruct canPlaceScan eqn:Hscan.
    + match goal with
      | |- context [placeStarNames rest ?d1] =>
          specialize (IH d1 eq_refl);
          destruct (placeStarNames rest d1) as [d2 prims]
      end.
      eapply placementLoop_placed; [reflexivity | exact Hscan | exact IH].
    + specialize (IH d Hp).
      destruct (placeStarNames rest d) as [d2 prims]. exact IH.
Qed.

Lemma placePlanets_loop (planetPositions : list PlanetPosition)
    (center scale degreeRingInnerRadius : R) (d : LabelCollisionDetector) :
  padding d = 8 ->
  placementLoop 9 d
    (placePlanets planetPositions center scale degreeRingInnerRadius d).
Proof.
  revert d. induction planetPositions as [| planet rest IH]; intros d Hp;
    cbn [placePlanets].
  - now apply placementLoop_nil.
  - cbv zeta. destruct (_ >=? _); [now apply IH |].
    rewrite tryPlace_spec by exact Hp.
    destruct canPlaceScan eqn:Hscan.
    + match goal with
      | |- context [placePlanets rest _ _ _ ?d1] =>
          specialize (IH d1 eq_refl);
          destruct (placePlanets rest center scale degreeRingInnerRadius d1)
            as [d2 prims]
      end.
      apply placementLoop_skip; [reflexivity |].
      eapply placementLoop_placed; [reflexivity | exact Hscan | exact IH].
    + specialize (IH d Hp).
      destruct (placePlanets rest center scale degreeRingInnerRadius d)
        as [d2 prims].
      apply placementLoop_skip; [reflexivity | exact IH].
Qed.

Lemma degreeTicks_loop (degs : list nat) (center scale : R)
    (d : LabelCollisionDetector) :
  padding d = 8 -> placementLoop 8 d (degreeTicks degs center scale d).
Proof.
  revert d. induction degs as [| deg rest IH]; intros d Hp;
    cbn [degreeTicks].
  - now apply placementLoop_nil.
  - cbv zeta. destruct (_ && _).
    + rewrite tryPlace_spec by exact Hp.
      destruct canPlaceScan eqn:Hscan.
      * match goal with
        | |- context [degreeTicks rest _ _ ?d1] =>
            specialize (IH d1 eq_refl);
            destruct (degreeTicks rest center scale d1) as [d2 prims]
        end.
        apply placementLoop_skip; [reflexivity |].
        eapply placementLoop_placed; [reflexivity | exact Hscan | exact IH].
      * specialize (IH d Hp).
        destruct (degreeTicks rest center scale d) as [d2 prims].
        apply placementLoop_skip; [reflexivity | exact IH].
    + specialize (IH d Hp).
      destruct (degreeTicks rest center scale d) as [d2 prims].
      apply placementLoop_skip; [reflexivity | exact IH].
Qed.

Lemma degreeRing_loop (center scale : R) (d : LabelCollisionDetector) :
  padding d = 8 -> placementLoop 8 d (degreeRing center scale d).
Proof.
  intros Hp. unfold degreeRing. cbv zeta.
  pose proof (degreeTicks_loop tickDegrees center scale d Hp) as H.
  destruct (degreeTicks tickDegrees center scale d) as [d2 ticks].
  unfold placementLoop in *. cbn [fst snd] in *.
  unfold labelBoxes in *. rewrite flat_map_app. cbn. rewrite app_nil_r.
  exact H.
Qed.

(** The cardinal loop places without scanning: the detector keeps padding
    8 and gains the boxes of the four labels. *)
Lemma placeCardinals_placed (cardinals : list (string * R))
    (center scale : R) (d : LabelCollisionDetector) :
  padding d = 8 ->
  let out := placeCardinals cardinals center scale d in
  padding (fst out) = 8
  /\ placedLabels (fst out) = placedLabels d ++ labelBoxes 14 (snd out).
Proof.
  revert d. induction cardinals as [| [label az] rest IH]; intros d Hp;
    cbn [placeCardinals].
  - cbn. now rewrite app_nil_r.
  - cbv zeta. rewrite place_spec by exact Hp.
    match goal with
    | |- context [placeCardinals rest _ _ ?d1] =>
        specialize (IH d1 eq_refl);
        destruct (placeCardinals rest center scale d1) as [d2 prims]
    end.
    cbn [fst snd placedLabels] in *. destruct IH as [IH1 IH2].
    split; [exact IH1 |].
    rewrite IH2. unfold labelBoxes. cbn [flat_map labelBox createText x y].
    now rewrite <- app_assoc.
Qed.
End PlacementLoops.

(** The four cardinal markers as the cardinal loop emits them. *)
Lemma placeCardinals_markers (center scale : R) (d : LabelCollisionDetector) :
  snd (placeCardinals cardinalMarkers center scale d)
  = map (fun '(label, az) =>
           createText
             (center + proj_x (projectAzimuthalEquidistant (-5) az
                                 DEFAULT_PROJECTION_CONFIG) * scale)
             (center + proj_y (projectAzimuthalEquidistant (-5) az
                                 DEFAULT_PROJECTION_CONFIG) * scale)
             label anchor_middle baseline_middle)
        cardinalMarkers.
Proof.
  unfold cardinalMarkers. cbn [placeCardinals map].
  repeat match goal with
  | |- context [let '(a, b) := ?e in _] => destruct e
  end.
  reflexivity.
Qed.

(** ** Label layers *)

Lemma setIfNonEmpty_layer (m : LayerMap) (k : LayerType)
    (prims : list RenderPrimitive) (layer : RenderLayer) :
  map_get m k = None ->
  map_get (setIfNonEmpty m k prims) k = Some layer ->
  primitives layer = prims.
Proof.
  intros Hm. rewrite map_get_setIfNonEmpty_same by exact Hm.
  destruct prims; [discriminate |]. now intros [= <-].
Qed.

Lemma map_set_layer (m : LayerMap) (k : LayerType)
    (prims : list RenderPrimitive) (layer : RenderLayer) :
  map_get (map_set m k (mkLayer k prims)) k = Some layer ->
  primitives layer = prims.
Proof. rewrite map_get_set_same. now intros [= <-]. Qed.

Section LabelSteps.
Context {engine : AstronomyEngine} {host : Host}.
Variable constellationData : list Constellation.
Variables (observer : Observer) (options : RenderOptions).
Variables (center scale degreeRingInnerRadius : R).

Lemma constellationNamesStep_labels m lc st :
  padding lc = 8 ->
  map_get m layer_constellation_names = None ->
  constellationNamesStep constellationData observer options center scale
    degreeRingInnerRadius m lc = Ok st ->
  padding (snd st) = 8
  /\ forall layer,
       map_get (fst st) layer_constellation_names = Some layer ->
       disjointBoxes (labelBoxes 11 (primitives layer)).
Proof.
  intros Hp Hm. unfold constellationNamesStep.
  destruct showConstellationNames; intros H.
  - bind_inv H.
    match type of H with
    | context [placeConstellationLabels ?ls lc] =>
        pose proof (placeConstellationLabels_loop ls lc Hp) as HL;
        destruct (placeConstellationLabels ls lc) as [lc' prims]
    end.
    injection H as <-. cbn [fst snd] in *.
    destruct HL as (Hp' & _ & Hf). split; [exact Hp' |].
    intros layer Hl. rewrite (setIfNonEmpty_layer _ _ _ _ Hm Hl).
    exact (placedFreely_disjoint _ _ Hf).
  - injection H as <-. cbn [fst snd]. split; [exact Hp |].
    intros layer Hl. congruence.
Qed.

Lemma starNamesStep_labels projectedStars m lc :
  padding lc = 8 ->
  map_get m layer_star_names = None ->
  let st := starNamesStep options projectedStars center degreeRingInnerRadius
              m lc in
  padding (snd st) = 8
  /\ forall layer,
       map_get (fst st) layer_star_names = Some layer ->
       disjointBoxes (labelBoxes 9 (primitives layer)).
Proof.
  intros Hp Hm. unfold starNamesStep.
  destruct showStarNames.
  - match goal with
    | |- context [placeStarNames ?ls lc] =>
        pose proof (placeStarNames_loop ls lc Hp) as HL;
        destruct (placeStarNames ls lc) as [lc' prims]
    end.
    cbn [fst snd] in *.
    destruct HL as (Hp' & _ & Hf). split; [exact Hp' |].
    intros layer Hl. rewrite (setIfNonEmpty_layer _ _ _ _ Hm Hl).
    exact (placedFreely_disjoint _ _ Hf).
  - cbn [fst snd]. split; [exact Hp |].
    intros layer Hl. congruence.
Qed.

Lemma planetsStep_labels m lc st :
  padding lc = 8 ->
  map_get m layer_planets = None ->
  planetsStep observer options center scale degreeRingInnerRadius m lc
  = Ok st ->
  padding (snd st) = 8
  /\ forall layer,
       map_get (fst st) layer_planets = Some layer ->
       disjointBoxes (labelBoxes 9 (primitives layer)).
Proof.
  intros Hp Hm. unfold planetsStep.
  destruct showPlanets; intros H.
  - bind_inv H.
    match type of H with
    | context [placePlanets ?ps ?c ?s ?r lc] =>
        pose proof (placePlanets_loop ps c s r lc Hp) as HL;
        destruct (placePlanets ps c s r lc) as [lc' prims]
    end.
    injection H as <-. cbn [fst snd] in *.
    destruct HL as (Hp' & _ & Hf). split; [exact Hp' |].
    intros layer Hl. rewrite (setIfNonEmpty_layer _ _ _ _ Hm Hl).
    exact (placedFreely_disjoint _ _ Hf).
  - injection H as <-. cbn [fst snd]. split; [exact Hp |].
    intros layer Hl. congruence.
Qed.

Lemma cardinalsStep_padding m lc :
  padding lc = 8 ->
  padding (snd (cardinalsStep options center scale m lc)) = 8.
Proof.
  intros Hp. unfold cardinalsStep. destruct showCardinals; [| exact Hp].
  pose proof (placeCardinals_placed cardinalMarkers center scale lc Hp) as H.
  destruct placeCardinals. cbn [fst snd] in *. tauto.
Qed.

Lemma degreeRingStep_labels m lc :
  padding lc = 8 ->
  map_get m layer_degree_ring = None ->
  let st := degreeRingStep options center scale m lc in
  forall layer,
    map_get (fst st) layer_degree_ring = Some layer ->
    disjointBoxes (labelBoxes 8 (primitives layer)).
Proof.
  intros Hp Hm. unfold degreeRingStep.
  destruct showDegreeRing.
  - pose proof (degreeRing_loop center scale lc Hp) as HL.
    destruct (degreeRing center scale lc) as [lc' prims].
    cbn [fst snd] in *.
    destruct HL as (Hp' & _ & Hf).
    intros layer Hl. rewrite (map_set_layer _ _ _ _ Hl).
    exact (placedFreely_disjoint _ _ Hf).
  - cbn [fst snd]. intros layer Hl. congruence.
Qed.
End LabelSteps.

Section LabelLayers.
Context {engine : AstronomyEngine} {host : Host}.
Variable constellationData : list Constellation.
Variables (stars : list CatalogStar) (observer : Observer).
Variables (options : RenderOptions) (viewportSize : R).
Variable t : BuildTrace.
Hypothesis Ht :
  buildTraceOf constellationData stars observer options viewportSize t.

(** Before a step runs, its layer is not in the map. *)
Lemma at_lines (k : LayerType) :
  k <> layer_topo_contours -> k <> layer_stars -> k <> layer_star_glow ->
  k <> layer_constellations ->
  map_get (tr_lines t) k = None.
Proof.
  intros K1 K2 K3 K4. destruct Ht as (_ & E2 & _).
  rewrite (constellationsStep_same _ _ _ _ _ _ _ _ E2) by congruence.
  rewrite starGlowStep_same, starsStep_same, topoContoursStep_same
    by congruence.
  reflexivity.
Qed.

Lemma at_names (k : LayerType) :
  k <> layer_topo_contours -> k <> layer_stars -> k <> layer_star_glow ->
  k <> layer_constellations -> k <> layer_constellation_names ->
  map_get (fst (tr_names t)) k = None.
Proof.
  intros K1 K2 K3 K4 K5. destruct Ht as (_ & _ & E3 & _).
  rewrite (constellationNamesStep_same _ _ _ _ _ _ _ _ _ E3) by congruence.
  now apply at_lines.
Qed.

Lemma at_starNames (k : LayerType) :
  k <> layer_topo_contours -> k <> layer_stars -> k <> layer_star_glow ->
  k <> layer_constellations -> k <> layer_constellation_names ->
  k <> layer_star_names ->
  map_get (fst (tr_starNames t)) k = None.
Proof.
  intros K1 K2 K3 K4 K5 K6. destruct Ht as (_ & _ & _ & E4 & _).
  rewrite <- E4, starNamesStep_same by congruence.
  now apply at_names.
Qed.

Lemma at_planets (k : LayerType) :
  k <> layer_topo_contours -> k <> layer_stars -> k <> layer_star_glow ->
  k <> layer_constellations -> k <> layer_constellation_names ->
  k <> layer_star_names -> k <> layer_planets ->
  map_get (fst (tr_planets t)) k = None.
Proof.
  intros K1 K2 K3 K4 K5 K6 K7. destruct Ht as (_ & _ & _ & _ & E5 & _).
  rewrite (planetsStep_same _ _ _ _ _ _ _ _ E5) by congruence.
  now apply at_starNames.
Qed.

Lemma at_cardinals (k : LayerType) :
  k <> layer_topo_contours -> k <> layer_stars -> k <> layer_star_glow ->
  k <> layer_constellations -> k <> layer_constellation_names ->
  k <> layer_star_names -> k <> layer_planets ->
  k <> layer_horizon -> k <> layer_grid -> k <> layer_cardinals ->
  map_get (fst (tr_cardinals t)) k = None.
Proof.
  intros K1 K2 K3 K4 K5 K6 K7 K8 K9 K10.
  destruct Ht as (_ & _ & _ & _ & _ & E6 & E7 & _).
  rewrite <- E7, cardinalsStep_same by congruence.
  rewrite (gridStep_same _ _ _ _ _ _ E6) by congruence.
  rewrite horizonStep_same by congruence.
  now apply at_planets.
Qed.

(** The detector keeps padding 8 through the build, and each label step
    leaves pairwise disjoint boxes in its layer. *)
Lemma names_labels :
  padding (snd (tr_names t)) = 8
  /\ forall layer,
       map_get (fst (tr_names t)) layer_constellation_names = Some layer ->
       disjointBoxes (labelBoxes 11 (primitives layer)).
Proof.
  destruct Ht as (_ & _ & E3 & _).
  eapply constellationNamesStep_labels; [| | exact E3].
  - reflexivity.
  - apply at_lines; discriminate.
Qed.

Lemma starNames_labels :
  padding (snd (tr_starNames t)) = 8
  /\ forall layer,
       map_get (fst (tr_starNames t)) layer_star_names = Some layer ->
       disjointBoxes (labelBoxes 9 (primitives layer)).
Proof.
  destruct Ht as (_ & _ & _ & E4 & _). rewrite <- E4.
  apply starNamesStep_labels; [exact (proj1 names_labels) |].
  apply at_names; discriminate.
Qed.

Lemma planets_labels :
  padding (snd (tr_planets t)) = 8
  /\ forall layer,
       map_get (fst (tr_planets t)) layer_planets = Some layer ->
       disjointBoxes (labelBoxes 9 (primitives layer)).
Proof.
  destruct Ht as (_ & _ & _ & _ & E5 & _).
  eapply planetsStep_labels; [| | exact E5].
  - exact (proj1 starNames_labels).
  - apply at_starNames; discriminate.
Qed.

Lemma degreeRing_labels (layer : RenderLayer) :
  map_get (fst (tr_degreeRing t)) layer_degree_ring = Some layer ->
  disjointBoxes (labelBoxes 8 (primitives layer)).
Proof.
  destruct Ht as (_ & _ & _ & _ & _ & _ & E7 & E8 & _).
  rewrite <- E8. apply degreeRingStep_labels.
  - rewrite <- E7. apply cardinalsStep_padding. exact (proj1 planets_labels).
  - apply at_cardinals; discriminate.
Qed.

(** In each layer whose labels go through [tryPlace], the label boxes are
    pairwise disjoint. *)
Lemma tryPlace_layers_disjoint (k : LayerType) (fontSize : R)
    (layer : RenderLayer) :
  k <> layer_cardinals ->
  priorityClassFontSize k = Some fontSize ->
  map_get (tr_metadata t) k = Some layer ->
  disjointBoxes (labelBoxes fontSize (primitives layer)).
Proof.
  intros Hk Hfont Hlayer.
  destruct k; try discriminate Hfont; try contradiction;
    injection Hfont as <-.
  - rewrite (after_names _ _ _ _ _ _ Ht) in Hlayer by discriminate.
    exact (proj2 names_labels layer Hlayer).
  - rewrite (after_starNames _ _ _ _ _ _ Ht) in Hlayer by discriminate.
    exact (proj2 starNames_labels layer Hlayer).
  - rewrite (after_planets _ _ _ _ _ _ Ht) in Hlayer by discriminate.
    exact (proj2 planets_labels layer Hlayer).
  - destruct Ht as (_ & _ & _ & _ & _ & _ & _ & _ & E9).
    rewrite (metadataStep_same _ _ _ _ _ _ E9) in Hlayer by discriminate.
    exact (degreeRing_labels layer Hlayer).
Qed.
End LabelLayers.

(** C9 (amended).  Within any single geometry built by
    [buildStarMapGeometry], no two text primitives of the same priority
    class other than the cardinal markers (constellation names, star
    names, planet labels, degree-ring labels) have intersecting estimated
    bounding boxes, the boxes being those of the collision detector:
    width = length * fontSize * 0.6, height = fontSize * 1.2, padding 8. *)
Theorem labels_do_not_overlap
    {engine : AstronomyEngine} {host : Host}
    (constellationData : list Constellation)
    (stars : list CatalogStar) (observer : Observer)
    (options : RenderOptions) (viewportSize : R) (g : StarMapGeometry)
    (k : LayerType) (fontSize : R) (layer : RenderLayer) :
  buildStarMapGeometry constellationData stars observer options viewportSize
  = Ok g ->
  k <> layer_cardinals ->
  priorityClassFontSize k = Some fontSize ->
  map_get (layers g) k = Some layer ->
  disjointBoxes (labelBoxes fontSize (primitives layer)).
Proof.
  intros H Hk Hfont Hlayer.
  apply build_trace in H. destruct H as (t & Ht & ->).
  exact (tryPlace_layers_disjoint _ _ _ _ _ _ Ht k fontSize layer
           Hk Hfont Hlayer).
Qed.

(** ** Planets *)

Section Planets.
Context {engine : AstronomyEngine}.

(** The planet loop appends, body by body, what each body contributes. *)
Lemma planetLoop_flat_map (time : AstroTime) (astroObserver : AstroObserver)
    (bodies : list PlanetBody) (planets : list PlanetPosition) :
  planetLoop time astroObserver bodies planets
  = planets ++ flat_map (planetOf time astroObserver) bodies.
Proof.
  revert planets. induction bodies as [| b rest IH]; intros planets;
    cbn [planetLoop flat_map].
  - now rewrite app_nil_r.
  - rewrite IH. unfold planetOf at 2.
    destruct (resolvePlanet time astroObserver (pb_body b)) as [hor | e];
      cbn [bind try_catch].
    + destruct (altitude hor >? 0).
      * now rewrite <- app_assoc.
      * reflexivity.
    + reflexivity.
Qed.

Lemma planetOf_above_horizon (time : AstroTime) (astroObserver : AstroObserver)
    (b : PlanetBody) (planet : PlanetPosition) :
  In planet (planetOf time astroObserver b) -> 0 < planet_altitude planet.
Proof.
  unfold planetOf.
  destruct (resolvePlanet time astroObserver (pb_body b)) as [hor | e];
    [| intros []].
  destruct (altitude hor >? 0) eqn:E; [| intros []].
  intros [<- | []]. cbn. now apply Rgtb_true in E.
Qed.

Lemma getPlanetPositions_above_horizon (observer : Observer)
    (planets : list PlanetPosition) :
  getPlanetPositions observer = Ok planets ->
  Forall (fun planet => 0 < planet_altitude planet) planets.
Proof.
  unfold getPlanetPositions. intros H. bind_inv H. bind_inv H.
  apply Ok_inj in H. subst planets.
  rewrite planetLoop_flat_map. cbn [app].
  apply Forall_forall. intros planet Hin.
  apply in_flat_map in Hin. destruct Hin as (b & _ & Hin).
  exact (planetOf_above_horizon _ _ _ _ Hin).
Qed.

(** A body whose resolution throws contributes nothing: the loop returns
    what it returns on the other bodies. *)
Lemma planetLoop_omits_failed (time : AstroTime) (astroObserver : AstroObserver)
    (body : Body) (e : exn) (bodies : list PlanetBody) :
  resolvePlanet time astroObserver body = Throw e ->
  planetLoop time astroObserver bodies []
  = planetLoop time astroObserver
      (filter (fun b => negb (Body_eqb (pb_body b) body)) bodies) [].
Proof.
  intros Hthrow. rewrite !planetLoop_flat_map. cbn [app].
  induction bodies as [| b rest IH]; cbn [flat_map filter]; [reflexivity |].
  destruct (Body_eqb (pb_body b) body) eqn:Eb; cbn [negb].
  - assert (pb_body b = body) as Hb
      by (destruct (pb_body b), body; cbn in Eb; congruence).
    unfold planetOf at 1. rewrite Hb, Hthrow. exact IH.
  - cbn [flat_map]. now rewrite IH.
Qed.
End Planets.

Section PlanetLayer.

(** Every circle of the planet loop marks one of the given positions. *)
Lemma placePlanets_circles (planetPositions : list PlanetPosition)
    (center scale degreeRingInnerRadius : R) (d : LabelCollisionDetector)
    (ctr : Point2D) (rad : R) (id : option R) :
  In (CirclePrimitive ctr rad id)
     (snd (placePlanets planetPositions center scale degreeRingInnerRadius d)) ->
  exists planet,
    In planet planetPositions
    /\ ctr = scalePoint center scale
               (projectAzimuthalEquidistant (planet_altitude planet)
                  (planet_azimuth planet) DEFAULT_PROJECTION_CONFIG).
Proof.
  revert d. induction planetPositions as [| planet rest IH]; intros d;
    cbn [placePlanets].
  - intros [].
  - cbv zeta. destruct (_ >=? _).
    + intros H. destruct (IH _ H) as (p & Hp & Hc). exists p.
      split; [now right | exact Hc].
    + destruct tryPlace as [d1 placed].
      specialize (IH d1).
      destruct (placePlanets rest center scale degreeRingInnerRadius d1)
        as [d2 prims].
      cbn [snd] in *. intros [Hc | Hin].
      * exists planet. split; [now left |].
        unfold createCircle in Hc. injection Hc as <- _ _. reflexivity.
      * assert (Hin' : In (CirclePrimitive ctr rad id) prims).
        { destruct placed; [| exact Hin].
          destruct Hin as [Ht | Hin]; [discriminate Ht | exact Hin]. }
        destruct (IH Hin') as (p & Hp & Hc). exists p.
        split; [now right | exact Hc].
Qed.
End PlanetLayer.

Section PlanetsLayer.
Context {engine : AstronomyEngine} {host : Host}.
Variable constellationData : list Constellation.
Variables (stars : list CatalogStar) (observer : Observer).
Variables (options : RenderOptions) (viewportSize : R).
Variable t : BuildTrace.
Hypothesis Ht :
  buildTraceOf constellationData stars observer options viewportSize t.

(** The planets layer of the result holds what the planet loop emitted
    for the positions the provider returned. *)
Lemma planets_layer (layer : RenderLayer) :
  map_get (tr_metadata t) layer_planets = Some layer ->
  exists planetPositions,
    getPlanetPositions observer = Ok planetPositions
    /\ primitives layer
       = snd (placePlanets planetPositions (viewportSize / 2)
                (viewportSize / 2 * 0.91) (viewportSize / 2 * 0.91 * 0.96)
                (snd (tr_starNames t))).
Proof.
  rewrite (after_planets _ _ _ _ _ _ Ht) by discriminate.
  pose proof (at_starNames _ _ _ _ _ _ Ht layer_planets) as Hnone.
  destruct Ht as (_ & _ & _ & _ & E5 & _).
  unfold planetsStep in E5. destruct (showPlanets options).
  - bind_inv E5. exists v. split; [exact E |].
    destruct placePlanets as [lc prims]. apply Ok_inj in E5.
    rewrite <- E5 in H. cbn [fst snd] in *.
    apply (setIfNonEmpty_layer _ _ _ _ (Hnone ltac:(discriminate)
             ltac:(discriminate) ltac:(discriminate) ltac:(discriminate)
             ltac:(discriminate) ltac:(discriminate)) H).
  - apply Ok_inj in E5. rewrite <- E5. cbn [fst].
    rewrite Hnone by discriminate. discriminate.
Qed.
End PlanetsLayer.

(** C10.  Every planet returned by [getPlanetPositions] has altitude
    strictly greater than 0, and every circle of the planets layer of a
    built geometry marks one of the returned planets: the layer never
    holds a marker of a planet at or below the horizon. *)
Theorem planets_above_horizon
    {engine : AstronomyEngine} {host : Host}
    (observer : Observer) (planets : list PlanetPosition) :
  getPlanetPositions observer = Ok planets ->
  Forall (fun planet => 0 < planet_altitude planet) planets
  /\ forall (constellationData : list Constellation)
       (stars : list CatalogStar) (options : RenderOptions)
       (viewportSize : R) (g : StarMapGeometry) (layer : RenderLayer)
       (ctr : Point2D) (rad : R) (id : option R),
       buildStarMapGeometry constellationData stars observer options
         viewportSize = Ok g ->
       map_get (layers g) layer_planets = Some layer ->
       In (CirclePrimitive ctr rad id) (primitives layer) ->
       exists planet,
         In planet planets
         /\ 0 < planet_altitude planet
         /\ ctr = scalePoint (viewportSize / 2) (viewportSize / 2 * 0.91)
                    (projectAzimuthalEquidistant (planet_altitude planet)
                       (planet_azimuth planet) DEFAULT_PROJECTION_CONFIG).
Proof.
  intros Hplanets.
  pose proof (getPlanetPositions_above_horizon _ _ Hplanets) as Habove.
  split; [exact Habove |].
  intros constellationData stars options viewportSize g layer ctr rad id
    Hbuild Hlayer Hin.
  apply build_trace in Hbuild. destruct Hbuild as (t & Ht & ->).
  cbn [layers geometryOfTrace] in Hlayer.
  destruct (planets_layer _ _ _ _ _ _ Ht layer Hlayer)
    as (planetPositions & Hget & Hprims).
  rewrite Hplanets in Hget. apply Ok_inj in Hget. subst planetPositions.
  rewrite Hprims in Hin.
  destruct (placePlanets_circles _ _ _ _ _ _ _ _ Hin) as (planet & Hp & Hc).
  exists planet. split; [exact Hp |]. split; [| exact Hc].
  rewrite Forall_forall in Habove. auto.
Qed.

(** ** Builds that return *)

Section BuildReturns.
Context {engine : AstronomyEngine} {host : Host}.
Variable constellationData : list Constellation.
Variable observer : Observer.

(** The engine resolves every fixed point of the sky for this observer. *)
Hypothesis sky_resolves :
  forall ra dec, exists coords, raDecToAltAz ra dec observer = Ok coords.

Ltac resolve_sky :=
  match goal with
  | |- context [raDecToAltAz ?ra ?dec observer] =>
      let c := fresh "coords" in
      let E := fresh "Ecoords" in
      destruct (sky_resolves ra dec) as [c E]; rewrite E; cbn [bind]
  end.

Lemma projectStars_returns stars options center scale :
  exists projectedStars,
    projectStars stars observer options center scale = Ok projectedStars.
Proof.
  induction stars as [| star rest [ps IH]]; cbn [projectStars]; [eauto |].
  destruct (mag star >? magnitudeLimit options); [eauto |].
  resolve_sky. destruct (altitude coords <=? 0); [eauto |].
  rewrite IH. cbn [bind]. eauto.
Qed.

Lemma constellationLineStrings_returns center scale degreeRingInnerRadius :
  exists constellationLines,
    constellationLineStrings constellationData observer center scale
      degreeRingInnerRadius = Ok constellationLines.
Proof.
  unfold constellationLineStrings.
  apply flatMapM_total. intros constellation _. cbv zeta.
  destruct (0 <? _)%nat; [| eauto].
  apply flatMapM_total. intros lineString _.
  apply flatMapM_total. intros i _.
  unfold constellationSegment.
  destruct (nth_error lineString i) as [point1 |]; [| eauto].
  destruct (nth_error lineString (i + 1)) as [point2 |]; [| eauto].
  resolve_sky. resolve_sky.
  destruct (_ && _); [| eauto]. cbv zeta.
  destruct (_ && _); eauto.
Qed.

Lemma collectConstellationLabels_returns center scale degreeRingInnerRadius :
  exists constellationLabels,
    collectConstellationLabels constellationData observer center scale
      degreeRingInnerRadius = Ok constellationLabels.
Proof.
  unfold collectConstellationLabels.
  apply flatMapM_total. intros constellation _. cbv zeta.
  destruct (0 <? _)%nat; [| eauto].
  assert (Hv : exists visiblePoints,
             visiblePointsOf observer center scale (lines constellation)
             = Ok visiblePoints).
  { unfold visiblePointsOf.
    apply flatMapM_total. intros lineString _.
    apply flatMapM_total. intros point _.
    resolve_sky. destruct (altitude coords >? 0); eauto. }
  destruct Hv as [visiblePoints ->]. cbn [bind].
  destruct (2 <=? _)%nat; [| eauto].
  destruct (_ <? _); eauto.
Qed.

Lemma getPlanetPositions_returns :
  exists planets, getPlanetPositions observer = Ok planets.
Proof.
  destruct (sky_resolves 0 0) as [coords H].
  unfold raDecToAltAz in H. bind_inv H. bind_inv H.
  unfold getPlanetPositions. rewrite E, E0. cbn [bind]. eauto.
Qed.

Lemma gridPoint_returns center scale ra dec :
  exists points, gridPoint observer center scale ra dec = Ok points.
Proof.
  unfold gridPoint. resolve_sky. destruct (altitude coords >? -5); eauto.
Qed.

Lemma gridPrimitivesOf_returns center scale :
  exists gridPrimitives,
    gridPrimitivesOf observer center scale = Ok gridPrimitives.
Proof.
  unfold gridPrimitivesOf. resolve_sky. cbv zeta.
  destruct (altitude coords >? 0); [| eauto].
  assert (Hc : exists circles,
             declinationCircles observer center scale = Ok circles).
  { unfold declinationCircles. cbv zeta.
    apply flatMapM_total. intros dec _.
    match goal with
    | |- context [flatMapM ?f ?l] =>
        destruct (flatMapM_total f l) as [points ->]
    end.
    - intros i _. apply gridPoint_returns.
    - cbn [bind]. eauto. }
  assert (Hm : exists meridians,
             rightAscensionLines observer center scale = Ok meridians).
  { unfold rightAscensionLines.
    apply flatMapM_total. intros k _. cbv zeta.
    match goal with
    | |- context [flatMapM ?f ?l] =>
        destruct (flatMapM_total f l) as [points ->]
    end.
    - intros j _. apply gridPoint_returns.
    - cbn [bind]. eauto. }
  destruct Hc as [circles ->]. destruct Hm as [meridians ->].
  cbn [bind]. eauto.
Qed.

(** When the engine resolves every point of the sky for the observer, and
    the date is valid if it is to be printed, the build returns a
    geometry, whatever happens while resolving the planets. *)
Lemma build_returns stars options viewportSize :
  (showMapDate options = true -> date observer <> None) ->
  exists g,
    buildStarMapGeometry constellationData stars observer options viewportSize
    = Ok g.
Proof.
  intros Hdate. unfold buildStarMapGeometry. cbv zeta.
  match goal with
  | |- context [projectStars ?s ?o ?op ?c ?sc] =>
      destruct (projectStars_returns s op c sc) as [projectedStars ->]
  end.
  cbn [bind].
  unfold constellationsStep.
  match goal with
  | |- context [constellationLineStrings _ _ ?c ?s ?r] =>
      destruct (constellationLineStrings_returns c s r) as [cl Hcl]
  end.
  destruct (showConstellations options); [rewrite Hcl |]; cbn [bind].
  all: unfold constellationNamesStep;
    match goal with
    | |- context [collectConstellationLabels _ _ ?c ?s ?r] =>
        destruct (collectConstellationLabels_returns c s r) as [labels Hlabels]
    end;
    destruct (showConstellationNames options);
    [rewrite Hlabels; cbn [bind]; destruct placeConstellationLabels |];
    cbn [bind].
  all: destruct starNamesStep as [m6 lc6].
  all: unfold planetsStep;
    destruct getPlanetPositions_returns as [planets Hplanets];
    destruct (showPlanets options);
    [rewrite Hplanets; cbn [bind]; destruct placePlanets |]; cbn [bind].
  all: unfold gridStep;
    match goal with
    | |- context [gridPrimitivesOf _ ?c ?s] =>
        destruct (gridPrimitivesOf_returns c s) as [gp Hgp]
    end;
    destruct (showGrid options); [rewrite Hgp |]; cbn [bind].
  all: destruct cardinalsStep as [m10 lc10];
    destruct degreeRingStep as [m11 lc11].
  all: unfold metadataStep, metadataTexts, formatDateTime; cbv zeta;
    destruct (showMapDate options);
    [destruct (date observer); [| now specialize (Hdate eq_refl)] |];
    cbn [bind]; eauto.
Qed.
End BuildReturns.

(** ** Observer validation *)

(** [validateObserver] reports an observer as invalid exactly when one of
    its four range checks fails. *)
Lemma validateObserver_valid (observer : Observer) :
  valid (validateObserver observer) = true <->
  (-90 <= latitude observer <= 90
   /\ -180 <= longitude observer <= 180
   /\ -500 <= elevation observer <= 10000
   /\ date observer <> None).
Proof.
  unfold validateObserver. cbv zeta.
  destruct (latitude observer <? -90) eqn:L1;
    destruct (latitude observer >? 90) eqn:L2;
    destruct (longitude observer <? -180) eqn:L3;
    destruct (longitude observer >? 180) eqn:L4;
    destruct (elevation observer <? -500) eqn:L5;
    destruct (elevation observer >? 10000) eqn:L6;
    destruct (date observer) as [ms |];
    cbn [orb app List.length Nat.eqb valid];
    repeat match goal with
    | H : (_ <? _) = true |- _ => apply Rltb_true in H
    | H : (_ <? _) = false |- _ => apply Rltb_false in H
    | H : (_ >? _) = true |- _ => apply Rgtb_true in H
    | H : (_ >? _) = false |- _ => apply Rgtb_false in H
    end;
    (split; [try discriminate | intros (? & ? & ? & ?)]);
    try reflexivity; try lra; try congruence.
  intros _. repeat split; try lra. discriminate.
Qed.

Lemma validateObserver_errors (observer : Observer) :
  valid (validateObserver observer) = false ->
  errors (validateObserver observer) <> [].
Proof.
  unfold validateObserver. cbv zeta. cbn [valid errors].
  intros H E. rewrite E in H. discriminate.
Qed.

(** ** The engine is asked about the observer as given *)

Lemma Reqb_refl (a : R) : Reqb a a = true.
Proof. unfold Reqb. destruct (Req_EM_T a a); congruence. Qed.

Lemma Date_eqb_refl (d : Date) : Date_eqb d d = true.
Proof. destruct d; cbn; [apply Z.eqb_refl | reflexivity]. Qed.

Section SameAnswers.
Context {host : Host}.
Variables engine1 engine2 : AstronomyEngine.
Variable constellationData : list Constellation.
Variable observer : Observer.

Hypothesis same_sky :
  forall ra dec,
    raDecToAltAz (engine := engine1) ra dec observer
    = raDecToAltAz (engine := engine2) ra dec observer.
Hypothesis same_planets :
  getPlanetPositions (engine := engine1) observer
  = getPlanetPositions (engine := engine2) observer.

Lemma projectStars_same stars options center scale :
  projectStars (engine := engine1) stars observer options center scale
  = projectStars (engine := engine2) stars observer options center scale.
Proof.
  induction stars as [| star rest IH]; cbn [projectStars]; [reflexivity |].
  now rewrite same_sky, IH.
Qed.

Lemma constellationLineStrings_same center scale degreeRingInnerRadius :
  constellationLineStrings (engine := engine1) constellationData observer
    center scale degreeRingInnerRadius
  = constellationLineStrings (engine := engine2) constellationData observer
      center scale degreeRingInnerRadius.
Proof.
  unfold constellationLineStrings.
  apply flatMapM_ext. intros constellation _. cbv zeta.
  destruct (0 <? _)%nat; [| reflexivity].
  apply flatMapM_ext. intros lineString _.
  apply flatMapM_ext. intros i _.
  unfold constellationSegment.
  destruct (nth_error lineString i); [| reflexivity].
  destruct (nth_error lineString (i + 1)); [| reflexivity].
  now rewrite !same_sky.
Qed.

Lemma collectConstellationLabels_same center scale degreeRingInnerRadius :
  collectConstellationLabels (engine := engine1) constellationData observer
    center scale degreeRingInnerRadius
  = collectConstellationLabels (engine := engine2) constellationData observer
      center scale degreeRingInnerRadius.
Proof.
  unfold collectConstellationLabels.
  apply flatMapM_ext. intros constellation _. cbv zeta.
  destruct (0 <? _)%nat; [| reflexivity].
  replace (visiblePointsOf (engine := engine1) observer center scale
             (lines constellation))
    with (visiblePointsOf (engine := engine2) observer center scale
            (lines constellation)); [reflexivity |].
  unfold visiblePointsOf.
  apply flatMapM_ext. intros lineString _.
  apply flatMapM_ext. intros point _.
  now rewrite same_sky.
Qed.

Lemma gridPrimitivesOf_same center scale :
  gridPrimitivesOf (engine := engine1) observer center scale
  = gridPrimitivesOf (engine := engine2) observer center scale.
Proof.
  assert (Hpoint : forall ra dec,
             gridPoint (engine := engine1) observer center scale ra dec
             = gridPoint (engine := engine2) observer center scale ra dec).
  { intros ra dec. unfold gridPoint. now rewrite same_sky. }
  unfold gridPrimitivesOf. rewrite same_sky.
  replace (declinationCircles (engine := engine1) observer center scale)
    with (declinationCircles (engine := engine2) observer center scale).
  replace (rightAscensionLines (engine := engine1) observer center scale)
    with (rightAscensionLines (engine := engine2) observer center scale).
  - reflexivity.
  - unfold rightAscensionLines.
    apply flatMapM_ext. intros k _. cbv zeta.
    f_equal. apply flatMapM_ext. intros j _. now rewrite Hpoint.
  - unfold declinationCircles. cbv zeta.
    apply flatMapM_ext. intros dec _.
    f_equal. apply flatMapM_ext. intros i _. now rewrite Hpoint.
Qed.

(** Two engines that give the same answers about this observer give the
    same build. *)
Lemma build_same_answers stars options viewportSize :
  buildStarMapGeometry (engine := engine1) constellationData stars observer
    options viewportSize
  = buildStarMapGeometry (engine := engine2) constellationData stars observer
      options viewportSize.
Proof.
  unfold buildStarMapGeometry, constellationsStep, constellationNamesStep,
    planetsStep, gridStep.
  rewrite projectStars_same.
  repeat match goal with
  | |- context [constellationLineStrings (engine := engine1) _ _ ?c ?s ?r] =>
      rewrite (constellationLineStrings_same c s r)
  | |- context [collectConstellationLabels (engine := engine1) _ _ ?c ?s ?r] =>
      rewrite (collectConstellationLabels_same c s r)
  | |- context [gridPrimitivesOf (engine := engine1) _ ?c ?s] =>
      rewrite (gridPrimitivesOf_same c s)
  end.
  rewrite same_planets.
  reflexivity.
Qed.
End SameAnswers.

Lemma raDecToAltAz_engineFor (engine : AstronomyEngine) (observer : Observer)
    (ra dec : R) :
  raDecToAltAz (engine := engineFor engine observer) ra dec observer
  = raDecToAltAz (engine := engine) ra dec observer.
Proof.
  unfold raDecToAltAz.
  cbn [engineFor newAstroObserver MakeTime Horizon AstroObserver AstroTime].
  now rewrite !Reqb_refl, Date_eqb_refl.
Qed.

Lemma getPlanetPositions_engineFor (engine : AstronomyEngine)
    (observer : Observer) :
  getPlanetPositions (engine := engineFor engine observer) observer
  = getPlanetPositions (engine := engine) observer.
Proof.
  unfold getPlanetPositions.
  cbn [engineFor newAstroObserver MakeTime AstroObserver AstroTime].
  now rewrite !Reqb_refl, Date_eqb_refl.
Qed.

(** C3 (amended).  [buildStarMapGeometry] does not validate the observer
    and never clamps it.  The ephemeris engine is only ever asked about
    the observer's own latitude, longitude, elevation and instant, so that
    an engine throwing for any other value leaves the build unchanged; the
    metadata of a returned geometry carry the observer's own instant and
    location; and the build itself never rejects the observer: whenever
    the engine answers for this observer and the date, if it is to be
    printed, is valid, the build returns a geometry, so that a rejection
    can only come from the engine or from formatting an invalid date.  The
    range check is [validateObserver], which reports a latitude outside
    [[-90, 90]], a longitude outside [[-180, 180]] or an invalid instant by
    [valid = false] and a non-empty list of error messages. *)
Theorem observer_not_clamped
    {engine : AstronomyEngine} {host : Host} (observer : Observer) :
  (latitude observer < -90 \/ 90 < latitude observer
   \/ longitude observer < -180 \/ 180 < longitude observer
   \/ date observer = None) ->
  (valid (validateObserver observer) = false
   /\ errors (validateObserver observer) <> [])
  /\ forall (constellationData : list Constellation)
       (stars : list CatalogStar) (options : RenderOptions)
       (viewportSize : R),
       buildStarMapGeometry (engine := engineFor engine observer)
         constellationData stars observer options viewportSize
       = buildStarMapGeometry (engine := engine)
           constellationData stars observer options viewportSize
       /\ (forall g,
             buildStarMapGeometry (engine := engine)
               constellationData stars observer options viewportSize = Ok g ->
             timestamp (metadata g) = date observer
             /\ location (metadata g) = formatLocation observer)
       /\ ((forall ra dec,
              exists coords, raDecToAltAz ra dec observer = Ok coords) ->
           (showMapDate options = true -> date observer <> None) ->
           exists g,
             buildStarMapGeometry (engine := engine)
               constellationData stars observer options viewportSize
             = Ok g).
Proof.
  intros Hrange. split.
  - assert (Hv : valid (validateObserver observer) = false).
    { destruct (valid (validateObserver observer)) eqn:E; [| reflexivity].
      apply validateObserver_valid in E.
      destruct E as (? & ? & ? & ?).
      destruct Hrange as [? | [? | [? | [? | ?]]]]; try lra; contradiction. }
    split; [exact Hv | exact (validateObserver_errors _ Hv)].
  - intros constellationData stars options viewportSize.
    split; [| split].
    + apply build_same_answers.
      * intros ra dec. apply raDecToAltAz_engineFor.
      * apply getPlanetPositions_engineFor.
    + intros g Hg. apply build_trace in Hg. destruct Hg as (t & _ & ->).
      cbn. auto.
    + intros Hsky Hdate. now apply build_returns.
Qed.

(** ** Only the stars layer can be empty *)

Lemma map_get_set_cases (m : LayerMap) (k k' : LayerType) (v : RenderLayer) :
  map_get (map_set m k v) k'
  = if LayerType_eqb k k' then Some v else map_get m k'.
Proof.
  destruct (LayerType_eqb k k') eqn:E.
  - apply LayerType_eqb_eq in E. subst k'. apply map_get_set_same.
  - apply map_get_set_other. intros ->.
    now rewrite LayerType_eqb_refl in E.
Qed.

Lemma nonEmpty_nil : nonEmptyExceptStars [].
Proof. intros k layer H. discriminate H. Qed.

Lemma nonEmpty_set (m : LayerMap) (k : LayerType)
    (prims : list RenderPrimitive) :
  nonEmptyExceptStars m -> prims <> [] ->
  nonEmptyExceptStars (map_set m k (mkLayer k prims)).
Proof.
  intros Hm Hp k' layer. rewrite map_get_set_cases.
  destruct (LayerType_eqb k k'); [| apply Hm].
  intros [= <-] _. exact Hp.
Qed.

Lemma nonEmpty_set_stars (m : LayerMap) (v : RenderLayer) :
  nonEmptyExceptStars m -> nonEmptyExceptStars (map_set m layer_stars v).
Proof.
  intros Hm k' layer. rewrite map_get_set_cases.
  destruct (LayerType_eqb layer_stars k') eqn:E; [| apply Hm].
  apply LayerType_eqb_eq in E. subst k'. intros _ H. now contradiction H.
Qed.

Lemma nonEmpty_setIfNonEmpty (m : LayerMap) (k : LayerType)
    (prims : list RenderPrimitive) :
  nonEmptyExceptStars m -> nonEmptyExceptStars (setIfNonEmpty m k prims).
Proof.
  intros Hm. unfold setIfNonEmpty. destruct prims as [| p prims].
  - exact Hm.
  - apply nonEmpty_set; [exact Hm | discriminate].
Qed.

#[local] Hint Resolve nonEmpty_nil nonEmpty_set nonEmpty_set_stars
  nonEmpty_setIfNonEmpty : layers.

Section NonEmptyLayers.
Context {engine : AstronomyEngine}.
Variables (observer : Observer) (center scale : R).

Lemma gridPrimitivesOf_nonempty (gridPrimitives : list RenderPrimitive) :
  gridPrimitivesOf observer center scale = Ok gridPrimitives ->
  gridPrimitives <> [].
Proof.
  unfold gridPrimitivesOf. intros H. bind_inv H. cbv zeta in H.
  destruct (altitude v >? 0).
  - bind_inv H. bind_inv H. apply Ok_inj in H. subst gridPrimitives.
    intros Hnil. apply app_eq_nil in Hnil. destruct Hnil as [_ Hnil].
    apply app_eq_nil in Hnil. destruct Hnil as [_ Hnil]. discriminate.
  - apply Ok_inj in H. subst gridPrimitives. cbn [map app]. discriminate.
Qed.

Lemma placeCardinals_nonempty (d : LabelCollisionDetector) :
  snd (placeCardinals cardinalMarkers center scale d) <> [].
Proof. rewrite placeCardinals_markers. cbn. discriminate. Qed.

Lemma degreeRing_nonempty (d : LabelCollisionDetector) :
  snd (degreeRing center scale d) <> [].
Proof.
  unfold degreeRing. cbv zeta. destruct degreeTicks as [lc ticks].
  cbn [snd]. intros Hnil. apply app_eq_nil in Hnil.
  destruct Hnil as [_ Hnil]. discriminate.
Qed.

End NonEmptyLayers.

(** Every step of the build keeps the invariant. *)
Lemma steps_keep_nonEmpty
    {engine : AstronomyEngine} {host : Host}
    (constellationData : list Constellation)
    (stars : list CatalogStar) (observer : Observer)
    (options : RenderOptions) (viewportSize : R) (t : BuildTrace) :
  buildTraceOf constellationData stars observer options viewportSize t ->
  nonEmptyExceptStars (tr_metadata t).
Proof.
  intros (_ & E2 & E3 & E4 & E5 & E6 & E7 & E8 & E9).
  assert (H2 : nonEmptyExceptStars (tr_lines t)).
  { unfold constellationsStep in E2.
    match type of E2 with
    | context [starGlowStep ?o ?f (starsStep ?f (topoContoursStep ?o ?c ?s []))] =>
        assert (H0 : nonEmptyExceptStars
                       (starGlowStep o f (starsStep f (topoContoursStep o c s []))))
    end.
    { unfold starGlowStep, starsStep, topoContoursStep.
      destruct (_ || _); destruct showTopoContours;
        repeat first [ apply nonEmpty_setIfNonEmpty
                     | apply nonEmpty_set_stars
                     | apply nonEmpty_set
                     | apply nonEmpty_nil ];
        cbn; discriminate. }
    destruct showConstellations.
    - bind_inv E2. apply Ok_inj in E2. rewrite <- E2. auto with layers.
    - apply Ok_inj in E2. now rewrite <- E2. }
  assert (H3 : nonEmptyExceptStars (fst (tr_names t))).
  { unfold constellationNamesStep in E3. destruct showConstellationNames.
    - bind_inv E3. destruct placeConstellationLabels.
      apply Ok_inj in E3. rewrite <- E3. cbn [fst]. auto with layers.
    - apply Ok_inj in E3. now rewrite <- E3. }
  assert (H4 : nonEmptyExceptStars (fst (tr_starNames t))).
  { rewrite <- E4. unfold starNamesStep. destruct showStarNames.
    - destruct placeStarNames. cbn [fst]. auto with layers.
    - exact H3. }
  assert (H5 : nonEmptyExceptStars (fst (tr_planets t))).
  { unfold planetsStep in E5. destruct showPlanets.
    - bind_inv E5. destruct placePlanets.
      apply Ok_inj in E5. rewrite <- E5. cbn [fst]. auto with layers.
    - apply Ok_inj in E5. now rewrite <- E5. }
  assert (H6 : nonEmptyExceptStars (tr_grid t)).
  { unfold gridStep, horizonStep in E6.
    match type of E6 with
    | (if _ then _ <- _ ;; Ok (map_set ?m _ _) else _) = _ =>
        assert (H0 : nonEmptyExceptStars m)
    end.
    { destruct showHorizon; [| exact H5].
      apply nonEmpty_set; [exact H5 | discriminate]. }
    destruct showGrid.
    - bind_inv E6. apply Ok_inj in E6. rewrite <- E6.
      apply nonEmpty_set; [exact H0 |].
      exact (gridPrimitivesOf_nonempty _ _ _ _ E).
    - apply Ok_inj in E6. now rewrite <- E6. }
  assert (H7 : nonEmptyExceptStars (fst (tr_cardinals t))).
  { rewrite <- E7. unfold cardinalsStep. destruct showCardinals; [| exact H6].
    match goal with
    | |- context [placeCardinals cardinalMarkers ?c ?s ?d] =>
        pose proof (placeCardinals_nonempty c s d) as Hne;
        destruct (placeCardinals cardinalMarkers c s d)
    end.
    cbn [fst snd] in *. now apply nonEmpty_set. }
  assert (H8 : nonEmptyExceptStars (fst (tr_degreeRing t))).
  { rewrite <- E8. unfold degreeRingStep.
    destruct showDegreeRing; [| exact H7].
    match goal with
    | |- context [degreeRing ?c ?s ?d] =>
        pose proof (degreeRing_nonempty c s d) as Hne;
        destruct (degreeRing c s d)
    end.
    cbn [fst snd] in *. now apply nonEmpty_set. }
  unfold metadataStep in E9. bind_inv E9. apply Ok_inj in E9.
  rewrite <- E9. auto with layers.
Qed.

(** In every geometry that the builder returns, every layer other than
    ['stars'] holds at least one primitive. *)
Lemma only_stars_layer_can_be_empty
    {engine : AstronomyEngine} {host : Host}
    (constellationData : list Constellation)
    (stars : list CatalogStar) (observer : Observer)
    (options : RenderOptions) (viewportSize : R) (g : StarMapGeometry)
    (k : LayerType) (layer : RenderLayer) :
  buildStarMapGeometry constellationData stars observer options viewportSize
  = Ok g ->
  map_get (layers g) k = Some layer ->
  k <> layer_stars ->
  primitives layer <> [].
Proof.
  intros H. apply build_trace in H. destruct H as (t & Ht & ->).
  exact (steps_keep_nonEmpty _ _ _ _ _ _ Ht k layer).
Qed.

(** ** Builds on example data *)

(** Unfold the steps of the builder and decide the option tests of a
    concrete options record. *)
Ltac build_steps :=
  unfold buildStarMapGeometry, topoContoursStep, starsStep, starGlowStep,
    constellationsStep, constellationNamesStep, starNamesStep, planetsStep,
    horizonStep, gridStep, cardinalsStep, degreeRingStep, metadataStep,
    metadataTexts, setIfNonEmpty;
  cbn [noLayers cardinalsOnly namesAndCardinals
       magnitudeLimit starSizeMin starSizeMax
       showTopoContours showConstellations showConstellationNames
       showStarNames showPlanets showHorizon showGrid showCardinals
       showDegreeRing showMapCoordinates showMapDate starStyle
       StarStyle_eqb orb].

Ltac layers_eval :=
  cbn [bind filter map map_set map_get LayerType_eqb
       List.length Nat.ltb Nat.leb fst snd app].

(** With an empty catalog and every optional step disabled, no engine call
    is made and the build returns a geometry with the stars layer only. *)
Lemma build_without_layers
    {engine : AstronomyEngine} {host : Host}
    (constellationData : list Constellation) (observer : Observer)
    (viewportSize : R) :
  exists g,
    buildStarMapGeometry constellationData [] observer noLayers viewportSize
    = Ok g
    /\ layers g = [(layer_stars, mkLayer layer_stars [])].
Proof.
  build_steps. cbn [projectStars]. layers_eval.
  eexists. split; reflexivity.
Qed.

(** C4, on an empty catalog.  The property that every layer of the
    returned map has a non-empty primitives list fails for the stars
    layer: with an empty catalog and every optional step disabled, the
    geometry returned by [buildStarMapGeometry] holds the layer ['stars']
    with an empty primitives list, because the star step sets its layer
    without the [length > 0] guard of the other steps
    ([only_stars_layer_can_be_empty] below shows that no other layer can
    be empty). *)
Theorem stars_layer_can_be_empty
    {engine : AstronomyEngine} {host : Host}
    (constellationData : list Constellation) (observer : Observer)
    (viewportSize : R) :
  exists g layer,
    buildStarMapGeometry constellationData [] observer noLayers viewportSize
    = Ok g
    /\ map_get (layers g) layer_stars = Some layer
    /\ primitives layer = [].
Proof.
  destruct (build_without_layers constellationData observer viewportSize)
    as (g & Hg & Hl).
  exists g, (mkLayer layer_stars []).
  split; [exact Hg |]. rewrite Hl. split; reflexivity.
Qed.

(** C3, counterexample.  An observer at latitude 91 is not rejected: with
    an empty catalog and every optional step disabled the build returns a
    geometry, although the engine would throw for this latitude if it
    were asked. *)
Lemma out_of_range_observer_not_rejected :
  90 < latitude beyondThePole
  /\ (exists e, newAstroObserver (AstronomyEngine := toyEngine)
                  (latitude beyondThePole) (longitude beyondThePole)
                  (elevation beyondThePole) = Throw e)
  /\ exists g,
       buildStarMapGeometry (engine := toyEngine) (host := stubHost)
         [] [] beyondThePole noLayers 500 = Ok g.
Proof.
  split; [cbn; lra |]. split.
  - cbn [toyEngine newAstroObserver beyondThePole latitude longitude elevation].
    js_cmp. cbn. eauto.
  - destruct (build_without_layers (engine := toyEngine)
                (host := stubHost) [] beyondThePole 500) as (g & Hg & _).
    eauto.
Qed.

(** Bounds on the projected point of a cardinal marker. *)
Lemma cardinal_projection_bounds (az : R) :
  let p := projectAzimuthalEquidistant (-5) az DEFAULT_PROJECTION_CONFIG in
  -2 <= proj_x p <= 2 /\ -2 <= proj_y p <= 2.
Proof.
  unfold projectAzimuthalEquidistant.
  cbn [DEFAULT_PROJECTION_CONFIG centerAltitude maxRadius northUp eastRight
       negb proj_x proj_y].
  pose proof (SIN_bound (az * PI / 180)) as Hs.
  pose proof (COS_bound (az * PI / 180)) as Hc.
  split; lra.
Qed.

Lemma disjointBoxes_first_two (a b : BoundingBox) (l : list BoundingBox) :
  disjointBoxes (a :: b :: l) -> intersects a b = false.
Proof.
  intros H. inversion H as [| a' l' Ha _]. now inversion Ha.
Qed.

(** C9, counterexample.  On a viewport of size 1 (the default value of
    the parameter) with only the cardinal markers enabled, the boxes of
    the four cardinal labels, which are placed without a scan, are not
    pairwise disjoint: the boxes of N and E intersect. *)
Lemma cardinal_labels_overlap :
  exists g layer,
    buildStarMapGeometry (engine := toyEngine) (host := stubHost)
      [] [] greenwich cardinalsOnly 1 = Ok g
    /\ priorityClassFontSize layer_cardinals = Some 14
    /\ map_get (layers g) layer_cardinals = Some layer
    /\ ~ disjointBoxes (labelBoxes 14 (primitives layer)).
Proof.
  build_steps. cbn [projectStars]. layers_eval.
  pose proof (placeCardinals_markers (1 / 2) (1 / 2 * 0.91)
                (newLabelCollisionDetector 8)) as Hm.
  destruct (placeCardinals cardinalMarkers (1 / 2) (1 / 2 * 0.91)
              (newLabelCollisionDetector 8)) as [lc prims].
  cbn [snd] in Hm. subst prims. layers_eval.
  eexists. eexists. split; [reflexivity |].
  split; [reflexivity |].
  cbn [layers map_get LayerType_eqb]. split; [reflexivity |].
  cbn [primitives mkLayer cardinalMarkers map].
  unfold disjointBoxes, labelBoxes, createText.
  cbn [flat_map labelBox app x y].
  intros H. apply disjointBoxes_first_two in H.
  revert H. unfold intersects, estimateBoundingBox.
  cbn [bb_x bb_y bb_width bb_height padding newLabelCollisionDetector
       String.length INR].
  destruct (cardinal_projection_bounds 0) as [X0 Y0].
  destruct (cardinal_projection_bounds 90) as [X1 Y1].
  cbv zeta in X0, Y0, X1, Y1.
  js_cmp. cbn [orb negb]. discriminate.
Qed.

(** ** A star name on the north marker *)

Lemma toy_raDecToAltAz (ra dec : R) :
  raDecToAltAz (engine := toyEngine) ra dec greenwich
  = Ok {| altitude := dec; azimuth := ra / 15 * 15 |}.
Proof.
  unfold raDecToAltAz.
  cbn [toyEngine newAstroObserver MakeTime Horizon greenwich
       latitude longitude elevation date].
  js_cmp. reflexivity.
Qed.

(** The default projection of a point due north. *)
Lemma project_north (alt az : R) :
  az = 0 ->
  let p := projectAzimuthalEquidistant alt az DEFAULT_PROJECTION_CONFIG in
  proj_x p = 0 /\ proj_y p = - ((90 - alt) / 90).
Proof.
  intros ->. unfold projectAzimuthalEquidistant.
  cbn [DEFAULT_PROJECTION_CONFIG centerAltitude maxRadius northUp eastRight
       negb proj_x proj_y].
  replace (0 * PI / 180) with 0 by (unfold Rdiv; ring).
  rewrite sin_0, cos_0. split; lra.
Qed.

Lemma nova_projected :
  projectStars (engine := toyEngine) [nova] greenwich namesAndCardinals
    (500 / 2) (500 / 2 * 0.91)
  = Ok [novaProjected].
Proof.
  cbn [projectStars nova mag ra dec hip name namesAndCardinals
       magnitudeLimit starSizeMin starSizeMax].
  js_cmp. rewrite toy_raDecToAltAz. cbn [bind altitude azimuth].
  js_cmp. do 2 f_equal.
  destruct (project_north 4 (0 / 15 * 15)) as [Hx Hy]; [lra |].
  cbv zeta in Hx, Hy. rewrite Hx, Hy.
  rewrite magnitudeToRadius_brightest by lra.
  unfold novaProjected. f_equal; lra.
Qed.

Lemma nova_inside :
  insideDegreeRing (500 / 2) (500 / 2 * 0.91 * 0.96) novaProjected = true.
Proof.
  unfold insideDegreeRing, distanceFromCenter.
  cbn [novaProjected ps_x ps_y].
  replace ((250 - 500 / 2) * (250 - 500 / 2)
           + (250 - 86 / 90 * 227.5 - 500 / 2)
             * (250 - 86 / 90 * 227.5 - 500 / 2))
    with ((86 / 90 * 227.5) * (86 / 90 * 227.5)) by field.
  rewrite sqrt_square by lra.
  apply Rltb_true. lra.
Qed.

Lemma nova_bright :
  brightNamedStars [novaProjected] (500 / 2) (500 / 2 * 0.91 * 0.96)
  = [novaProjected].
Proof.
  unfold brightNamedStars. cbn [filter].
  replace (ps_magnitude novaProjected >? 2.5) with false
    by (symmetry; apply Rgtb_false; cbn; lra).
  cbn [orb noName novaProjected ps_name String.eqb]. 
  fold novaProjected. rewrite nova_inside. reflexivity.
Qed.

Lemma nova_label (d : LabelCollisionDetector) :
  placedLabels d = [] -> padding d = 8 ->
  snd (placeStarNames [novaProjected] d) = [novaLabel].
Proof.
  intros Hl Hp. cbn [placeStarNames]. cbv zeta.
  rewrite tryPlace_spec by exact Hp. rewrite Hl.
  cbn [canPlaceScan snd]. reflexivity.
Qed.

Lemma north_marker (d : LabelCollisionDetector) :
  In northMarker (snd (placeCardinals cardinalMarkers (500 / 2)
                         (500 / 2 * 0.91) d)).
Proof.
  rewrite placeCardinals_markers. unfold cardinalMarkers. cbn [map].
  left. destruct (project_north (-5) 0 eq_refl) as [Hx Hy].
  cbv zeta in Hx, Hy. rewrite Hx, Hy.
  unfold northMarker, createText. do 2 f_equal; lra.
Qed.

(** The boxes of the name label of [nova] and of the N marker intersect. *)
Lemma nova_label_on_north_marker :
  exists b1 b2,
    labelBox 9 novaLabel = Some b1
    /\ labelBox 14 northMarker = Some b2
    /\ intersects b1 b2 = true.
Proof.
  eexists. eexists. split; [reflexivity |]. split; [reflexivity |].
  unfold intersects, estimateBoundingBox.
  cbn [bb_x bb_y bb_width bb_height padding newLabelCollisionDetector
       x y String.length INR].
  replace (1 + 1 + 1 + 1) with 4 by ring.
  js_cmp. reflexivity.
Qed.

(** The build of the catalog [[nova]] on a viewport of size 500 with star
    names and cardinal markers enabled. *)
Lemma nova_build :
  exists g names markers,
    buildStarMapGeometry (engine := toyEngine) (host := stubHost)
      [] [nova] greenwich namesAndCardinals 500 = Ok g
    /\ map_get (layers g) layer_star_names = Some names
    /\ primitives names = [novaLabel]
    /\ map_get (layers g) layer_cardinals = Some markers
    /\ In northMarker (primitives markers).
Proof.
  build_steps. rewrite nova_projected. cbn [bind filter].
  rewrite nova_inside, nova_bright.
  pose proof (nova_label (newLabelCollisionDetector 8) eq_refl eq_refl) as Hn.
  destruct (placeStarNames [novaProjected] (newLabelCollisionDetector 8))
    as [lc1 names].
  cbn [snd] in Hn. subst names.
  pose proof (north_marker lc1) as Hm.
  destruct (placeCardinals cardinalMarkers (500 / 2) (500 / 2 * 0.91) lc1)
    as [lc2 markers].
  cbn [snd] in Hm. layers_eval.
  eexists. exists (mkLayer layer_star_names [novaLabel]).
  exists (mkLayer layer_cardinals markers).
  split; [reflexivity |].
  cbn [layers map_get LayerType_eqb primitives mkLayer].
  repeat split. exact Hm.
Qed.

(** C1, on a star near the northern horizon.  The property that the four
    cardinal labels are placed in the collision detector before any label
    of another category is attempted fails: the block of the source
    commented "highest priority - always placed first" runs after the
    constellation-name, star-name and planet blocks.  On a viewport of
    size 500 with a bright named star four degrees above the northern
    horizon, the geometry holds both the name label of the star and the N
    marker although their boxes intersect; had the N marker been placed
    first, [tryPlace] would have dropped the star name. *)
Theorem star_name_placed_before_cardinals :
  exists g names markers b1 b2,
    buildStarMapGeometry (engine := toyEngine) (host := stubHost)
      [] [nova] greenwich namesAndCardinals 500 = Ok g
    /\ map_get (layers g) layer_star_names = Some names
    /\ In novaLabel (primitives names)
    /\ map_get (layers g) layer_cardinals = Some markers
    /\ In northMarker (primitives markers)
    /\ labelBox 9 novaLabel = Some b1
    /\ labelBox 14 northMarker = Some b2
    /\ intersects b1 b2 = true.
Proof.
  destruct nova_build as (g & names & markers & Hg & Hn & Hnp & Hm & Hmp).
  destruct nova_label_on_north_marker as (b1 & b2 & H1 & H2 & Hi).
  exists g, names, markers, b1, b2.
  rewrite Hnp. cbn [In]. auto 10.
Qed.

(** ** The altitude circle *)

(** The loop of [generateAltitudeCircle] stops on its own test: started
    [k] steps into a circle of [n] points with one unit of fuel more than
    the remaining points, it emits exactly the remaining points. *)
Lemma altitudeCircleLoop_length (n : nat) (alt : R)
    (config : ProjectionConfig) (m k : nat) (az : R) :
  (0 < n)%nat -> (k + m = n)%nat -> az = INR k * (360 / INR n) ->
  List.length (altitudeCircleLoop (S m) alt az (360 / INR n) config) = m.
Proof.
  intros Hn. revert k az.
  assert (Hpos : 0 < INR n) by (apply lt_0_INR; exact Hn).
  induction m as [| m IH]; intros k az Hk Haz; cbn [altitudeCircleLoop].
  - assert (k = n) by lia. subst k.
    replace (az <? 360) with false; [reflexivity |].
    symmetry. apply Rltb_false. rewrite Haz. right. field. lra.
  - assert (Hlt : az < 360).
    { rewrite Haz. assert (INR k < INR n) by (apply lt_INR; lia).
      apply Rmult_lt_reg_r with (INR n); [exact Hpos |].
      replace (INR k * (360 / INR n) * INR n) with (INR k * 360)
        by (field; lra).
      nra. }
    replace (az <? 360) with true by (symmetry; now apply Rltb_true).
    cbn [List.length]. f_equal.
    apply (IH (S k)); [lia |].
    rewrite S_INR, Haz. ring.
Qed.

Lemma generateAltitudeCircle_length (alt : R) (pointCount : nat)
    (config : ProjectionConfig) :
  (0 < pointCount)%nat ->
  List.length (generateAltitudeCircle alt pointCount config) = pointCount.
Proof.
  intros Hn. unfold generateAltitudeCircle. cbv zeta.
  apply (altitudeCircleLoop_length pointCount alt config pointCount 0 0);
    [exact Hn | lia | cbn [INR]; ring].
Qed.

(** ** Distance of a projected point from the centre *)

(** Under the default projection a point of altitude [alt <= 90] lands at
    distance [(90 - alt) / 90 * scale] from the centre. *)
Lemma projected_distance (alt az center scale : R) :
  alt <= 90 -> 0 <= scale ->
  let p := projectAzimuthalEquidistant alt az DEFAULT_PROJECTION_CONFIG in
  sqrt ((center + proj_x p * scale - center) ^ 2
        + (center + proj_y p * scale - center) ^ 2)
  = (90 - alt) / 90 * scale.
Proof.
  intros Halt Hscale. unfold projectAzimuthalEquidistant.
  cbn [DEFAULT_PROJECTION_CONFIG centerAltitude maxRadius northUp eastRight
       negb proj_x proj_y].
  set (t := az * PI / 180).
  set (r := (90 - alt) / 90).
  replace ((center + r * 1 * sin t * scale - center) ^ 2
           + (center + - (r * 1) * cos t * scale - center) ^ 2)
    with ((r * scale) * (r * scale) * ((sin t)² + (cos t)²))
    by (unfold Rsqr; ring).
  rewrite sin2_cos2, Rmult_1_r.
  apply sqrt_square. unfold r. apply Rmult_le_pos; lra.
Qed.

(** On a viewport of positive size, a projected point is strictly inside
    the ring-exclusion radius exactly when its altitude exceeds 3.6
    degrees. *)
Lemma inside_ring_iff_altitude (alt az center scale : R) :
  alt <= 90 -> 0 < scale ->
  let p := projectAzimuthalEquidistant alt az DEFAULT_PROJECTION_CONFIG in
  sqrt ((center + proj_x p * scale - center) ^ 2
        + (center + proj_y p * scale - center) ^ 2) < scale * 0.96
  <-> 3.6 < alt.
Proof.
  intros Halt Hscale. cbv zeta.
  rewrite projected_distance by lra.
  split; intros H; nra.
Qed.

(** ** Presence of the degree-ring layer *)

Lemma degree_ring_layer_present
    {engine : AstronomyEngine} {host : Host}
    (constellationData : list Constellation)
    (stars : list CatalogStar) (observer : Observer)
    (options : RenderOptions) (viewportSize : R) (g : StarMapGeometry) :
  showDegreeRing options = true ->
  buildStarMapGeometry constellationData stars observer options viewportSize
  = Ok g ->
  exists layer, map_get (layers g) layer_degree_ring = Some layer.
Proof.
  intros Hflag H. apply build_trace in H. destruct H as (t & Ht & ->).
  cbn [layers geometryOfTrace].
  destruct Ht as (_ & _ & _ & _ & _ & _ & _ & E8 & E9).
  rewrite (metadataStep_same _ _ _ _ _ _ E9) by discriminate.
  rewrite <- E8. unfold degreeRingStep. rewrite Hflag.
  destruct degreeRing as [lc prims]. cbn [fst].
  rewrite map_get_set_same. eauto.
Qed.

(** ** Projection round trip *)

(** C2 (amended).  For every altitude in [[0, 90)] and azimuth in
    [[0, 360)], applying [inverseAzimuthalEquidistant] to the point
    produced by [projectAzimuthalEquidistant] under the default
    configuration returns the original altitude and azimuth within 1e-6
    (exactly, in real arithmetic).  At altitude 90, the zenith, every
    azimuth projects to the origin, and the inverse recovers the altitude
    alone. *)
Theorem projection_round_trip (alt az : R) :
  let p := projectAzimuthalEquidistant alt az DEFAULT_PROJECTION_CONFIG in
  let h := inverseAzimuthalEquidistant {| x := proj_x p; y := proj_y p |}
             DEFAULT_PROJECTION_CONFIG in
  (0 <= alt < 90 -> 0 <= az < 360 -> roundTripWithin 1e-6 alt az)
  /\ (alt = 90 ->
      proj_x p = 0 /\ proj_y p = 0 /\ Rabs (altitude h - alt) <= 1e-6).
Proof.
  cbv zeta. split.
  - intros Halt Haz. unfold roundTripWithin. cbv zeta.
    rewrite (inverse_project_default alt az Halt Haz).
    cbn [altitude azimuth].
    rewrite !Rminus_diag, Rabs_R0. lra.
  - intros ->. destruct (project_zenith az) as (Hx & Hy & Ha).
    cbv zeta in Hx, Hy, Ha.
    split; [exact Hx |]. split; [exact Hy |].
    rewrite Ha, Rminus_diag, Rabs_R0. lra.
Qed.

(** C2, counterexample.  At the zenith with azimuth 90 the round trip
    returns azimuth 0. *)
Lemma round_trip_fails_at_zenith :
  0 <= 90 <= 90 /\ 0 <= 90 < 360 /\ ~ roundTripWithin 1e-6 90 90.
Proof.
  split; [lra |]. split; [lra |].
  unfold roundTripWithin. cbv zeta.
  rewrite inverse_project_zenith_east. cbn [altitude azimuth].
  intros [_ H]. unfold Rabs in H.
  destruct (Rcase_abs (0 - 90)); lra.
Qed.

Lemma projection_round_trip_witness :
  (0 <= 45 < 90 /\ 0 <= 270 < 360 /\ roundTripWithin 1e-6 45 270)
  /\ (let p :=
        projectAzimuthalEquidistant 90 270 DEFAULT_PROJECTION_CONFIG in
      proj_x p = 0 /\ proj_y p = 0
      /\ Rabs
           (altitude
              (inverseAzimuthalEquidistant
                 {| x := proj_x p; y := proj_y p |}
                 DEFAULT_PROJECTION_CONFIG) - 90) <= 1e-6).
Proof.
  assert (H1 : 0 <= 45 < 90) by lra.
  assert (H2 : 0 <= 270 < 360) by lra.
  split.
  - split; [exact H1 |]. split; [exact H2 |].
    exact (proj1 (projection_round_trip 45 270) H1 H2).
  - exact (proj2 (projection_round_trip 90 270) eq_refl).
Defined.

(** ** Magnitude to radius *)




(** ** Builds under the toy engine *)

Lemma toy_sky_resolves (ra dec : R) :
  exists coords,
    raDecToAltAz (engine := toyEngine) ra dec greenwich = Ok coords.
Proof. rewrite toy_raDecToAltAz. eauto. Qed.

Lemma toy_build_returns (constellationData : list Constellation)
    (stars : list CatalogStar) (options : RenderOptions) (viewportSize : R) :
  exists g,
    buildStarMapGeometry (engine := toyEngine) (host := stubHost)
      constellationData stars greenwich options viewportSize = Ok g.
Proof.
  apply build_returns; [exact toy_sky_resolves |].
  intros _. discriminate.
Qed.

Lemma three_stars_visible :
  filter (passesVisibilityFilter (engine := toyEngine) greenwich
            linesAndPlanets) threeStars
  = [nova].
Proof.
  unfold threeStars, passesVisibilityFilter. cbn [filter].
  rewrite !toy_raDecToAltAz.
  cbn [nova faintStar sunkenStar mag ra dec linesAndPlanets magnitudeLimit
       altitude].
  js_cmp. reflexivity.
Qed.

Lemma visibility_filter_witness :
  exists g,
    buildStarMapGeometry (engine := toyEngine) (host := stubHost)
      [triangle] threeStars greenwich linesAndPlanets 500 = Ok g
    /\ visibleStarCount (metadata g) = 1%nat.
Proof.
  destruct (toy_build_returns [triangle] threeStars linesAndPlanets 500)
    as [g Hg].
  exists g. split; [exact Hg |].
  destruct (visibility_filter _ _ _ _ _ _ Hg) as (ps & _ & _ & _ & Hc & _).
  rewrite Hc, three_stars_visible. reflexivity.
Defined.

(** The first side of the triangle is drawn; the second, whose far end is
    two degrees above the horizon and so outside the ring-exclusion
    radius, is not. *)
Lemma triangle_first_side_drawn :
  segmentDrawn (engine := toyEngine) greenwich (500 / 2) (500 / 2 * 0.91)
    {| pt_ra := 0; pt_dec := 60 |} {| pt_ra := 30; pt_dec := 50 |}
    triangleSide.
Proof.
  unfold segmentDrawn. cbn [pt_ra pt_dec].
  eexists. eexists.
  split; [apply toy_raDecToAltAz |]. split; [apply toy_raDecToAltAz |].
  cbn [altitude azimuth]. cbv zeta.
  split; [lra |]. split; [lra |].
  split; [apply inside_ring_iff_altitude; lra |].
  split; [apply inside_ring_iff_altitude; lra |].
  unfold triangleSide, projectAzimuthalEquidistant.
  cbn [DEFAULT_PROJECTION_CONFIG centerAltitude maxRadius northUp eastRight
       negb proj_x proj_y].
  replace (0 / 15 * 15 * PI / 180) with 0 by field.
  replace (30 / 15 * 15 * PI / 180) with (PI / 6) by field.
  rewrite sin_0, cos_0, sin_PI6, cos_PI6.
  f_equal; f_equal; lra.
Qed.

Lemma triangle_second_side_dropped (line : RenderPrimitive) :
  ~ segmentDrawn (engine := toyEngine) greenwich (500 / 2) (500 / 2 * 0.91)
      {| pt_ra := 30; pt_dec := 50 |} {| pt_ra := 60; pt_dec := 2 |} line.
Proof.
  unfold segmentDrawn. cbn [pt_ra pt_dec].
  intros (coord1 & coord2 & E1 & E2 & H).
  rewrite toy_raDecToAltAz in E1, E2.
  apply Ok_inj in E1, E2. subst coord1 coord2.
  cbn [altitude azimuth] in H. cbv zeta in H.
  destruct H as (_ & _ & _ & H & _).
  apply inside_ring_iff_altitude in H; lra.
Qed.

Lemma constellation_segments_witness :
  exists g layer,
    buildStarMapGeometry (engine := toyEngine) (host := stubHost)
      [triangle] threeStars greenwich linesAndPlanets 500 = Ok g
    /\ map_get (layers g) layer_constellations = Some layer
    /\ In triangleSide (primitives layer).
Proof.
  destruct (toy_build_returns [triangle] threeStars linesAndPlanets 500)
    as [g Hg].
  destruct (proj2 (constellation_segments _ _ _ _ _ _ Hg triangleSide))
    as (layer & Hl & Hin).
  - split; [reflexivity |].
    exists triangle, (hd [] (lines triangle)), 0%nat,
      {| pt_ra := 0; pt_dec := 60 |}, {| pt_ra := 30; pt_dec := 50 |}.
    split; [now left |]. split; [now left |].
    split; [reflexivity |]. split; [reflexivity |].
    exact triangle_first_side_drawn.
  - exists g, layer. auto.
Defined.

Lemma labels_do_not_overlap_witness :
  exists g ring,
    buildStarMapGeometry (engine := toyEngine) (host := stubHost)
      [triangle] threeStars greenwich linesAndPlanets 500 = Ok g
    /\ layer_degree_ring <> layer_cardinals
    /\ priorityClassFontSize layer_degree_ring = Some 8
    /\ map_get (layers g) layer_degree_ring = Some ring
    /\ disjointBoxes (labelBoxes 8 (primitives ring)).
Proof.
  destruct (toy_build_returns [triangle] threeStars linesAndPlanets 500)
    as [g Hg].
  destruct (degree_ring_layer_present [triangle] threeStars greenwich
              linesAndPlanets 500 g eq_refl Hg) as [ring Hr].
  exists g, ring.
  split; [exact Hg |]. split; [discriminate |]. split; [reflexivity |].
  split; [exact Hr |].
  apply (labels_do_not_overlap _ _ _ _ _ g layer_degree_ring 8 ring Hg);
    [discriminate | reflexivity | exact Hr].
Defined.

Lemma toy_planets :
  getPlanetPositions (engine := toyEngine) greenwich = Ok toyPlanets.
Proof.
  unfold getPlanetPositions.
  cbn [toyEngine newAstroObserver MakeTime greenwich
       latitude longitude elevation date].
  js_cmp. cbn [orb bind]. f_equal.
  cbn [planetLoop planetBodies pb_body pb_name pb_mag resolvePlanet
       toyEngine Equator Horizon bind try_catch equ_ra equ_dec altitude
       azimuth].
  js_cmp. reflexivity.
Qed.

Lemma planets_above_horizon_witness :
  getPlanetPositions (engine := toyEngine) greenwich = Ok toyPlanets
  /\ Forall (fun planet => 0 < planet_altitude planet) toyPlanets.
Proof.
  split; [exact toy_planets |].
  exact (proj1 (planets_above_horizon (host := stubHost) greenwich toyPlanets
                  toy_planets)).
Defined.



Lemma lenient_sky_resolves (ra dec : R) :
  exists coords,
    raDecToAltAz (engine := lenientEngine) ra dec beyondThePole = Ok coords.
Proof. unfold raDecToAltAz. cbn. eauto. Qed.

Lemma observer_not_clamped_witness :
  90 < latitude beyondThePole
  /\ valid (validateObserver beyondThePole) = false
  /\ errors (validateObserver beyondThePole) <> []
  /\ exists g,
       buildStarMapGeometry (engine := lenientEngine) (host := stubHost)
         [triangle] threeStars beyondThePole linesAndPlanets 500 = Ok g.
Proof.
  assert (H : 90 < latitude beyondThePole) by (cbn; lra).
  destruct (observer_not_clamped (engine := lenientEngine) (host := stubHost)
              beyondThePole (or_intror (or_introl H))) as [[Hv He] Hb].
  split; [exact H |]. split; [exact Hv |]. split; [exact He |].
  destruct (Hb [triangle] threeStars linesAndPlanets 500) as (_ & _ & Hr).
  apply Hr; [exact lenient_sky_resolves | intros _; discriminate].
Defined.

(** ** The projection under any configuration *)

Lemma norm_scaled (b u : R) :
  0 < b -> sqrt (b * u * (b * u) + b * b) = b * sqrt (1 + u²).
Proof.
  intros Hb.
  replace (b * u * (b * u) + b * b) with (b² * (1 + u²))
    by (unfold Rsqr; ring).
  rewrite sqrt_mult_alt by apply Rle_0_sqr.
  rewrite sqrt_Rsqr by lra. reflexivity.
Qed.

Lemma sqrt_one_plus_sqr_pos (u : R) : 0 < sqrt (1 + u²).
Proof. apply sqrt_lt_R0. pose proof (Rle_0_sqr u). lra. Qed.

(** [atan2] gives the direction of the point [(b, a)]: the point is
    recovered from its distance to the origin and that angle. *)
Lemma atan2_recovers (a b : R) :
  let r := sqrt (a * a + b * b) in
  r * sin (atan2 a b) = a /\ r * cos (atan2 a b) = b.
Proof.
  intros r. unfold atan2.
  pose proof (sqrt_one_plus_sqr_pos (a / b)) as Hs.
  destruct (Rlt_dec 0 b) as [Hb | Hb].
  { js_cmp. rewrite sin_atan, cos_atan.
    assert (Er : r = b * sqrt (1 + (a / b)²)).
    { unfold r. rewrite <- norm_scaled by lra. f_equal. field. lra. }
    rewrite Er. split; field; lra. }
  destruct (Rlt_dec b 0) as [Hb' | Hb'].
  { assert (Er : r = - b * sqrt (1 + (a / b)²)).
    { unfold r.
      replace (a / b) with (- a / - b) by (field; lra).
      rewrite <- norm_scaled by lra. f_equal. field. lra. }
    js_cmp.
    destruct (Rle_dec 0 a) as [Ha | Ha]; js_cmp.
    - rewrite neg_sin, neg_cos, sin_atan, cos_atan, Er. split; field; lra.
    - replace (atan (a / b) - PI) with (- (PI - atan (a / b))) by ring.
      rewrite sin_neg, cos_neg, Rtrigo_facts.sin_pi_minus,
        Rtrigo_facts.cos_pi_minus, sin_atan, cos_atan, Er.
      split; field; lra. }
  assert (Eb : b = 0) by lra. subst b.
  assert (Er : r = sqrt (a * a)) by (unfold r; f_equal; ring).
  js_cmp.
  destruct (Rlt_dec 0 a) as [Ha | Ha].
  { js_cmp. rewrite sin_PI2, cos_PI2, Er, sqrt_square by lra. lra. }
  destruct (Rlt_dec a 0) as [Ha' | Ha'].
  { js_cmp. rewrite sin_neg, cos_neg, sin_PI2, cos_PI2, Er.
    replace (a * a) with (- a * - a) by ring.
    rewrite sqrt_square by lra. lra. }
  assert (Ea : a = 0) by lra. subst a.
  js_cmp. rewrite sin_0, cos_0, Er, Rmult_0_l, sqrt_0. lra.
Qed.

Lemma sin_plus_turn (t : R) : sin (t + 2 * PI) = sin t.
Proof. rewrite <- (sin_minus_turn (t + 2 * PI)). f_equal. ring. Qed.

Lemma cos_plus_turn (t : R) : cos (t + 2 * PI) = cos t.
Proof. rewrite <- (cos_minus_turn (t + 2 * PI)). f_equal. ring. Qed.

(** The conversion to degrees in [[0, 360)] at the end of the inverse
    projection and the conversion back to radians at the start of the
    projection change the angle by a whole turn at most. *)
Lemma degrees_and_back (t : R) :
  let azimuth := t * 180 / PI in
  let azimuth := if azimuth <? 0 then azimuth + 360 else azimuth in
  azimuth * PI / 180 = t \/ azimuth * PI / 180 = t + 2 * PI.
Proof.
  pose proof PI_RGT_0 as HPI. cbv zeta.
  destruct (t * 180 / PI <? 0); [right | left]; field; lra.
Qed.

Lemma sin_cos_degrees_and_back (t : R) :
  let azimuth := t * 180 / PI in
  let azimuth := if azimuth <? 0 then azimuth + 360 else azimuth in
  sin (azimuth * PI / 180) = sin t /\ cos (azimuth * PI / 180) = cos t.
Proof.
  cbv zeta. destruct (degrees_and_back t) as [E | E]; cbv zeta in E;
    rewrite E; [easy |].
  now rewrite sin_plus_turn, cos_plus_turn.
Qed.

(** X1.  Projecting the result of the inverse projection gives the point
    back, for every point of the plane and every configuration with a
    non-zero [maxRadius], whatever the orientation flags. *)
Theorem project_after_inverse (point : Point2D) (config : ProjectionConfig) :
  maxRadius config <> 0 ->
  let h := inverseAzimuthalEquidistant point config in
  let q := projectAzimuthalEquidistant (altitude h) (azimuth h) config in
  proj_x q = x point /\ proj_y q = y point.
Proof.
  intros Hm. destruct point as [px py].
  destruct config as [cA mR nU eR].
  cbn [maxRadius] in Hm.
  unfold inverseAzimuthalEquidistant, projectAzimuthalEquidistant.
  cbn [centerAltitude maxRadius northUp eastRight x y altitude azimuth
       proj_x proj_y].
  set (r := sqrt (px * px + py * py)).
  replace ((cA - (cA - r / mR * 90)) / 90 * mR) with r by (field; exact Hm).
  destruct nU, eR; cbn [negb].
  - destruct (sin_cos_degrees_and_back (atan2 px (- py))) as [Es Ec].
    cbv zeta in Es, Ec. rewrite Es, Ec.
    destruct (atan2_recovers px (- py)) as [Hx Hy]. cbv zeta in Hx, Hy.
    replace (px * px + - py * - py) with (px * px + py * py) in Hx, Hy
      by ring.
    fold r in Hx, Hy. split; lra.
  - destruct (sin_cos_degrees_and_back (- atan2 px (- py))) as [Es Ec].
    cbv zeta in Es, Ec. rewrite sin_neg, cos_neg, Es, Ec, sin_neg, cos_neg.
    destruct (atan2_recovers px (- py)) as [Hx Hy]. cbv zeta in Hx, Hy.
    replace (px * px + - py * - py) with (px * px + py * py) in Hx, Hy
      by ring.
    fold r in Hx, Hy. split; lra.
  - destruct (sin_cos_degrees_and_back (atan2 px py)) as [Es Ec].
    cbv zeta in Es, Ec. rewrite Es, Ec.
    exact (atan2_recovers px py).
  - destruct (sin_cos_degrees_and_back (- atan2 px py)) as [Es Ec].
    cbv zeta in Es, Ec. rewrite sin_neg, cos_neg, Es, Ec, sin_neg, cos_neg.
    destruct (atan2_recovers px py) as [Hx Hy]. cbv zeta in Hx, Hy.
    fold r in Hx, Hy. split; lra.
Qed.

Lemma project_after_inverse_witness :
  maxRadius DEFAULT_PROJECTION_CONFIG <> 0
  /\ let h :=
       inverseAzimuthalEquidistant {| x := 0.3; y := -0.4 |}
         DEFAULT_PROJECTION_CONFIG in
     let q :=
       projectAzimuthalEquidistant (altitude h) (azimuth h)
         DEFAULT_PROJECTION_CONFIG in
     proj_x q = 0.3 /\ proj_y q = -0.4.
Proof.
  assert (H : maxRadius DEFAULT_PROJECTION_CONFIG <> 0) by (cbn; lra).
  split; [exact H |].
  exact (project_after_inverse {| x := 0.3; y := -0.4 |}
           DEFAULT_PROJECTION_CONFIG H).
Defined.

Lemma polar_norm_south (r t : R) :
  0 <= r -> sqrt (r * sin t * (r * sin t) + r * cos t * (r * cos t)) = r.
Proof.
  intros Hr.
  replace (r * sin t * (r * sin t) + r * cos t * (r * cos t))
    with (r * r * ((sin t)² + (cos t)²)) by (unfold Rsqr; ring).
  rewrite sin2_cos2, Rmult_1_r. apply sqrt_square. exact Hr.
Qed.

Lemma atan2_polar_east (r t : R) :
  0 < r -> 0 <= t < 2 * PI ->
  let v := atan2 (r * sin t) (r * cos t) in v = t \/ v = t - 2 * PI.
Proof.
  intros Hr Ht. cbv zeta. rewrite atan2_polar_turn by assumption.
  destruct (t <=? PI); auto.
Qed.

(** With east on the left the angle is negated before the projection and
    after [atan2]. *)
Lemma atan2_polar_west (r t : R) :
  0 < r -> 0 <= t < 2 * PI ->
  let v := - atan2 (r * sin (- t)) (r * cos (- t)) in
  v = t \/ v = t - 2 * PI.
Proof.
  intros Hr [Hlo Hhi]. pose proof PI_RGT_0 as HPI. cbv zeta.
  destruct (Rlt_dec t PI) as [L | L].
  - left. rewrite atan2_polar by lra. ring.
  - right.
    replace (sin (- t)) with (sin (2 * PI - t))
      by (rewrite <- (sin_minus_turn (2 * PI - t)); f_equal; ring).
    replace (cos (- t)) with (cos (2 * PI - t))
      by (rewrite <- (cos_minus_turn (2 * PI - t)); f_equal; ring).
    rewrite atan2_polar by lra. ring.
Qed.

Lemma radians_to_degrees (az v : R) :
  0 <= az < 360 ->
  v = az * PI / 180 \/ v = az * PI / 180 - 2 * PI ->
  (if v * 180 / PI <? 0 then v * 180 / PI + 360 else v * 180 / PI) = az.
Proof.
  intros [Hlo Hhi] [E | E]; pose proof PI_RGT_0 as HPI.
  - replace (v * 180 / PI) with az by (rewrite E; field; lra).
    js_cmp. reflexivity.
  - replace (v * 180 / PI) with (az - 360) by (rewrite E; field; lra).
    js_cmp. ring.
Qed.

Lemma azimuth_radians (az : R) :
  0 <= az < 360 -> 0 <= az * PI / 180 < 2 * PI.
Proof.
  intros [Hlo Hhi]. pose proof PI_RGT_0 as HPI. split.
  - apply Rmult_le_pos; [| lra]. apply Rmult_le_pos; lra.
  - apply Rmult_lt_reg_r with 180; [lra |].
    replace (az * PI / 180 * 180) with (az * PI) by field.
    nra.
Qed.

(** X2.  The inverse projection undoes the projection under every
    configuration with a positive [maxRadius], whatever the orientation
    flags: for an altitude below the centre altitude and an azimuth in
    [[0, 360)], both coordinates are recovered. *)
Theorem inverse_after_project (alt az : R) (config : ProjectionConfig) :
  0 < maxRadius config -> alt < centerAltitude config -> 0 <= az < 360 ->
  let p := projectAzimuthalEquidistant alt az config in
  inverseAzimuthalEquidistant {| x := proj_x p; y := proj_y p |} config
  = {| altitude := alt; azimuth := az |}.
Proof.
  destruct config as [cA mR nU eR].
  cbn [maxRadius centerAltitude]. intros Hm Ha Hz.
  pose proof (azimuth_radians az Hz) as Ht.
  unfold projectAzimuthalEquidistant, inverseAzimuthalEquidistant.
  cbn [centerAltitude maxRadius northUp eastRight proj_x proj_y x y].
  set (r := (cA - alt) / 90 * mR).
  set (t := az * PI / 180) in *.
  assert (Hr : 0 < r).
  { unfold r. apply Rmult_lt_0_compat; lra. }
  assert (Ealt : cA - r / mR * 90 = alt) by (unfold r; field; lra).
  destruct nU, eR; cbn [negb].
  - rewrite polar_norm by lra.
    replace (- (- r * cos t)) with (r * cos t) by ring.
    f_equal; [exact Ealt |].
    apply radians_to_degrees; [exact Hz |].
    exact (atan2_polar_east r t Hr Ht).
  - rewrite polar_norm by lra.
    replace (- (- r * cos (- t))) with (r * cos (- t)) by ring.
    f_equal; [exact Ealt |].
    apply radians_to_degrees; [exact Hz |].
    exact (atan2_polar_west r t Hr Ht).
  - rewrite polar_norm_south by lra.
    f_equal; [exact Ealt |].
    apply radians_to_degrees; [exact Hz |].
    exact (atan2_polar_east r t Hr Ht).
  - rewrite polar_norm_south by lra.
    f_equal; [exact Ealt |].
    apply radians_to_degrees; [exact Hz |].
    exact (atan2_polar_west r t Hr Ht).
Qed.

Lemma inverse_after_project_witness :
  0 < maxRadius southUpWestRight
  /\ 30 < centerAltitude southUpWestRight
  /\ 0 <= 200 < 360
  /\ let p := projectAzimuthalEquidistant 30 200 southUpWestRight in
     inverseAzimuthalEquidistant {| x := proj_x p; y := proj_y p |}
       southUpWestRight
     = {| altitude := 30; azimuth := 200 |}.
Proof.
  assert (H1 : 0 < maxRadius southUpWestRight) by (cbn; lra).
  assert (H2 : 30 < centerAltitude southUpWestRight) by (cbn; lra).
  assert (H3 : 0 <= 200 < 360) by lra.
  repeat split; try lra; try assumption.
  exact (inverse_after_project 30 200 southUpWestRight H1 H2 H3).
Defined.

(** ** Distances in the projected plane *)

Lemma projection_norm (alt az : R) (config : ProjectionConfig) :
  let p := projectAzimuthalEquidistant alt az config in
  sqrt (proj_x p * proj_x p + proj_y p * proj_y p)
  = Rabs (altitudeToRadius alt config).
Proof.
  unfold projectAzimuthalEquidistant, altitudeToRadius.
  cbn [proj_x proj_y].
  set (r := (centerAltitude config - alt) / 90 * maxRadius config).
  set (t := if negb (eastRight config) then _ else _).
  replace (r * sin t * (r * sin t)
           + (if northUp config then - r * cos t else r * cos t)
             * (if northUp config then - r * cos t else r * cos t))
    with (r² * ((sin t)² + (cos t)²))
    by (destruct (northUp config); unfold Rsqr; ring).
  rewrite sin2_cos2, Rmult_1_r. apply sqrt_Rsqr_abs.
Qed.

(** X3.  The projected point lies at the distance from the origin that
    [altitudeToRadius] gives (in absolute value), whatever the azimuth and
    the orientation, and its visibility flag is the answer of
    [isAboveHorizon]: true exactly for a positive altitude. *)
Theorem projection_radius (alt az : R) (config : ProjectionConfig) :
  let p := projectAzimuthalEquidistant alt az config in
  sqrt (proj_x p * proj_x p + proj_y p * proj_y p)
  = Rabs (altitudeToRadius alt config)
  /\ visible p = isAboveHorizon alt
  /\ (isAboveHorizon alt = true <-> 0 < alt).
Proof.
  cbv zeta. split; [apply projection_norm |].
  split; [reflexivity | apply Rgtb_true].
Qed.

(** X4.  Under a configuration with the zenith at the centre and
    [maxRadius = 1], [projectToViewport] keeps every point of the sky
    between horizon and zenith inside the viewport, with the margin of
    2.5 per cent of the viewport size on each side. *)
Theorem projectToViewport_inside (alt az viewportSize : R)
    (north east : bool) :
  0 <= alt <= 90 -> 0 <= viewportSize ->
  let p :=
    projectToViewport alt az viewportSize
      {| centerAltitude := 90; maxRadius := 1; northUp := north;
         eastRight := east |} in
  0.025 * viewportSize <= proj_x p <= 0.975 * viewportSize
  /\ 0.025 * viewportSize <= proj_y p <= 0.975 * viewportSize.
Proof.
  intros Ha Hv. unfold projectToViewport, projectAzimuthalEquidistant.
  cbn [centerAltitude maxRadius northUp eastRight proj_x proj_y].
  set (t := if negb east then _ else _).
  set (r := (90 - alt) / 90 * 1).
  assert (Hr : 0 <= r <= 1) by (unfold r; lra).
  pose proof (SIN_bound t) as [Hs1 Hs2].
  pose proof (COS_bound t) as [Hc1 Hc2].
  assert (Hx : -1 <= r * sin t <= 1) by nra.
  assert (Hy : -1 <= r * cos t <= 1) by nra.
  split.
  - set (u := r * sin t) in *. nra.
  - destruct north.
    + replace (- r * cos t) with (- (r * cos t)) by ring.
      set (u := r * cos t) in *. nra.
    + set (u := r * cos t) in *. nra.
Qed.

Lemma projectToViewport_inside_witness :
  0 <= 0 <= 90 /\ 0 <= 500
  /\ let p := projectToViewport 0 90 500 DEFAULT_PROJECTION_CONFIG in
     0.025 * 500 <= proj_x p <= 0.975 * 500
     /\ 0.025 * 500 <= proj_y p <= 0.975 * 500.
Proof.
  assert (H1 : 0 <= 0 <= 90) by lra.
  assert (H2 : 0 <= 500) by lra.
  split; [exact H1 |]. split; [exact H2 |].
  exact (projectToViewport_inside 0 90 500 true true H1 H2).
Defined.

(** ** Altitude circles and azimuth lines *)

Lemma altitudeCircleLoop_points (n : nat) (alt : R)
    (config : ProjectionConfig) (m k : nat) (az : R) :
  (0 < n)%nat -> (k + m = n)%nat -> az = INR k * (360 / INR n) ->
  altitudeCircleLoop (S m) alt az (360 / INR n) config
  = map (fun j =>
           pointOf
             (projectAzimuthalEquidistant alt (INR j * (360 / INR n)) config))
        (seq k m).
Proof.
  intros Hn. revert k az.
  assert (Hpos : 0 < INR n) by (apply lt_0_INR; exact Hn).
  induction m as [| m IH]; intros k az Hk Haz; cbn [altitudeCircleLoop].
  - assert (k = n) by lia. subst k.
    replace (az <? 360) with false; [reflexivity |].
    symmetry. apply Rltb_false. rewrite Haz. right. field. lra.
  - assert (Hlt : az < 360).
    { rewrite Haz. assert (INR k < INR n) by (apply lt_INR; lia).
      apply Rmult_lt_reg_r with (INR n); [exact Hpos |].
      replace (INR k * (360 / INR n) * INR n) with (INR k * 360)
        by (field; lra).
      nra. }
    replace (az <? 360) with true by (symmetry; now apply Rltb_true).
    cbn [seq map]. f_equal.
    + rewrite Haz. reflexivity.
    + apply (IH (S k)); [lia |].
      rewrite S_INR, Haz. ring.
Qed.

Lemma generateAltitudeCircle_map (alt : R) (pointCount : nat)
    (config : ProjectionConfig) :
  (0 < pointCount)%nat ->
  generateAltitudeCircle alt pointCount config
  = map (fun k =>
           pointOf
             (projectAzimuthalEquidistant alt
                (INR k * (360 / INR pointCount)) config))
        (seq 0 pointCount).
Proof.
  intros Hn. unfold generateAltitudeCircle. cbv zeta.
  apply (altitudeCircleLoop_points pointCount alt config pointCount 0 0);
    [exact Hn | lia | cbn [INR]; ring].
Qed.

(** X5.  For a positive point count [n] that divides 360 (the default 72
    among them), where the step [360 / n] and every azimuth of the loop
    are whole numbers, [generateAltitudeCircle] returns exactly [n]
    points: the projections of the azimuths [k * 360 / n],
    [k = 0 .. n - 1], in order, all at the distance [altitudeToRadius]
    gives (in absolute value) from the origin.  The loop ends on its own
    test. *)
Theorem altitude_circle_points (alt : R) (pointCount : nat)
    (config : ProjectionConfig) :
  (0 < pointCount)%nat -> (360 mod pointCount = 0)%nat ->
  generateAltitudeCircle alt pointCount config
  = map (fun k =>
           pointOf
             (projectAzimuthalEquidistant alt
                (INR k * (360 / INR pointCount)) config))
        (seq 0 pointCount)
  /\ List.length (generateAltitudeCircle alt pointCount config) = pointCount
  /\ Forall (fun p =>
               sqrt (x p * x p + y p * y p)
               = Rabs (altitudeToRadius alt config))
       (generateAltitudeCircle alt pointCount config).
Proof.
  intros Hn _.
  pose proof (generateAltitudeCircle_map alt pointCount config Hn) as E.
  split; [exact E |].
  rewrite E. split; [now rewrite length_map, length_seq |].
  apply Forall_forall. intros p Hp.
  apply in_map_iff in Hp. destruct Hp as (k & <- & _).
  apply projection_norm.
Qed.

Lemma altitude_circle_points_witness :
  (0 < 72)%nat /\ (360 mod 72 = 0)%nat
  /\ List.length (generateAltitudeCircle 0 72 DEFAULT_PROJECTION_CONFIG)
     = 72%nat.
Proof.
  assert (H : (0 < 72)%nat) by lia.
  assert (Hd : (360 mod 72 = 0)%nat) by reflexivity.
  split; [exact H |]. split; [exact Hd |].
  exact (proj1 (proj2 (altitude_circle_points 0 72 DEFAULT_PROJECTION_CONFIG
                         H Hd))).
Defined.

Lemma azimuthLineLoop_points (azimuth : R) (config : ProjectionConfig)
    (m k : nat) (alt : R) :
  (k + m = 19)%nat -> alt = 90 - 5 * INR k ->
  azimuthLineLoop (S m) alt azimuth config
  = map (fun j =>
           pointOf
             (projectAzimuthalEquidistant (90 - 5 * INR j) azimuth config))
        (seq k m).
Proof.
  revert k alt.
  induction m as [| m IH]; intros k alt Hk Halt; cbn [azimuthLineLoop].
  - assert (k = 19%nat) by lia. subst k.
    replace (alt >=? 0) with false; [reflexivity |].
    symmetry. apply Rgeb_false. rewrite Halt.
    replace (INR 19) with 19 by (rewrite INR_IZR_INZ; reflexivity).
    lra.
  - assert (Hge : 0 <= alt).
    { rewrite Halt. assert (H : INR k <= INR 18) by (apply le_INR; lia).
      replace (INR 18) with 18 in H by (rewrite INR_IZR_INZ; reflexivity).
      lra. }
    replace (alt >=? 0) with true by (symmetry; now apply Rgeb_true).
    cbn [seq map]. f_equal.
    + rewrite Halt. reflexivity.
    + apply (IH (S k)); [lia |].
      rewrite S_INR, Halt. ring.
Qed.

(** X6.  [generateAzimuthLine] returns 19 points, the projections of the
    altitudes 90, 85, ..., 0 at the given azimuth, in that order, and the
    loop ends on its own test. *)
Theorem azimuth_line_points (azimuth : R) (config : ProjectionConfig) :
  generateAzimuthLine azimuth config
  = map (fun k =>
           pointOf
             (projectAzimuthalEquidistant (90 - 5 * INR k) azimuth config))
        (seq 0 19).
Proof.
  unfold generateAzimuthLine.
  apply (azimuthLineLoop_points azimuth config 19 0 90); [lia |].
  cbn [INR]. ring.
Qed.

(** ** Magnitude curves *)

Lemma normalized_mono (limit m1 m2 : R) :
  -1.5 < limit -> m1 <= m2 ->
  (m1 - -1.5) / (limit - -1.5) <= (m2 - -1.5) / (limit - -1.5).
Proof.
  intros Hl Hm. unfold Rdiv. apply Rmult_le_compat_r; [| lra].
  apply Rlt_le, Rinv_0_lt_compat. lra.
Qed.

(** X7.  For a magnitude limit above -1.5, [magnitudeToOpacity] stays in
    [[0.7, 1]], never increases with the magnitude, is 1 at magnitude -1.5
    and 0.7 at the magnitude limit. *)
Theorem magnitude_opacity_curve (magnitudeLimit : R) :
  -1.5 < magnitudeLimit ->
  (forall m, 0.7 <= magnitudeToOpacity m magnitudeLimit <= 1)
  /\ (forall m1 m2, m1 <= m2 ->
        magnitudeToOpacity m2 magnitudeLimit
        <= magnitudeToOpacity m1 magnitudeLimit)
  /\ magnitudeToOpacity (-1.5) magnitudeLimit = 1
  /\ magnitudeToOpacity magnitudeLimit magnitudeLimit = 0.7.
Proof.
  intros Hl. unfold magnitudeToOpacity. repeat split.
  - pose proof (clamp01_range ((m - -1.5) / (magnitudeLimit - -1.5))). lra.
  - pose proof (clamp01_range ((m - -1.5) / (magnitudeLimit - -1.5))). lra.
  - intros m1 m2 Hm.
    pose proof (clamp01_mono _ _ (normalized_mono magnitudeLimit m1 m2 Hl Hm)).
    lra.
  - replace ((-1.5 - -1.5) / (magnitudeLimit - -1.5)) with 0
      by (field; lra).
    rewrite Rmin_right, Rmax_left by lra. lra.
  - replace ((magnitudeLimit - -1.5) / (magnitudeLimit - -1.5)) with 1
      by (field; lra).
    rewrite Rmin_left, Rmax_right by lra. lra.
Qed.

Lemma magnitude_opacity_curve_witness :
  -1.5 < 6
  /\ magnitudeToOpacity (-1.5) 6 = 1 /\ magnitudeToOpacity 6 6 = 0.7.
Proof.
  assert (H : -1.5 < 6) by lra.
  split; [exact H |].
  exact (proj2 (proj2 (magnitude_opacity_curve 6 H))).
Defined.

Lemma sizeFactor_range (c : R) : 0 <= c <= 1 -> 0 <= sqrt (1 - c) <= 1.
Proof.
  intros Hc. split; [apply sqrt_pos |].
  rewrite <- sqrt_1 at 2. apply sqrt_le_1_alt. lra.
Qed.

(** X8.  With [minRadius <= maxRadius] and a magnitude limit other than
    -1.5, the radius [magnitudeToRadius] returns lies between the two
    radii, for every magnitude. *)
Theorem magnitude_radius_range
    (magnitude minRadius maxRadius magnitudeLimit : R) :
  minRadius <= maxRadius -> magnitudeLimit <> -1.5 ->
  minRadius
  <= magnitudeToRadius magnitude minRadius maxRadius magnitudeLimit
  <= maxRadius.
Proof.
  intros Hr _. unfold magnitudeToRadius.
  pose proof
    (sizeFactor_range _
       (clamp01_range ((magnitude - -1.5) / (magnitudeLimit - -1.5))))
    as Hs.
  split; nra.
Qed.

Lemma magnitude_radius_range_witness :
  0.2 <= 2 /\ 6 <> -1.5
  /\ 0.2 <= magnitudeToRadius 3 0.2 2 6 <= 2.
Proof.
  assert (H1 : 0.2 <= 2) by lra.
  assert (H2 : 6 <> -1.5) by lra.
  split; [exact H1 |]. split; [exact H2 |].
  exact (magnitude_radius_range 3 0.2 2 6 H1 H2).
Defined.

(** ** The collision detector *)

Lemma disjointBoxes_snoc (placed : list BoundingBox) (b : BoundingBox) :
  disjointBoxes placed ->
  Forall (fun p => intersects b p = false) placed ->
  disjointBoxes (placed ++ [b]).
Proof.
  unfold disjointBoxes.
  induction 1 as [| a l Ha Hl IH]; intros Hb; cbn [app].
  - constructor; constructor.
  - inversion Hb as [| ? ? Hba Hbl]; subst.
    constructor.
    + apply Forall_app. split; [exact Ha |].
      constructor; [| constructor]. now rewrite intersects_sym.
    + exact (IH Hbl).
Qed.

(** X9.  [tryPlace] keeps the placed boxes pairwise disjoint and never
    changes the padding.  When it returns true the detector has gained
    exactly the estimated box of the label, at the end; when it returns
    false the detector is unchanged and the box of the label hits a box
    placed before. *)
Theorem tryPlace_keeps_disjoint (d : LabelCollisionDetector) (px py : R)
    (text : string) (anchor : Anchor) (fontSize : R) :
  disjointBoxes (placedLabels d) ->
  let bbox := estimateBoundingBox d px py text anchor fontSize in
  let out := tryPlace d px py text anchor fontSize in
  disjointBoxes (placedLabels (fst out))
  /\ padding (fst out) = padding d
  /\ (snd out = true -> placedLabels (fst out) = placedLabels d ++ [bbox])
  /\ (snd out = false ->
      fst out = d
      /\ exists p, In p (placedLabels d) /\ intersects bbox p = true).
Proof.
  intros Hd. cbv zeta. unfold tryPlace, canPlace. cbv zeta.
  destruct (canPlaceScan _ (placedLabels d)) eqn:E; cbn [fst snd place
    placedLabels padding].
  - repeat split; try easy.
    apply disjointBoxes_snoc; [exact Hd |].
    now apply canPlaceScan_Forall.
  - repeat split; try easy.
    clear Hd. induction (placedLabels d) as [| p l IH];
      cbn [canPlaceScan] in E; [discriminate |].
    destruct (intersects _ p) eqn:Ei.
    + exists p. split; [now left | exact Ei].
    + destruct (IH E) as (q & Hq & Hi). exists q. split; [now right | exact Hi].
Qed.

(** On a detector that holds the box of one label, a label 100 units to
    the right is placed and a label 5 units to the right is refused. *)
Lemma tryPlace_far :
  snd (tryPlace oneLabel 100 0 "E" anchor_middle 14) = true.
Proof.
  unfold tryPlace, canPlace, oneLabel, place. cbv zeta.
  cbn [newLabelCollisionDetector placedLabels padding app canPlaceScan].
  unfold estimateBoundingBox, intersects.
  cbn [newLabelCollisionDetector padding String.length INR bb_x bb_y
       bb_width bb_height].
  js_cmp. cbn [orb negb snd]. reflexivity.
Qed.

Lemma tryPlace_near :
  snd (tryPlace oneLabel 5 0 "E" anchor_middle 14) = false.
Proof.
  unfold tryPlace, canPlace, oneLabel, place. cbv zeta.
  cbn [newLabelCollisionDetector placedLabels padding app canPlaceScan].
  unfold estimateBoundingBox, intersects.
  cbn [newLabelCollisionDetector padding String.length INR bb_x bb_y
       bb_width bb_height].
  js_cmp. cbn [orb negb snd]. reflexivity.
Qed.

Lemma tryPlace_keeps_disjoint_witness :
  disjointBoxes (placedLabels oneLabel)
  /\ List.length (placedLabels oneLabel) = 1%nat
  /\ (let out := tryPlace oneLabel 100 0 "E" anchor_middle 14 in
      snd out = true
      /\ List.length (placedLabels (fst out)) = 2%nat
      /\ disjointBoxes (placedLabels (fst out)))
  /\ (let out := tryPlace oneLabel 5 0 "E" anchor_middle 14 in
      snd out = false
      /\ fst out = oneLabel
      /\ exists p,
           In p (placedLabels oneLabel)
           /\ intersects
                (estimateBoundingBox oneLabel 5 0 "E" anchor_middle 14) p
              = true).
Proof.
  assert (H : disjointBoxes (placedLabels oneLabel)).
  { unfold oneLabel, place, disjointBoxes. cbn [placedLabels app
      newLabelCollisionDetector]. constructor; constructor. }
  split; [exact H |]. split; [reflexivity |].
  split.
  - destruct (tryPlace_keeps_disjoint oneLabel 100 0 "E" anchor_middle 14 H)
      as (Hd & _ & Ht & _).
    split; [exact tryPlace_far |].
    split; [| exact Hd].
    rewrite (Ht tryPlace_far), length_app. reflexivity.
  - destruct (tryPlace_keeps_disjoint oneLabel 5 0 "E" anchor_middle 14 H)
      as (_ & _ & _ & Hf).
    split; [exact tryPlace_near |].
    exact (Hf tryPlace_near).
Defined.

Lemma box_hits_itself (d : LabelCollisionDetector) (px py : R)
    (text : string) (anchor : Anchor) (fontSize : R) :
  0 <= fontSize -> 0 <= padding d ->
  let bbox := estimateBoundingBox d px py text anchor fontSize in
  intersects bbox bbox = true.
Proof.
  intros Hf Hp. cbv zeta. unfold intersects, estimateBoundingBox.
  cbn [bb_x bb_y bb_width bb_height].
  pose proof (pos_INR (String.length text)) as Hlen.
  assert (0 <= INR (String.length text) * (fontSize * 0.6)) by nra.
  js_cmp. reflexivity.
Qed.

(** X10.  A label is never placed twice: with a non-negative font size
    and padding, repeating a [tryPlace] call with the same arguments
    returns false and leaves the detector as the first call left it,
    whether the first call succeeded or not. *)
Theorem tryPlace_never_twice (d : LabelCollisionDetector) (px py : R)
    (text : string) (anchor : Anchor) (fontSize : R) :
  0 <= fontSize -> 0 <= padding d ->
  let first := tryPlace d px py text anchor fontSize in
  tryPlace (fst first) px py text anchor fontSize = (fst first, false).
Proof.
  intros Hf Hp. cbv zeta. unfold tryPlace at 2 3.
  destruct (canPlace d px py text anchor fontSize) eqn:E; cbn [fst].
  - unfold tryPlace.
    replace (canPlace (place d px py text anchor fontSize) px py text anchor
               fontSize) with false; [reflexivity |].
    symmetry. apply not_true_is_false. intros H.
    unfold canPlace in H. cbv zeta in H.
    apply canPlaceScan_Forall in H.
    cbn [place placedLabels] in H. cbv zeta in H.
    apply Forall_app in H. destruct H as [_ H].
    inversion H as [| ? ? Hi _]; subst.
    rewrite (estimateBoundingBox_padding _ d) in Hi by reflexivity.
    pose proof (box_hits_itself d px py text anchor fontSize Hf Hp) as Hs.
    cbv zeta in Hs. congruence.
  - unfold tryPlace. rewrite E. reflexivity.
Qed.

Lemma tryPlace_never_twice_witness :
  0 <= 14 /\ 0 <= padding (newLabelCollisionDetector 8)
  /\ let first :=
       tryPlace (newLabelCollisionDetector 8) 0 0 "N" anchor_middle 14 in
     tryPlace (fst first) 0 0 "N" anchor_middle 14 = (fst first, false).
Proof.
  assert (H1 : 0 <= 14) by lra.
  assert (H2 : 0 <= padding (newLabelCollisionDetector 8)) by (cbn; lra).
  split; [exact H1 |]. split; [exact H2 |].
  exact (tryPlace_never_twice (newLabelCollisionDetector 8) 0 0 "N"
           anchor_middle 14 H1 H2).
Defined.

(** ** Labels of different priority classes *)

Lemma layerBoxes_absent (fontSize : R) (m : LayerMap) (k : LayerType) :
  map_get m k = None -> layerBoxes fontSize m k = [].
Proof. unfold layerBoxes. now intros ->. Qed.

Lemma layerBoxes_set (fontSize : R) (m : LayerMap) (k : LayerType)
    (prims : list RenderPrimitive) :
  layerBoxes fontSize (map_set m k (mkLayer k prims)) k
  = labelBoxes fontSize prims.
Proof. unfold layerBoxes. now rewrite map_get_set_same. Qed.

Lemma layerBoxes_setIfNonEmpty (fontSize : R) (m : LayerMap) (k : LayerType)
    (prims : list RenderPrimitive) :
  map_get m k = None ->
  layerBoxes fontSize (setIfNonEmpty m k prims) k = labelBoxes fontSize prims.
Proof.
  intros Hm. unfold layerBoxes.
  rewrite map_get_setIfNonEmpty_same by exact Hm.
  now destruct prims.
Qed.

Lemma layerBoxes_same (fontSize : R) (m m' : LayerMap) (k : LayerType) :
  map_get m' k = map_get m k ->
  layerBoxes fontSize m' k = layerBoxes fontSize m k.
Proof. unfold layerBoxes. now intros ->. Qed.

Lemma stepPlaces_skip (fontSize : R) (k : LayerType) (m : LayerMap)
    (lc : LabelCollisionDetector) :
  padding lc = 8 -> map_get m k = None -> stepPlaces fontSize k lc (m, lc).
Proof.
  intros Hp Hm. unfold stepPlaces. cbn [fst snd].
  rewrite (layerBoxes_absent _ _ _ Hm), app_nil_r. cbn. auto.
Qed.

Lemma stepPlaces_loop (fontSize : R) (k : LayerType) (m : LayerMap)
    (lc lc' : LabelCollisionDetector) (prims : list RenderPrimitive) :
  map_get m k = None ->
  placementLoop fontSize lc (lc', prims) ->
  stepPlaces fontSize k lc (setIfNonEmpty m k prims, lc').
Proof.
  intros Hm (Hp & Hl & Hf). unfold stepPlaces. cbn [fst snd] in *.
  rewrite (layerBoxes_setIfNonEmpty _ _ _ _ Hm). auto.
Qed.

Section LabelStepsDetector.
Context {engine : AstronomyEngine} {host : Host}.
Variable constellationData : list Constellation.
Variables (observer : Observer) (options : RenderOptions).
Variables (center scale degreeRingInnerRadius : R).

Lemma constellationNamesStep_places m lc st :
  padding lc = 8 ->
  map_get m layer_constellation_names = None ->
  constellationNamesStep constellationData observer options center scale
    degreeRingInnerRadius m lc = Ok st ->
  stepPlaces 11 layer_constellation_names lc st.
Proof.
  intros Hp Hm. unfold constellationNamesStep.
  destruct showConstellationNames; intros H.
  - bind_inv H.
    match type of H with
    | context [placeConstellationLabels ?ls lc] =>
        pose proof (placeConstellationLabels_loop ls lc Hp) as HL;
        destruct (placeConstellationLabels ls lc) as [lc' prims]
    end.
    apply Ok_inj in H. subst st. now apply stepPlaces_loop.
  - apply Ok_inj in H. subst st. now apply stepPlaces_skip.
Qed.

Lemma starNamesStep_places projectedStars m lc :
  padding lc = 8 ->
  map_get m layer_star_names = None ->
  stepPlaces 9 layer_star_names lc
    (starNamesStep options projectedStars center degreeRingInnerRadius m lc).
Proof.
  intros Hp Hm. unfold starNamesStep.
  destruct showStarNames.
  - match goal with
    | |- context [placeStarNames ?ls lc] =>
        pose proof (placeStarNames_loop ls lc Hp) as HL;
        destruct (placeStarNames ls lc) as [lc' prims]
    end.
    now apply stepPlaces_loop.
  - now apply stepPlaces_skip.
Qed.

Lemma planetsStep_places m lc st :
  padding lc = 8 ->
  map_get m layer_planets = None ->
  planetsStep observer options center scale degreeRingInnerRadius m lc
  = Ok st ->
  stepPlaces 9 layer_planets lc st.
Proof.
  intros Hp Hm. unfold planetsStep.
  destruct showPlanets; intros H.
  - bind_inv H.
    match type of H with
    | context [placePlanets ?ps ?c ?s ?r lc] =>
        pose proof (placePlanets_loop ps c s r lc Hp) as HL;
        destruct (placePlanets ps c s r lc) as [lc' prims]
    end.
    apply Ok_inj in H. subst st. now apply stepPlaces_loop.
  - apply Ok_inj in H. subst st. now apply stepPlaces_skip.
Qed.

(** The cardinal step adds the boxes of its four markers without a
    test. *)
Lemma cardinalsStep_places m lc :
  padding lc = 8 ->
  map_get m layer_cardinals = None ->
  let st := cardinalsStep options center scale m lc in
  placedLabels (snd st)
  = placedLabels lc ++ layerBoxes 14 (fst st) layer_cardinals.
Proof.
  intros Hp Hm. unfold cardinalsStep. destruct showCardinals.
  - pose proof (placeCardinals_placed cardinalMarkers center scale lc Hp)
      as H.
    destruct placeCardinals as [lc' prims]. cbn [fst snd] in *.
    rewrite layerBoxes_set. tauto.
  - cbn [fst snd]. now rewrite (layerBoxes_absent _ _ _ Hm), app_nil_r.
Qed.

Lemma degreeRingStep_places m lc :
  padding lc = 8 ->
  stepPlaces 8 layer_degree_ring lc
    (degreeRingStep options center scale m lc)
  \/ (showDegreeRing options = false
      /\ degreeRingStep options center scale m lc = (m, lc)).
Proof.
  intros Hp. unfold degreeRingStep. destruct showDegreeRing; [left | now right].
  pose proof (degreeRing_loop center scale lc Hp) as (Hp' & Hl & Hf).
  destruct (degreeRing center scale lc) as [lc' prims].
  unfold stepPlaces. cbn [fst snd] in *.
  rewrite layerBoxes_set. auto.
Qed.
End LabelStepsDetector.

Section LabelClasses.
Context {engine : AstronomyEngine} {host : Host}.
Variable constellationData : list Constellation.
Variables (stars : list CatalogStar) (observer : Observer).
Variables (options : RenderOptions) (viewportSize : R).
Variable t : BuildTrace.
Hypothesis Ht :
  buildTraceOf constellationData stars observer options viewportSize t.

Lemma names_places :
  stepPlaces 11 layer_constellation_names (newLabelCollisionDetector 8)
    (tr_names t).
Proof.
  destruct Ht as (_ & _ & E3 & _).
  eapply constellationNamesStep_places; [| | exact E3].
  - reflexivity.
  - apply (at_lines _ _ _ _ _ _ Ht); discriminate.
Qed.

Lemma starNames_places :
  stepPlaces 9 layer_star_names (snd (tr_names t)) (tr_starNames t).
Proof.
  destruct Ht as (_ & _ & _ & E4 & _). rewrite <- E4.
  apply starNamesStep_places; [exact (proj1 names_places) |].
  apply (at_names _ _ _ _ _ _ Ht); discriminate.
Qed.

Lemma planets_places :
  stepPlaces 9 layer_planets (snd (tr_starNames t)) (tr_planets t).
Proof.
  destruct Ht as (_ & _ & _ & _ & E5 & _).
  eapply planetsStep_places; [| | exact E5].
  - exact (proj1 starNames_places).
  - apply (at_starNames _ _ _ _ _ _ Ht); discriminate.
Qed.

Lemma at_grid (k : LayerType) :
  k <> layer_topo_contours -> k <> layer_stars -> k <> layer_star_glow ->
  k <> layer_constellations -> k <> layer_constellation_names ->
  k <> layer_star_names -> k <> layer_planets ->
  k <> layer_horizon -> k <> layer_grid ->
  map_get (tr_grid t) k = None.
Proof.
  intros K1 K2 K3 K4 K5 K6 K7 K8 K9.
  destruct Ht as (_ & _ & _ & _ & _ & E6 & _).
  rewrite (gridStep_same _ _ _ _ _ _ E6) by congruence.
  rewrite horizonStep_same by congruence.
  now apply (at_planets _ _ _ _ _ _ Ht).
Qed.

Lemma cardinals_places :
  padding (snd (tr_cardinals t)) = 8
  /\ placedLabels (snd (tr_cardinals t))
     = placedLabels (snd (tr_planets t))
       ++ layerBoxes 14 (fst (tr_cardinals t)) layer_cardinals.
Proof.
  destruct Ht as (_ & _ & _ & _ & _ & _ & E7 & _). rewrite <- E7. split.
  - apply cardinalsStep_padding. exact (proj1 planets_places).
  - apply cardinalsStep_places; [exact (proj1 planets_places) |].
    apply at_grid; discriminate.
Qed.

(** The boxes of a label layer in the result are those its step left. *)
Lemma final_names_boxes :
  layerBoxes 11 (tr_metadata t) layer_constellation_names
  = layerBoxes 11 (fst (tr_names t)) layer_constellation_names.
Proof.
  apply layerBoxes_same. apply (after_names _ _ _ _ _ _ Ht); discriminate.
Qed.

Lemma final_starNames_boxes :
  layerBoxes 9 (tr_metadata t) layer_star_names
  = layerBoxes 9 (fst (tr_starNames t)) layer_star_names.
Proof.
  apply layerBoxes_same.
  apply (after_starNames _ _ _ _ _ _ Ht); discriminate.
Qed.

Lemma final_planets_boxes :
  layerBoxes 9 (tr_metadata t) layer_planets
  = layerBoxes 9 (fst (tr_planets t)) layer_planets.
Proof.
  apply layerBoxes_same. apply (after_planets _ _ _ _ _ _ Ht); discriminate.
Qed.

Lemma final_cardinals_boxes :
  layerBoxes 14 (tr_metadata t) layer_cardinals
  = layerBoxes 14 (fst (tr_cardinals t)) layer_cardinals.
Proof.
  apply layerBoxes_same.
  destruct Ht as (_ & _ & _ & _ & _ & _ & _ & E8 & E9).
  rewrite (metadataStep_same _ _ _ _ _ _ E9) by discriminate.
  rewrite <- E8, degreeRingStep_same by discriminate.
  reflexivity.
Qed.

Lemma final_degreeRing_boxes :
  layerBoxes 8 (tr_metadata t) layer_degree_ring
  = layerBoxes 8 (fst (tr_degreeRing t)) layer_degree_ring.
Proof.
  apply layerBoxes_same.
  destruct Ht as (_ & _ & _ & _ & _ & _ & _ & _ & E9).
  rewrite (metadataStep_same _ _ _ _ _ _ E9) by discriminate.
  reflexivity.
Qed.

(** The labels that went through [tryPlace] before the cardinal step are
    pairwise disjoint across their three layers, and a degree-ring label
    hits no label placed before it, the cardinal markers included. *)
Lemma label_classes :
  let m := tr_metadata t in
  disjointBoxes
    (layerBoxes 11 m layer_constellation_names
     ++ layerBoxes 9 m layer_star_names
     ++ layerBoxes 9 m layer_planets)
  /\ forall b p,
       In b (layerBoxes 8 m layer_degree_ring) ->
       In p (layerBoxes 11 m layer_constellation_names
             ++ layerBoxes 9 m layer_star_names
             ++ layerBoxes 9 m layer_planets
             ++ layerBoxes 14 m layer_cardinals) ->
       intersects b p = false.
Proof.
  cbv zeta.
  rewrite final_names_boxes, final_starNames_boxes, final_planets_boxes,
    final_cardinals_boxes, final_degreeRing_boxes.
  destruct names_places as (_ & L1 & F1).
  destruct starNames_places as (_ & L2 & F2).
  destruct planets_places as (_ & L3 & F3).
  destruct cardinals_places as (P4 & L4).
  cbn [newLabelCollisionDetector placedLabels app] in L1, F1.
  rewrite L1 in L2, F2. rewrite L2 in L3, F3. rewrite L3 in L4.
  set (B1 := layerBoxes 11 (fst (tr_names t)) layer_constellation_names) in *.
  set (B2 := layerBoxes 9 (fst (tr_starNames t)) layer_star_names) in *.
  set (B3 := layerBoxes 9 (fst (tr_planets t)) layer_planets) in *.
  set (B4 := layerBoxes 14 (fst (tr_cardinals t)) layer_cardinals) in *.
  split.
  - apply (placedFreely_disjoint []).
    apply placedFreely_app; [exact F1 |].
    apply placedFreely_app; [exact F2 |].
    rewrite app_nil_l. exact F3.
  - destruct Ht as (_ & _ & _ & _ & _ & _ & _ & E8 & _).
    destruct (degreeRingStep_places options (viewportSize / 2)
                (viewportSize / 2 * 0.91) (fst (tr_cardinals t))
                (snd (tr_cardinals t)) P4) as [(_ & _ & F5) | (_ & E)].
    + rewrite E8 in F5. rewrite L4 in F5.
      intros b p Hb Hp.
      apply (placedFreely_prior _ _ F5 p b); [| exact Hb].
      rewrite <- !app_assoc. exact Hp.
    + rewrite E8 in E.
      intros b p Hb. exfalso. revert Hb.
      rewrite layerBoxes_absent; [easy |].
      rewrite E. cbn [fst]. apply (at_cardinals _ _ _ _ _ _ Ht); discriminate.
Qed.
End LabelClasses.

(** X11.  In a geometry built by [buildStarMapGeometry] the labels of the
    constellation names, the star names and the planets are pairwise
    disjoint across the three layers, not only within each of them, and no
    degree-ring label intersects a constellation name, a star name, a
    planet label or a cardinal marker.  (Boxes as the collision detector
    estimates them, padding 8, with the font size of each class.) *)
Theorem label_classes_do_not_overlap
    {engine : AstronomyEngine} {host : Host}
    (constellationData : list Constellation)
    (stars : list CatalogStar) (observer : Observer)
    (options : RenderOptions) (viewportSize : R) (g : StarMapGeometry) :
  buildStarMapGeometry constellationData stars observer options viewportSize
  = Ok g ->
  disjointBoxes
    (layerBoxes 11 (layers g) layer_constellation_names
     ++ layerBoxes 9 (layers g) layer_star_names
     ++ layerBoxes 9 (layers g) layer_planets)
  /\ forall b p,
       In b (layerBoxes 8 (layers g) layer_degree_ring) ->
       In p (layerBoxes 11 (layers g) layer_constellation_names
             ++ layerBoxes 9 (layers g) layer_star_names
             ++ layerBoxes 9 (layers g) layer_planets
             ++ layerBoxes 14 (layers g) layer_cardinals) ->
       intersects b p = false.
Proof.
  intros H. apply build_trace in H. destruct H as (t & Ht & ->).
  exact (label_classes _ _ _ _ _ _ Ht).
Qed.

Lemma label_classes_do_not_overlap_witness :
  exists g,
    buildStarMapGeometry (engine := toyEngine) (host := stubHost)
      [triangle] threeStars greenwich linesAndPlanets 500 = Ok g
    /\ disjointBoxes
         (layerBoxes 11 (layers g) layer_constellation_names
          ++ layerBoxes 9 (layers g) layer_star_names
          ++ layerBoxes 9 (layers g) layer_planets).
Proof.
  destruct (toy_build_returns [triangle] threeStars linesAndPlanets 500)
    as [g Hg].
  exists g. split; [exact Hg |].
  exact (proj1 (label_classes_do_not_overlap [triangle] threeStars greenwich
                  linesAndPlanets 500 g Hg)).
Defined.

(** ** The stars layer *)

Lemma distance_of_projection (alt az center scale : R) :
  let p := projectAzimuthalEquidistant alt az DEFAULT_PROJECTION_CONFIG in
  distanceFromCenter (center + proj_x p * scale) (center + proj_y p * scale)
    center
  = Rabs ((90 - alt) / 90 * scale).
Proof.
  unfold distanceFromCenter, projectAzimuthalEquidistant.
  cbn [DEFAULT_PROJECTION_CONFIG centerAltitude maxRadius northUp eastRight
       negb proj_x proj_y].
  set (t := az * PI / 180).
  set (r := (90 - alt) / 90).
  replace ((center + r * 1 * sin t * scale - center)
           * (center + r * 1 * sin t * scale - center)
           + (center + - (r * 1) * cos t * scale - center)
             * (center + - (r * 1) * cos t * scale - center))
    with ((r * scale)² * ((sin t)² + (cos t)²))
    by (unfold Rsqr; ring).
  rewrite sin2_cos2, Rmult_1_r. apply sqrt_Rsqr_abs.
Qed.

(** Whatever altitude the engine reports, a projected point strictly
    inside the ring-exclusion radius stands more than 3.6 degrees above
    the horizon. *)
Lemma inside_ring_altitude (alt az center scale : R) :
  0 < scale ->
  let p := projectAzimuthalEquidistant alt az DEFAULT_PROJECTION_CONFIG in
  distanceFromCenter (center + proj_x p * scale) (center + proj_y p * scale)
    center < scale * 0.96 ->
  3.6 < alt.
Proof.
  intros Hs. cbv zeta. rewrite distance_of_projection.
  intros H. apply Rabs_def2 in H. destruct H as [H _].
  assert ((90 - alt) / 90 < 0.96) by nra.
  lra.
Qed.

Section ProjectedStarsOrigin.
Context {engine : AstronomyEngine}.
Variables (observer : Observer) (options : RenderOptions).
Variables (center scale : R).

(** The catalog star a projected star was computed from. *)
Lemma projectStars_In (stars : list CatalogStar)
    (projectedStars : list ProjectedStar) (p : ProjectedStar) :
  projectStars stars observer options center scale = Ok projectedStars ->
  In p projectedStars ->
  exists star coords,
    In star stars
    /\ mag star <= magnitudeLimit options
    /\ raDecToAltAz (ra star) (dec star) observer = Ok coords
    /\ 0 < altitude coords
    /\ p = {| ps_hip := hip star;
              ps_x :=
                center
                + proj_x (projectAzimuthalEquidistant (altitude coords)
                            (azimuth coords) DEFAULT_PROJECTION_CONFIG)
                  * scale;
              ps_y :=
                center
                + proj_y (projectAzimuthalEquidistant (altitude coords)
                            (azimuth coords) DEFAULT_PROJECTION_CONFIG)
                  * scale;
              ps_altitude := altitude coords;
              ps_azimuth := azimuth coords;
              ps_magnitude := mag star;
              ps_radius :=
                magnitudeToRadius (mag star) (starSizeMin options)
                  (starSizeMax options) (magnitudeLimit options);
              ps_name := name star |}.
Proof.
  revert projectedStars.
  induction stars as [| star rest IH]; intros ps H Hp; cbn [projectStars] in H.
  - apply Ok_inj in H. subst ps. destruct Hp.
  - destruct (mag star >? magnitudeLimit options) eqn:Em.
    { destruct (IH ps H Hp) as (s & c & Hs & Hrest).
      exists s, c. split; [now right | exact Hrest]. }
    bind_inv H. cbv zeta in H.
    destruct (altitude v <=? 0) eqn:Ea.
    { destruct (IH ps H Hp) as (s & c & Hs & Hrest).
      exists s, c. split; [now right | exact Hrest]. }
    bind_inv H. apply Ok_inj in H. subst ps.
    destruct Hp as [<- | Hp].
    + exists star, v. split; [now left |].
      split; [now apply Rgtb_false |].
      split; [exact E |].
      split; [now apply Rleb_false | reflexivity].
    + destruct (IH v0 E0 Hp) as (s & c & Hs & Hrest).
      exists s, c. split; [now right | exact Hrest].
Qed.

Lemma projectStars_length (stars : list CatalogStar)
    (projectedStars : list ProjectedStar) :
  projectStars stars observer options center scale = Ok projectedStars ->
  (List.length projectedStars <= List.length stars)%nat.
Proof.
  revert projectedStars.
  induction stars as [| star rest IH]; intros ps H; cbn [projectStars] in H.
  - apply Ok_inj in H. subst ps. reflexivity.
  - destruct (mag star >? magnitudeLimit options).
    { specialize (IH ps H). cbn [List.length]. lia. }
    bind_inv H. cbv zeta in H.
    destruct (altitude v <=? 0).
    { specialize (IH ps H). cbn [List.length]. lia. }
    bind_inv H. apply Ok_inj in H. subst ps.
    specialize (IH v0 E0). cbn [List.length]. lia.
Qed.
End ProjectedStarsOrigin.

(** X12.  On a viewport of positive size, every primitive of the stars
    layer is the circle of a catalog star that is within the magnitude
    limit and that the engine puts more than 3.6 degrees above the
    horizon (the ring exclusion keeps the band next to the horizon free):
    the circle is centred on the scaled projection of the star, has the
    radius [magnitudeToRadius] gives and carries the star's HIP number. *)
Theorem drawn_stars
    {engine : AstronomyEngine} {host : Host}
    (constellationData : list Constellation)
    (stars : list CatalogStar) (observer : Observer)
    (options : RenderOptions) (viewportSize : R) (g : StarMapGeometry)
    (layer : RenderLayer) (prim : RenderPrimitive) :
  0 < viewportSize ->
  buildStarMapGeometry constellationData stars observer options viewportSize
  = Ok g ->
  map_get (layers g) layer_stars = Some layer ->
  In prim (primitives layer) ->
  let center := viewportSize / 2 in
  let scale := viewportSize / 2 * 0.91 in
  exists star coords,
    In star stars
    /\ mag star <= magnitudeLimit options
    /\ raDecToAltAz (ra star) (dec star) observer = Ok coords
    /\ 3.6 < altitude coords
    /\ prim
       = createCircle
           (center
            + proj_x (projectAzimuthalEquidistant (altitude coords)
                        (azimuth coords) DEFAULT_PROJECTION_CONFIG) * scale)
           (center
            + proj_y (projectAzimuthalEquidistant (altitude coords)
                        (azimuth coords) DEFAULT_PROJECTION_CONFIG) * scale)
           (magnitudeToRadius (mag star) (starSizeMin options)
              (starSizeMax options) (magnitudeLimit options))
           (Some (hip star)).
Proof.
  intros Hv H Hl Hp. cbv zeta.
  apply build_trace in H. destruct H as (t & Ht & ->).
  cbn [layers geometryOfTrace] in Hl.
  rewrite (stars_layer _ _ _ _ _ _ Ht) in Hl.
  injection Hl as <-. cbn [primitives mkLayer] in Hp.
  apply in_map_iff in Hp. destruct Hp as (p & <- & Hp).
  apply filter_In in Hp. destruct Hp as [Hp Hin].
  destruct Ht as (E1 & _).
  destruct (projectStars_In _ _ _ _ _ _ p E1 Hp)
    as (star & coords & Hs & Hm & Hc & _ & ->).
  exists star, coords.
  split; [exact Hs |]. split; [exact Hm |]. split; [exact Hc |].
  split; [| reflexivity].
  unfold insideDegreeRing in Hin. cbn [ps_x ps_y] in Hin.
  apply Rltb_true in Hin.
  apply (inside_ring_altitude _ (azimuth coords) (viewportSize / 2)
           (viewportSize / 2 * 0.91)); [lra |].
  exact Hin.
Qed.

(** X13.  The three star counts of a build are ordered: the stars layer
    holds at most [visibleStarCount] circles, and [visibleStarCount] is at
    most [starCount], the number of stars handed to the builder. *)
Theorem star_counts_ordered
    {engine : AstronomyEngine} {host : Host}
    (constellationData : list Constellation)
    (stars : list CatalogStar) (observer : Observer)
    (options : RenderOptions) (viewportSize : R) (g : StarMapGeometry) :
  buildStarMapGeometry constellationData stars observer options viewportSize
  = Ok g ->
  exists layer,
    map_get (layers g) layer_stars = Some layer
    /\ (List.length (primitives layer) <= visibleStarCount (metadata g))%nat
    /\ (visibleStarCount (metadata g) <= starCount (metadata g))%nat
    /\ starCount (metadata g) = List.length stars.
Proof.
  intros H. apply build_trace in H. destruct H as (t & Ht & ->).
  cbn [layers metadata geometryOfTrace starCount visibleStarCount].
  rewrite (stars_layer _ _ _ _ _ _ Ht).
  eexists. split; [reflexivity |].
  cbn [primitives mkLayer]. rewrite length_map.
  split; [apply filter_length_le |].
  split; [| reflexivity].
  destruct Ht as (E1 & _).
  exact (projectStars_length _ _ _ _ _ _ E1).
Qed.

Lemma nova_stars_layer :
  exists g,
    buildStarMapGeometry (engine := toyEngine) (host := stubHost)
      [] [nova] greenwich namesAndCardinals 500 = Ok g
    /\ map_get (layers g) layer_stars
       = Some (mkLayer layer_stars [novaCircle]).
Proof.
  destruct (toy_build_returns [] [nova] namesAndCardinals 500) as [g Hg].
  exists g. split; [exact Hg |].
  apply build_trace in Hg. destruct Hg as (t & Ht & ->).
  cbn [layers geometryOfTrace].
  rewrite (stars_layer _ _ _ _ _ _ Ht).
  destruct Ht as (E1 & _). rewrite nova_projected in E1.
  apply Ok_inj in E1. rewrite <- E1.
  cbn [filter]. rewrite nova_inside. reflexivity.
Qed.

Lemma drawn_stars_witness :
  exists g layer star coords,
    0 < 500
    /\ buildStarMapGeometry (engine := toyEngine) (host := stubHost)
         [] [nova] greenwich namesAndCardinals 500 = Ok g
    /\ map_get (layers g) layer_stars = Some layer
    /\ In novaCircle (primitives layer)
    /\ In star [nova]
    /\ 3.6 < altitude coords.
Proof.
  destruct nova_stars_layer as (g & Hg & Hl).
  assert (Hv : 0 < 500) by lra.
  assert (Hin : In novaCircle (primitives (mkLayer layer_stars [novaCircle])))
    by (now left).
  destruct (drawn_stars [] [nova] greenwich namesAndCardinals 500 g _
              novaCircle Hv Hg Hl Hin)
    as (star & coords & Hs & _ & _ & Ha & _).
  exists g, (mkLayer layer_stars [novaCircle]), star, coords.
  repeat split; assumption.
Defined.

Lemma star_counts_ordered_witness :
  exists g,
    buildStarMapGeometry (engine := toyEngine) (host := stubHost)
      [triangle] threeStars greenwich linesAndPlanets 500 = Ok g
    /\ (visibleStarCount (metadata g) <= starCount (metadata g))%nat
    /\ starCount (metadata g) = 3%nat.
Proof.
  destruct (toy_build_returns [triangle] threeStars linesAndPlanets 500)
    as [g Hg].
  destruct (star_counts_ordered [triangle] threeStars greenwich
              linesAndPlanets 500 g Hg) as (layer & _ & _ & Hle & Hn).
  exists g. split; [exact Hg |]. split; [exact Hle | exact Hn].
Defined.

(** ** Which layers a geometry holds *)

Lemma wellKeyed_nil (options : RenderOptions) : wellKeyed options [].
Proof. intros k layer H. discriminate H. Qed.

Lemma wellKeyed_set (options : RenderOptions) (m : LayerMap) (k : LayerType)
    (prims : list RenderPrimitive) :
  wellKeyed options m -> layerEnabled options k = true ->
  wellKeyed options (map_set m k (mkLayer k prims)).
Proof.
  intros Hm Hk k' layer. rewrite map_get_set_cases.
  destruct (LayerType_eqb k k') eqn:E; [| apply Hm].
  apply LayerType_eqb_eq in E. subst k'. intros [= <-]. auto.
Qed.

Lemma wellKeyed_setIfNonEmpty (options : RenderOptions) (m : LayerMap)
    (k : LayerType) (prims : list RenderPrimitive) :
  wellKeyed options m -> (prims <> [] -> layerEnabled options k = true) ->
  wellKeyed options (setIfNonEmpty m k prims).
Proof.
  intros Hm Hk. unfold setIfNonEmpty. destruct prims as [| p prims].
  - exact Hm.
  - apply wellKeyed_set; [exact Hm | apply Hk; discriminate].
Qed.

Lemma metadataTexts_enabled {host : Host} (observer : Observer)
    (options : RenderOptions) (center viewportSize : R)
    (prims : list RenderPrimitive) :
  metadataTexts observer options center viewportSize = Ok prims ->
  prims <> [] ->
  showMapCoordinates options || showMapDate options = true.
Proof.
  unfold metadataTexts.
  destruct showMapCoordinates, showMapDate; cbn [orb]; try easy.
  intros H. apply Ok_inj in H. now subst prims.
Qed.

(** Every step of the build stores its layer under the layer's own type
    and only when its option is on. *)
Lemma steps_keep_wellKeyed
    {engine : AstronomyEngine} {host : Host}
    (constellationData : list Constellation)
    (stars : list CatalogStar) (observer : Observer)
    (options : RenderOptions) (viewportSize : R) (t : BuildTrace) :
  buildTraceOf constellationData stars observer options viewportSize t ->
  wellKeyed options (tr_metadata t).
Proof.
  intros (_ & E2 & E3 & E4 & E5 & E6 & E7 & E8 & E9).
  assert (H2 : wellKeyed options (tr_lines t)).
  { unfold constellationsStep in E2.
    match type of E2 with
    | context [starGlowStep ?o ?f (starsStep ?f (topoContoursStep ?o ?c ?s []))] =>
        assert (H0 : wellKeyed options
                       (starGlowStep o f (starsStep f (topoContoursStep o c s []))))
    end.
    { unfold starGlowStep, starsStep, topoContoursStep.
      destruct (_ || _) eqn:Eg; destruct showTopoContours eqn:Et;
        repeat first [ apply wellKeyed_setIfNonEmpty; [| intros _ ]
                     | apply wellKeyed_set
                     | apply wellKeyed_nil ];
        cbn [layerEnabled]; auto. }
    destruct showConstellations eqn:Ec.
    - bind_inv E2. apply Ok_inj in E2. rewrite <- E2.
      apply wellKeyed_setIfNonEmpty; [exact H0 | now intros _]. 
    - apply Ok_inj in E2. now rewrite <- E2. }
  assert (H3 : wellKeyed options (fst (tr_names t))).
  { unfold constellationNamesStep in E3.
    destruct showConstellationNames eqn:Ec.
    - bind_inv E3. destruct placeConstellationLabels.
      apply Ok_inj in E3. rewrite <- E3. cbn [fst].
      apply wellKeyed_setIfNonEmpty; [exact H2 | now intros _].
    - apply Ok_inj in E3. now rewrite <- E3. }
  assert (H4 : wellKeyed options (fst (tr_starNames t))).
  { rewrite <- E4. unfold starNamesStep. destruct showStarNames eqn:Ec.
    - destruct placeStarNames. cbn [fst].
      apply wellKeyed_setIfNonEmpty; [exact H3 | now intros _].
    - exact H3. }
  assert (H5 : wellKeyed options (fst (tr_planets t))).
  { unfold planetsStep in E5. destruct showPlanets eqn:Ec.
    - bind_inv E5. destruct placePlanets.
      apply Ok_inj in E5. rewrite <- E5. cbn [fst].
      apply wellKeyed_setIfNonEmpty; [exact H4 | now intros _].
    - apply Ok_inj in E5. now rewrite <- E5. }
  assert (H6 : wellKeyed options (tr_grid t)).
  { unfold gridStep, horizonStep in E6.
    match type of E6 with
    | (if _ then _ <- _ ;; Ok (map_set ?m _ _) else _) = _ =>
        assert (H0 : wellKeyed options m)
    end.
    { destruct showHorizon eqn:Eh; [| exact H5].
      apply wellKeyed_set; [exact H5 | exact Eh]. }
    destruct showGrid eqn:Eg.
    - bind_inv E6. apply Ok_inj in E6. rewrite <- E6.
      apply wellKeyed_set; [exact H0 | exact Eg].
    - apply Ok_inj in E6. now rewrite <- E6. }
  assert (H7 : wellKeyed options (fst (tr_cardinals t))).
  { rewrite <- E7. unfold cardinalsStep.
    destruct showCardinals eqn:Ec; [| exact H6].
    destruct placeCardinals. cbn [fst].
    apply wellKeyed_set; [exact H6 | exact Ec]. }
  assert (H8 : wellKeyed options (fst (tr_degreeRing t))).
  { rewrite <- E8. unfold degreeRingStep.
    destruct showDegreeRing eqn:Ec; [| exact H7].
    destruct degreeRing. cbn [fst].
    apply wellKeyed_set; [exact H7 | exact Ec]. }
  unfold metadataStep in E9. bind_inv E9. apply Ok_inj in E9.
  rewrite <- E9.
  apply wellKeyed_setIfNonEmpty; [exact H8 |].
  exact (metadataTexts_enabled _ _ _ _ _ E).
Qed.

Section UnguardedLayers.
Context {engine : AstronomyEngine} {host : Host}.
Variable constellationData : list Constellation.
Variables (stars : list CatalogStar) (observer : Observer).
Variables (options : RenderOptions) (viewportSize : R).
Variable t : BuildTrace.
Hypothesis Ht :
  buildTraceOf constellationData stars observer options viewportSize t.

Lemma topo_contours_layer :
  showTopoContours options = true ->
  map_get (tr_metadata t) layer_topo_contours
  = Some (mkLayer layer_topo_contours
            (topoContours (viewportSize / 2) (viewportSize / 2 * 0.91))).
Proof.
  intros Hf. rewrite (after_lines _ _ _ _ _ _ Ht) by discriminate.
  destruct Ht as (_ & E2 & _).
  rewrite (constellationsStep_same _ _ _ _ _ _ _ _ E2) by discriminate.
  rewrite starGlowStep_same, starsStep_same by discriminate.
  unfold topoContoursStep. rewrite Hf. apply map_get_set_same.
Qed.

Lemma horizon_layer :
  showHorizon options = true ->
  map_get (tr_metadata t) layer_horizon
  = Some (mkLayer layer_horizon
            [horizonPath (viewportSize / 2) (viewportSize / 2 * 0.91)]).
Proof.
  intros Hf.
  destruct Ht as (_ & _ & _ & _ & _ & E6 & E7 & E8 & E9).
  rewrite (metadataStep_same _ _ _ _ _ _ E9) by discriminate.
  rewrite <- E8, degreeRingStep_same by discriminate.
  rewrite <- E7, cardinalsStep_same by discriminate.
  rewrite (gridStep_same _ _ _ _ _ _ E6) by discriminate.
  unfold horizonStep. rewrite Hf. apply map_get_set_same.
Qed.

Lemma grid_layer :
  showGrid options = true ->
  exists gridPrimitives,
    gridPrimitivesOf observer (viewportSize / 2) (viewportSize / 2 * 0.91)
    = Ok gridPrimitives
    /\ map_get (tr_metadata t) layer_grid
       = Some (mkLayer layer_grid gridPrimitives).
Proof.
  intros Hf.
  destruct Ht as (_ & _ & _ & _ & _ & E6 & E7 & E8 & E9).
  rewrite (metadataStep_same _ _ _ _ _ _ E9) by discriminate.
  rewrite <- E8, degreeRingStep_same by discriminate.
  rewrite <- E7, cardinalsStep_same by discriminate.
  unfold gridStep in E6. rewrite Hf in E6. bind_inv E6.
  apply Ok_inj in E6. rewrite <- E6.
  exists v. split; [exact E | apply map_get_set_same].
Qed.

Lemma cardinals_layer :
  showCardinals options = true ->
  map_get (tr_metadata t) layer_cardinals
  = Some (mkLayer layer_cardinals
            (snd (placeCardinals cardinalMarkers (viewportSize / 2)
                    (viewportSize / 2 * 0.91) (snd (tr_planets t))))).
Proof.
  intros Hf.
  destruct Ht as (_ & _ & _ & _ & _ & _ & E7 & E8 & E9).
  rewrite (metadataStep_same _ _ _ _ _ _ E9) by discriminate.
  rewrite <- E8, degreeRingStep_same by discriminate.
  rewrite <- E7. unfold cardinalsStep. rewrite Hf.
  destruct placeCardinals. cbn [fst snd]. apply map_get_set_same.
Qed.

Lemma degree_ring_layer :
  showDegreeRing options = true ->
  map_get (tr_metadata t) layer_degree_ring
  = Some (mkLayer layer_degree_ring
            (snd (degreeRing (viewportSize / 2) (viewportSize / 2 * 0.91)
                    (snd (tr_cardinals t))))).
Proof.
  intros Hf.
  destruct Ht as (_ & _ & _ & _ & _ & _ & _ & E8 & E9).
  rewrite (metadataStep_same _ _ _ _ _ _ E9) by discriminate.
  rewrite <- E8. unfold degreeRingStep. rewrite Hf.
  destruct degreeRing. cbn [fst snd]. apply map_get_set_same.
Qed.
End UnguardedLayers.

(** X14.  A geometry holds a layer only when the option of the layer's
    step is on (so never a background or an hour-indices layer), and every
    layer is stored under its own type and is visible.  The six layers
    whose [layers.set] is not guarded by a length test (topographic
    contours, stars, horizon, grid, cardinals, degree ring) are in the map
    exactly when their option is on. *)
Theorem layers_follow_options
    {engine : AstronomyEngine} {host : Host}
    (constellationData : list Constellation)
    (stars : list CatalogStar) (observer : Observer)
    (options : RenderOptions) (viewportSize : R) (g : StarMapGeometry) :
  buildStarMapGeometry constellationData stars observer options viewportSize
  = Ok g ->
  (forall k layer,
     map_get (layers g) k = Some layer ->
     layerEnabled options k = true
     /\ type layer = k /\ layer_visible layer = true)
  /\ (forall k,
        unguardedLayer k = true ->
        layerEnabled options k = true ->
        exists layer, map_get (layers g) k = Some layer).
Proof.
  intros H. apply build_trace in H. destruct H as (t & Ht & ->).
  cbn [layers geometryOfTrace]. split.
  - exact (steps_keep_wellKeyed _ _ _ _ _ _ Ht).
  - intros k Hu He. destruct k; try discriminate Hu; cbn [layerEnabled] in He.
    + rewrite (topo_contours_layer _ _ _ _ _ _ Ht He). eauto.
    + destruct (grid_layer _ _ _ _ _ _ Ht He) as (prims & _ & ->). eauto.
    + rewrite (horizon_layer _ _ _ _ _ _ Ht He). eauto.
    + rewrite (stars_layer _ _ _ _ _ _ Ht). eauto.
    + rewrite (cardinals_layer _ _ _ _ _ _ Ht He). eauto.
    + rewrite (degree_ring_layer _ _ _ _ _ _ Ht He). eauto.
Qed.

Lemma layers_follow_options_witness :
  exists g,
    buildStarMapGeometry (engine := toyEngine) (host := stubHost)
      [triangle] threeStars greenwich linesAndPlanets 500 = Ok g
    /\ map_get (layers g) layer_background = None
    /\ map_get (layers g) layer_hour_indices = None.
Proof.
  destruct (toy_build_returns [triangle] threeStars linesAndPlanets 500)
    as [g Hg].
  exists g. split; [exact Hg |].
  pose proof (proj1 (layers_follow_options [triangle] threeStars greenwich
                       linesAndPlanets 500 g Hg)) as Hk.
  split.
  - destruct (map_get (layers g) layer_background) as [layer |] eqn:E;
      [| reflexivity].
    destruct (Hk _ _ E) as [Hf _]. discriminate Hf.
  - destruct (map_get (layers g) layer_hour_indices) as [layer |] eqn:E;
      [| reflexivity].
    destruct (Hk _ _ E) as [Hf _]. discriminate Hf.
Defined.

(** ** The cardinal markers and the horizon *)

Lemma cardinal_north :
  let p := projectAzimuthalEquidistant (-5) 0 DEFAULT_PROJECTION_CONFIG in
  proj_x p = 0 /\ proj_y p = - (95 / 90).
Proof.
  unfold projectAzimuthalEquidistant.
  cbn [DEFAULT_PROJECTION_CONFIG centerAltitude maxRadius northUp eastRight
       negb proj_x proj_y].
  replace (0 * PI / 180) with 0 by field.
  rewrite sin_0, cos_0. split; field.
Qed.

Lemma cardinal_east :
  let p := projectAzimuthalEquidistant (-5) 90 DEFAULT_PROJECTION_CONFIG in
  proj_x p = 95 / 90 /\ proj_y p = 0.
Proof.
  unfold projectAzimuthalEquidistant.
  cbn [DEFAULT_PROJECTION_CONFIG centerAltitude maxRadius northUp eastRight
       negb proj_x proj_y].
  replace (90 * PI / 180) with (PI / 2) by field.
  rewrite sin_PI2, cos_PI2. split; field.
Qed.

Lemma cardinal_south :
  let p := projectAzimuthalEquidistant (-5) 180 DEFAULT_PROJECTION_CONFIG in
  proj_x p = 0 /\ proj_y p = 95 / 90.
Proof.
  unfold projectAzimuthalEquidistant.
  cbn [DEFAULT_PROJECTION_CONFIG centerAltitude maxRadius northUp eastRight
       negb proj_x proj_y].
  replace (180 * PI / 180) with PI by field.
  rewrite sin_PI, cos_PI. split; field.
Qed.

Lemma cardinal_west :
  let p := projectAzimuthalEquidistant (-5) 270 DEFAULT_PROJECTION_CONFIG in
  proj_x p = - (95 / 90) /\ proj_y p = 0.
Proof.
  unfold projectAzimuthalEquidistant.
  cbn [DEFAULT_PROJECTION_CONFIG centerAltitude maxRadius northUp eastRight
       negb proj_x proj_y].
  replace (270 * PI / 180) with (3 * (PI / 2)) by field.
  rewrite sin_3PI2, cos_3PI2. split; field.
Qed.

(** X15.  With [showCardinals] on, the cardinals layer holds exactly the
    four markers N, E, S, W in this order, centred on the points straight
    above, right of, below and left of the centre of the map at
    [95 / 90] of the horizon radius: north is up and east is to the
    right. *)
Theorem cardinal_marker_positions
    {engine : AstronomyEngine} {host : Host}
    (constellationData : list Constellation)
    (stars : list CatalogStar) (observer : Observer)
    (options : RenderOptions) (viewportSize : R) (g : StarMapGeometry) :
  showCardinals options = true ->
  buildStarMapGeometry constellationData stars observer options viewportSize
  = Ok g ->
  let center := viewportSize / 2 in
  let scale := viewportSize / 2 * 0.91 in
  let d := 95 / 90 * scale in
  map_get (layers g) layer_cardinals
  = Some (mkLayer layer_cardinals
            [ createText center (center - d) "N" anchor_middle
                baseline_middle;
              createText (center + d) center "E" anchor_middle
                baseline_middle;
              createText center (center + d) "S" anchor_middle
                baseline_middle;
              createText (center - d) center "W" anchor_middle
                baseline_middle ]).
Proof.
  intros Hf H. cbv zeta.
  apply build_trace in H. destruct H as (t & Ht & ->).
  cbn [layers geometryOfTrace].
  rewrite (cardinals_layer _ _ _ _ _ _ Ht Hf), placeCardinals_markers.
  unfold cardinalMarkers. cbn [map].
  destruct cardinal_north as [Nx Ny]. destruct cardinal_east as [Ex Ey].
  destruct cardinal_south as [Sx Sy]. destruct cardinal_west as [Wx Wy].
  cbv zeta in Nx, Ny, Ex, Ey, Sx, Sy, Wx, Wy.
  rewrite Nx, Ny, Ex, Ey, Sx, Sy, Wx, Wy.
  unfold createText.
  repeat (f_equal; try lra).
Qed.

Lemma cardinal_marker_positions_witness :
  exists g,
    showCardinals cardinalsOnly = true
    /\ buildStarMapGeometry (engine := toyEngine) (host := stubHost)
         [] [] greenwich cardinalsOnly 500 = Ok g
    /\ exists layer,
         map_get (layers g) layer_cardinals = Some layer
         /\ List.length (primitives layer) = 4%nat.
Proof.
  destruct (toy_build_returns [] [] cardinalsOnly 500) as [g Hg].
  exists g. split; [reflexivity |]. split; [exact Hg |].
  eexists. split.
  - exact (cardinal_marker_positions [] [] greenwich cardinalsOnly 500 g
             eq_refl Hg).
  - reflexivity.
Defined.

(** X16.  With [showHorizon] on, on a viewport of non-negative size, the
    horizon layer is one closed path of 72 points, all at distance
    [scale] from the centre of the map. *)
Theorem horizon_is_a_circle
    {engine : AstronomyEngine} {host : Host}
    (constellationData : list Constellation)
    (stars : list CatalogStar) (observer : Observer)
    (options : RenderOptions) (viewportSize : R) (g : StarMapGeometry) :
  showHorizon options = true -> 0 <= viewportSize ->
  buildStarMapGeometry constellationData stars observer options viewportSize
  = Ok g ->
  let center := viewportSize / 2 in
  let scale := viewportSize / 2 * 0.91 in
  exists points,
    map_get (layers g) layer_horizon
    = Some (mkLayer layer_horizon [PathPrimitive points true])
    /\ List.length points = 72%nat
    /\ Forall (fun p => distanceFromCenter (x p) (y p) center = scale) points.
Proof.
  intros Hf Hv H. cbv zeta.
  apply build_trace in H. destruct H as (t & Ht & ->).
  cbn [layers geometryOfTrace].
  rewrite (horizon_layer _ _ _ _ _ _ Ht Hf).
  unfold horizonPath, createPath. cbv zeta.
  eexists. split; [reflexivity |].
  rewrite generateAltitudeCircle_map by lia.
  split.
  - now rewrite !length_map, length_seq.
  - apply Forall_forall. intros p Hp.
    apply in_map_iff in Hp. destruct Hp as (q & <- & Hq).
    apply in_map_iff in Hq. destruct Hq as (k & <- & _).
    cbn [x y pointOf].
    rewrite distance_of_projection.
    rewrite Rabs_right; [field | nra].
Qed.

Lemma horizon_is_a_circle_witness :
  exists g points,
    showHorizon linesAndPlanets = true /\ 0 <= 500
    /\ buildStarMapGeometry (engine := toyEngine) (host := stubHost)
         [triangle] threeStars greenwich linesAndPlanets 500 = Ok g
    /\ map_get (layers g) layer_horizon
       = Some (mkLayer layer_horizon [PathPrimitive points true])
    /\ List.length points = 72%nat.
Proof.
  destruct (toy_build_returns [triangle] threeStars linesAndPlanets 500)
    as [g Hg].
  assert (Hv : 0 <= 500) by lra.
  destruct (horizon_is_a_circle [triangle] threeStars greenwich
              linesAndPlanets 500 g eq_refl Hv Hg) as (points & Hl & Hn & _).
  exists g, points.
  split; [reflexivity |]. split; [exact Hv |]. split; [exact Hg |].
  split; [exact Hl | exact Hn].
Defined.

(** ** The star names *)

Lemma sortInsert_In {A : Type} (compareFn : A -> A -> R) (a : A)
    (sorted : list A) (b : A) :
  In b (sortInsert compareFn a sorted) <-> b = a \/ In b sorted.
Proof.
  induction sorted as [| c rest IH]; cbn [sortInsert].
  - cbn. intuition.
  - destruct (compareFn a c <=? 0); cbn [In] in *; intuition.
Qed.

Lemma array_sort_In {A : Type} (compareFn : A -> A -> R) (l : list A)
    (b : A) :
  In b (array_sort compareFn l) <-> In b l.
Proof.
  unfold array_sort. induction l as [| a l IH]; cbn [fold_right]; [easy |].
  rewrite sortInsert_In, IH. cbn. intuition.
Qed.

Lemma placeStarNames_In (brightStars : list ProjectedStar)
    (d : LabelCollisionDetector) (prim : RenderPrimitive) :
  In prim (snd (placeStarNames brightStars d)) ->
  exists star,
    In star brightStars
    /\ prim
       = createText (ps_x star + ps_radius star + 8)
           (ps_y star - ps_radius star - 2)
           (match ps_name star with Some s => s | None => EmptyString end)
           anchor_start baseline_middle.
Proof.
  revert d. induction brightStars as [| star rest IH]; intros d;
    cbn [placeStarNames]; [intros [] |].
  cbv zeta.
  destruct tryPlace as [d' placed].
  specialize (IH d'). destruct (placeStarNames rest d') as [d'' prims].
  cbn [snd] in *. intros Hin.
  assert (Hcases : prim
                   = createText (ps_x star + ps_radius star + 8)
                       (ps_y star - ps_radius star - 2)
                       (match ps_name star with
                        | Some s => s
                        | None => EmptyString
                        end)
                       anchor_start baseline_middle
                   \/ In prim prims).
  { destruct placed; [destruct Hin as [<- | Hin] |]; auto. }
  destruct Hcases as [-> | Hrest].
  - exists star. split; [now left | reflexivity].
  - destruct (IH Hrest) as (s & Hs & ->).
    exists s. split; [now right | reflexivity].
Qed.

Lemma noName_false (n : option string) :
  noName n = false -> exists s, n = Some s /\ s <> EmptyString.
Proof.
  destruct n as [s |]; cbn [noName]; [| discriminate].
  intros H. exists s. split; [reflexivity |].
  intros ->. discriminate H.
Qed.

(** X17.  On a viewport of positive size, every text of the star-names
    layer is the non-empty name of a catalog star of magnitude at most 2.5
    (and within the magnitude limit) that the engine puts more than 3.6
    degrees above the horizon; the label starts 8 units right of the
    star's disc and 2 units above it. *)
Theorem star_name_labels
    {engine : AstronomyEngine} {host : Host}
    (constellationData : list Constellation)
    (stars : list CatalogStar) (observer : Observer)
    (options : RenderOptions) (viewportSize : R) (g : StarMapGeometry)
    (layer : RenderLayer) (prim : RenderPrimitive) :
  0 < viewportSize ->
  buildStarMapGeometry constellationData stars observer options viewportSize
  = Ok g ->
  map_get (layers g) layer_star_names = Some layer ->
  In prim (primitives layer) ->
  let center := viewportSize / 2 in
  let scale := viewportSize / 2 * 0.91 in
  exists star coords label,
    In star stars
    /\ name star = Some label /\ label <> EmptyString
    /\ mag star <= 2.5 /\ mag star <= magnitudeLimit options
    /\ raDecToAltAz (ra star) (dec star) observer = Ok coords
    /\ 3.6 < altitude coords
    /\ let radius :=
         magnitudeToRadius (mag star) (starSizeMin options)
           (starSizeMax options) (magnitudeLimit options) in
       prim
       = createText
           (center
            + proj_x (projectAzimuthalEquidistant (altitude coords)
                        (azimuth coords) DEFAULT_PROJECTION_CONFIG) * scale
            + radius + 8)
           (center
            + proj_y (projectAzimuthalEquidistant (altitude coords)
                        (azimuth coords) DEFAULT_PROJECTION_CONFIG) * scale
            - radius - 2)
           label anchor_start baseline_middle.
Proof.
  intros Hv H Hl Hp. cbv zeta.
  apply build_trace in H. destruct H as (t & Ht & ->).
  cbn [layers geometryOfTrace] in Hl.
  rewrite (after_starNames _ _ _ _ _ _ Ht) in Hl by discriminate.
  pose proof (at_names _ _ _ _ _ _ Ht layer_star_names) as Hnone.
  destruct Ht as (E1 & _ & _ & E4 & _).
  rewrite <- E4 in Hl. unfold starNamesStep in Hl.
  destruct showStarNames.
  2: { cbn [fst] in Hl. rewrite Hnone in Hl by discriminate.
       discriminate Hl. }
  match type of Hl with
  | context [placeStarNames ?l ?d] =>
      pose proof (placeStarNames_In l d prim) as Hin;
      destruct (placeStarNames l d) as [d' prims]
  end.
  cbn [fst snd] in *.
  apply setIfNonEmpty_layer in Hl; [| apply Hnone; discriminate].
  rewrite Hl in Hp. destruct (Hin Hp) as (p & Hb & ->). clear Hin.
  unfold brightNamedStars in Hb.
  apply array_sort_In in Hb. apply filter_In in Hb.
  destruct Hb as [Hps Hcond].
  destruct ((ps_magnitude p >? 2.5) || noName (ps_name p)) eqn:Ec;
    [discriminate |].
  apply orb_false_elim in Ec. destruct Ec as [Emag Ename].
  apply Rgtb_false in Emag.
  destruct (noName_false _ Ename) as (label & Hname & Hne).
  destruct (projectStars_In _ _ _ _ _ _ p E1 Hps)
    as (star & coords & Hs & Hm & Hc & _ & ->).
  cbn [ps_magnitude ps_name ps_x ps_y ps_radius] in *.
  exists star, coords, label.
  split; [exact Hs |]. split; [exact Hname |]. split; [exact Hne |].
  split; [exact Emag |]. split; [exact Hm |]. split; [exact Hc |].
  split.
  - unfold insideDegreeRing in Hcond. cbn [ps_x ps_y] in Hcond.
    apply Rltb_true in Hcond.
    apply (inside_ring_altitude _ (azimuth coords) (viewportSize / 2)
             (viewportSize / 2 * 0.91)); [lra | exact Hcond].
  - rewrite Hname. reflexivity.
Qed.

Lemma star_name_labels_witness :
  exists g layer star coords label,
    0 < 500
    /\ buildStarMapGeometry (engine := toyEngine) (host := stubHost)
         [] [nova] greenwich namesAndCardinals 500 = Ok g
    /\ map_get (layers g) layer_star_names = Some layer
    /\ In novaLabel (primitives layer)
    /\ In star [nova]
    /\ name star = Some label
    /\ mag star <= 2.5
    /\ 3.6 < altitude coords.
Proof.
  destruct nova_build as (g & names & markers & Hg & Hl & Hp & _).
  assert (Hv : 0 < 500) by lra.
  assert (Hin : In novaLabel (primitives names)) by (rewrite Hp; now left).
  destruct (star_name_labels [] [nova] greenwich namesAndCardinals 500 g
              names novaLabel Hv Hg Hl Hin)
    as (star & coords & label & Hs & Hn & _ & Hm & _ & _ & Ha & _).
  exists g, names, star, coords, label.
  repeat split; assumption.
Defined.

(** ** The projected stars for external use *)

(** The star loop of the builder computes what [getProjectedStars]
    computes, in viewport coordinates. *)
Lemma projectStars_scaled {engine : AstronomyEngine}
    (stars : list CatalogStar) (observer : Observer)
    (options : RenderOptions) (center scale : R) :
  projectStars stars observer options center scale
  = (ps <- getProjectedStars stars observer options ;;
     Ok (map (scaleStar center scale) ps)).
Proof.
  induction stars as [| star rest IH];
    cbn [projectStars getProjectedStars]; [reflexivity |].
  destruct (mag star >? magnitudeLimit options); [exact IH |].
  destruct (raDecToAltAz (ra star) (dec star) observer) as [coords | e];
    cbn [bind]; [| reflexivity].
  cbv zeta. destruct (altitude coords <=? 0); [exact IH |].
  rewrite IH.
  destruct (getProjectedStars rest observer options); reflexivity.
Qed.

(** X18.  [getProjectedStars] returns, in normalised coordinates, exactly
    the stars a build of the same catalog, observer and options projects:
    their number is the [visibleStarCount] of the geometry, and the stars
    layer is drawn from them, scaled to the viewport and filtered by the
    ring exclusion. *)
Theorem getProjectedStars_matches_build
    {engine : AstronomyEngine} {host : Host}
    (constellationData : list Constellation)
    (stars : list CatalogStar) (observer : Observer)
    (options : RenderOptions) (viewportSize : R) (g : StarMapGeometry) :
  buildStarMapGeometry constellationData stars observer options viewportSize
  = Ok g ->
  let center := viewportSize / 2 in
  let scale := viewportSize / 2 * 0.91 in
  exists projectedStars,
    getProjectedStars stars observer options = Ok projectedStars
    /\ visibleStarCount (metadata g) = List.length projectedStars
    /\ map_get (layers g) layer_stars
       = Some (mkLayer layer_stars
                 (map starCircle
                    (filter (insideDegreeRing center (scale * 0.96))
                       (map (scaleStar center scale) projectedStars)))).
Proof.
  intros H. cbv zeta.
  apply build_trace in H. destruct H as (t & Ht & ->).
  cbn [layers metadata geometryOfTrace visibleStarCount].
  rewrite (stars_layer _ _ _ _ _ _ Ht).
  destruct Ht as (E1 & _). rewrite projectStars_scaled in E1.
  bind_inv E1. apply Ok_inj in E1.
  exists v. split; [exact E |].
  rewrite <- E1, length_map. split; reflexivity.
Qed.

Lemma getProjectedStars_matches_build_witness :
  exists g projectedStars,
    buildStarMapGeometry (engine := toyEngine) (host := stubHost)
      [triangle] threeStars greenwich linesAndPlanets 500 = Ok g
    /\ getProjectedStars (engine := toyEngine) threeStars greenwich
         linesAndPlanets = Ok projectedStars
    /\ visibleStarCount (metadata g) = List.length projectedStars.
Proof.
  destruct (toy_build_returns [triangle] threeStars linesAndPlanets 500)
    as [g Hg].
  destruct (getProjectedStars_matches_build [triangle] threeStars greenwich
              linesAndPlanets 500 g Hg) as (ps & Hps & Hn & _).
  exists g, ps. split; [exact Hg |]. split; [exact Hps | exact Hn].
Defined.

(** ** The catalog *)

Lemma getProjectedStars_filter {engine : AstronomyEngine}
    (stars : list CatalogStar) (observer : Observer)
    (options : RenderOptions) :
  getProjectedStars
    (filter (fun star => mag star <=? magnitudeLimit options) stars)
    observer options
  = getProjectedStars stars observer options.
Proof.
  induction stars as [| star rest IH]; cbn [filter]; [reflexivity |].
  destruct (Rle_dec (mag star) (magnitudeLimit options)) as [L | L].
  - rewrite (proj2 (Rleb_true _ _) L). cbn [getProjectedStars].
    rewrite IH. reflexivity.
  - rewrite (proj2 (Rleb_false _ _)) by lra. cbn [getProjectedStars].
    rewrite (proj2 (Rgtb_true _ _)) by lra. exact IH.
Qed.

Lemma loadCatalog_valid (starData : StarCatalog)
    (catalogCache : option StarCatalog) :
  validCache starData catalogCache ->
  loadCatalog starData catalogCache = (starData, Some starData).
Proof. intros [-> | ->]; reflexivity. Qed.

(** X19.  Filtering the catalog with [getStarsByMagnitude] at the
    magnitude limit of the options before projecting or building, as the
    page does, changes nothing but [starCount]: [getProjectedStars]
    returns the same stars as on the whole catalog, and a build of the
    whole catalog that returns a geometry returns, on the filtered stars,
    a geometry with the same layers and the same [visibleStarCount], whose
    [starCount] is the number of stars within the limit. *)
Theorem magnitude_prefilter
    {engine : AstronomyEngine} {host : Host}
    (starData : StarCatalog) (catalogCache : option StarCatalog)
    (constellationData : list Constellation) (observer : Observer)
    (options : RenderOptions) (viewportSize : R) (g : StarMapGeometry) :
  validCache starData catalogCache ->
  buildStarMapGeometry constellationData (catalog_stars starData) observer
    options viewportSize = Ok g ->
  let stars :=
    fst (getStarsByMagnitude starData catalogCache
           (magnitudeLimit options)) in
  getProjectedStars stars observer options
  = getProjectedStars (catalog_stars starData) observer options
  /\ exists g',
       buildStarMapGeometry constellationData stars observer options
         viewportSize = Ok g'
       /\ layers g' = layers g
       /\ visibleStarCount (metadata g') = visibleStarCount (metadata g)
       /\ starCount (metadata g') = List.length stars
       /\ (starCount (metadata g') <= starCount (metadata g))%nat.
Proof.
  intros Hc H. cbv zeta.
  unfold getStarsByMagnitude. rewrite (loadCatalog_valid _ _ Hc). cbn [fst].
  split; [apply getProjectedStars_filter |].
  apply build_trace in H. destruct H as (t & Ht & ->).
  set (stars := filter _ (catalog_stars starData)).
  exists (geometryOfTrace stars observer viewportSize t).
  split.
  - apply build_trace. exists t. split; [| reflexivity].
    destruct Ht as (E1 & Erest). split; [| exact Erest].
    rewrite <- E1, !projectStars_scaled. unfold stars.
    now rewrite getProjectedStars_filter.
  - cbn [layers metadata geometryOfTrace visibleStarCount starCount].
    repeat split. apply filter_length_le.
Qed.

Lemma magnitude_prefilter_witness :
  exists g g',
    validCache toyCatalog None
    /\ buildStarMapGeometry (engine := toyEngine) (host := stubHost)
         [triangle] (catalog_stars toyCatalog) greenwich linesAndPlanets 500
       = Ok g
    /\ buildStarMapGeometry (engine := toyEngine) (host := stubHost)
         [triangle]
         (fst (getStarsByMagnitude toyCatalog None
                 (magnitudeLimit linesAndPlanets)))
         greenwich linesAndPlanets 500
       = Ok g'
    /\ layers g' = layers g.
Proof.
  destruct (toy_build_returns [triangle] (catalog_stars toyCatalog)
              linesAndPlanets 500) as [g Hg].
  assert (Hc : validCache toyCatalog None) by (now left).
  destruct (magnitude_prefilter toyCatalog None [triangle] greenwich
              linesAndPlanets 500 g Hc Hg)
    as (_ & g' & Hg' & Hl & _).
  exists g, g'. split; [exact Hc |]. split; [exact Hg |].
  split; [exact Hg' | exact Hl].
Defined.

(** *** Sorting by a numeric key *)

Lemma In_firstn {A : Type} (n : nat) (l : list A) (a : A) :
  In a (firstn n l) -> In a l.
Proof.
  intros H. rewrite <- (firstn_skipn n l). apply in_or_app. now left.
Qed.

Section SortByKey.
Context {A : Type}.
Variable key : A -> R.

Lemma sortInsert_length (compareFn : A -> A -> R) (a : A) (l : list A) :
  List.length (sortInsert compareFn a l) = S (List.length l).
Proof.
  induction l as [| b l IH]; cbn [sortInsert]; [reflexivity |].
  destruct (compareFn a b <=? 0); cbn [List.length]; [reflexivity |].
  now rewrite IH.
Qed.

Lemma array_sort_length (compareFn : A -> A -> R) (l : list A) :
  List.length (array_sort compareFn l) = List.length l.
Proof.
  unfold array_sort. induction l as [| a l IH]; cbn [fold_right];
    [reflexivity |].
  rewrite sortInsert_length. cbn [List.length]. now rewrite IH.
Qed.

Lemma sortInsert_sorted (a : A) (l : list A) :
  StronglySorted (fun s t => key s <= key t) l ->
  StronglySorted (fun s t => key s <= key t)
    (sortInsert (fun s t => key s - key t) a l).
Proof.
  induction 1 as [| b l Hl IH Hb]; cbn [sortInsert].
  - constructor; constructor.
  - destruct (Rle_dec (key a - key b) 0) as [L | L].
    + rewrite (proj2 (Rleb_true _ _) L).
      constructor; [constructor; assumption |].
      constructor; [lra |].
      rewrite Forall_forall in *. intros c Hc. specialize (Hb c Hc). lra.
    + rewrite (proj2 (Rleb_false _ _)) by lra.
      constructor; [exact IH |].
      rewrite Forall_forall in *. intros c Hc.
      apply sortInsert_In in Hc. destruct Hc as [-> | Hc]; [lra | auto].
Qed.

Lemma array_sort_sorted (l : list A) :
  StronglySorted (fun s t => key s <= key t)
    (array_sort (fun s t => key s - key t) l).
Proof.
  unfold array_sort. induction l as [| a l IH]; cbn [fold_right].
  - constructor.
  - now apply sortInsert_sorted.
Qed.

Lemma sorted_prefix_suffix (l1 l2 : list A) (s t : A) :
  StronglySorted (fun s t => key s <= key t) (l1 ++ l2) ->
  In s l1 -> In t l2 -> key s <= key t.
Proof.
  induction l1 as [| a l1 IH]; cbn [app]; intros H Hs Ht; [destruct Hs |].
  inversion H as [| ? ? Hl Ha]; subst.
  destruct Hs as [-> | Hs].
  - rewrite Forall_forall in Ha. apply Ha. apply in_or_app. now right.
  - now apply IH.
Qed.

Lemma sorted_firstn (n : nat) (l : list A) :
  StronglySorted (fun s t => key s <= key t) l ->
  StronglySorted (fun s t => key s <= key t) (firstn n l).
Proof.
  intros H. revert n. induction H as [| a l Hl IH Ha]; intros [| n];
    cbn [firstn]; try constructor.
  - apply IH.
  - rewrite Forall_forall in *. intros c Hc. apply Ha.
    exact (In_firstn n l c Hc).
Qed.
End SortByKey.

Lemma slice0_firstn {A : Type} (l : list A) (count : Z) :
  (0 <= count)%Z -> slice0 l count = firstn (Z.to_nat count) l.
Proof.
  intros Hc. unfold slice0.
  destruct (count <? 0)%Z eqn:E; [apply Z.ltb_lt in E; lia |].
  destruct (Z.le_ge_cases count (Z.of_nat (List.length l))) as [L | L].
  - now rewrite Z.min_l.
  - rewrite Z.min_r, Nat2Z.id by lia.
    rewrite firstn_all. symmetry. apply firstn_all2. lia.
Qed.

(** X20.  For a count [n >= 0], [getBrightestStars] returns
    [min n (catalog size)] stars of the catalog in order of non-decreasing
    magnitude, and no star of the catalog that it leaves out is brighter
    than one it returns. *)
Theorem brightest_stars
    (starData : StarCatalog) (catalogCache : option StarCatalog)
    (count : Z) :
  validCache starData catalogCache -> (0 <= count)%Z ->
  let brightest := fst (getBrightestStars starData catalogCache count) in
  List.length brightest
  = Nat.min (Z.to_nat count) (List.length (catalog_stars starData))
  /\ StronglySorted (fun s t => mag s <= mag t) brightest
  /\ (forall s, In s brightest -> In s (catalog_stars starData))
  /\ (forall s t,
        In s brightest -> In t (catalog_stars starData) ->
        ~ In t brightest -> mag s <= mag t).
Proof.
  intros Hc Hn. cbv zeta.
  unfold getBrightestStars. rewrite (loadCatalog_valid _ _ Hc). cbn [fst].
  rewrite slice0_firstn by exact Hn.
  set (sorted := array_sort _ (catalog_stars starData)).
  assert (Hs : StronglySorted (fun s t => mag s <= mag t) sorted)
    by apply (array_sort_sorted mag).
  split; [| split; [| split]].
  - rewrite length_firstn. unfold sorted. now rewrite array_sort_length.
  - now apply sorted_firstn.
  - intros s Hin. apply In_firstn in Hin.
    now apply array_sort_In in Hin.
  - intros s t Hin Ht Hout.
    apply (sorted_prefix_suffix mag (firstn (Z.to_nat count) sorted)
             (skipn (Z.to_nat count) sorted)).
    + now rewrite firstn_skipn.
    + exact Hin.
    + apply (array_sort_In (fun a b => mag a - mag b)) in Ht.
      fold sorted in Ht.
      rewrite <- (firstn_skipn (Z.to_nat count) sorted) in Ht.
      apply in_app_or in Ht. destruct Ht as [Ht | Ht]; [contradiction |].
      exact Ht.
Qed.

Lemma brightest_stars_witness :
  validCache toyCatalog None /\ (0 <= 2)%Z
  /\ List.length (fst (getBrightestStars toyCatalog None 2)) = 2%nat.
Proof.
  assert (Hc : validCache toyCatalog None) by (now left).
  assert (Hn : (0 <= 2)%Z) by lia.
  split; [exact Hc |]. split; [exact Hn |].
  exact (proj1 (brightest_stars toyCatalog None 2 Hc Hn)).
Defined.

(** X21.  The module cache of the catalog is transparent: starting from an
    empty cache or from one that holds the data file, [loadCatalog],
    [getStarsByMagnitude], [getStarByHip] and [getBrightestStars] answer
    from the data file, as they do on an empty cache, and leave the cache
    holding the data file. *)
Theorem catalog_cache_transparent
    (starData : StarCatalog) (catalogCache : option StarCatalog)
    (magnitudeLimit hipId : R) (count : Z) :
  validCache starData catalogCache ->
  loadCatalog starData catalogCache = (starData, Some starData)
  /\ getStarsByMagnitude starData catalogCache magnitudeLimit
     = getStarsByMagnitude starData None magnitudeLimit
  /\ getStarByHip starData catalogCache hipId
     = getStarByHip starData None hipId
  /\ getBrightestStars starData catalogCache count
     = getBrightestStars starData None count
  /\ snd (getStarsByMagnitude starData catalogCache magnitudeLimit)
     = Some starData
  /\ snd (getStarByHip starData catalogCache hipId) = Some starData
  /\ snd (getBrightestStars starData catalogCache count) = Some starData.
Proof.
  intros Hc.
  unfold getStarsByMagnitude, getStarByHip, getBrightestStars.
  rewrite (loadCatalog_valid _ _ Hc). cbn [loadCatalog snd].
  repeat split.
Qed.

Lemma catalog_cache_transparent_witness :
  validCache toyCatalog (Some toyCatalog)
  /\ getStarsByMagnitude toyCatalog (Some toyCatalog) 6
     = getStarsByMagnitude toyCatalog None 6.
Proof.
  assert (Hc : validCache toyCatalog (Some toyCatalog)) by (now right).
  split; [exact Hc |].
  exact (proj1 (proj2 (catalog_cache_transparent toyCatalog
                         (Some toyCatalog) 6 0 0 Hc))).
Defined.

(** ** Observer validation *)

Lemma range_test (lo hi : R) (n : JsNumber) :
  js_ltb n lo || js_gtb n hi = false <-> passesRange lo hi n.
Proof.
  destruct n as [r | | |]; cbn [js_ltb js_gtb passesRange orb].
  - rewrite orb_false_iff, Rltb_false, Rgtb_false. tauto.
  - split; [discriminate | easy].
  - split; [discriminate | easy].
  - easy.
Qed.

(** X22.  [validateObserver] accepts an observer exactly when each of the
    latitude, the longitude and the elevation is NaN or a number in its
    range ([[-90, 90]], [[-180, 180]], [[-500, 10000]]) and the date is
    valid: its range tests are comparisons, which NaN passes.  It accepts
    exactly when it reports no error, it reports at most four, and on an
    observer with finite fields it is the function of the range checks
    above. *)
Theorem validateObserver_accepts (observer : JsObserver) :
  let r := validateObserverJs observer in
  (valid r = true <->
   passesRange (-90) 90 (js_latitude observer)
   /\ passesRange (-180) 180 (js_longitude observer)
   /\ passesRange (-500) 10000 (js_elevation observer)
   /\ js_date observer <> None)
  /\ (valid r = true <-> errors r = [])
  /\ (List.length (errors r) <= 4)%nat
  /\ (forall finiteObserver : Observer,
        validateObserverJs (jsObserverOf finiteObserver)
        = validateObserver finiteObserver).
Proof.
  cbv zeta. split; [| split; [| split]].
  - rewrite <- !range_test.
    unfold validateObserverJs. cbv zeta. cbn [valid].
    destruct (js_ltb (js_latitude observer) (-90)
              || js_gtb (js_latitude observer) 90),
      (js_ltb (js_longitude observer) (-180)
       || js_gtb (js_longitude observer) 180),
      (js_ltb (js_elevation observer) (-500)
       || js_gtb (js_elevation observer) 10000),
      (js_date observer);
      cbn [app List.length Nat.eqb];
      (split; [intros H; first [discriminate H | repeat split; discriminate]
              | intros (H1 & H2 & H3 & H4);
                first [reflexivity | discriminate | now contradiction H4]]).
  - unfold validateObserverJs. cbv zeta. cbn [valid errors].
    rewrite Nat.eqb_eq. split; [apply length_zero_iff_nil | now intros ->].
  - unfold validateObserverJs. cbv zeta. cbn [valid errors].
    destruct (js_ltb (js_latitude observer) (-90)
              || js_gtb (js_latitude observer) 90),
      (js_ltb (js_longitude observer) (-180)
       || js_gtb (js_longitude observer) 180),
      (js_ltb (js_elevation observer) (-500)
       || js_gtb (js_elevation observer) 10000),
      (js_date observer);
      cbn [app List.length]; lia.
  - intros finiteObserver. reflexivity.
Qed.

(** ** Export utilities *)

Lemma Math_round_integer (n : Z) : Math_round (IZR n) = IZR n.
Proof.
  unfold Math_round. f_equal. apply Zfloor_eq. lra.
Qed.

Lemma Math_round_near (v : R) : Rabs (Math_round v - v) <= 0.5.
Proof.
  unfold Math_round. pose proof (Zfloor_bound (v + 0.5)) as [H1 H2].
  apply Rabs_le. lra.
Qed.

(** X23.  Converting a whole number of pixels to millimetres and back, at
    the same non-zero resolution, gives the number of pixels back. *)
Theorem pixels_round_trip (pixels : Z) (dpi : R) :
  dpi <> 0 -> mmToPixels (pixelsToMm (IZR pixels) dpi) dpi = IZR pixels.
Proof.
  intros Hd. unfold mmToPixels, pixelsToMm. cbv zeta.
  replace (IZR pixels / dpi * 25.4 / 25.4 * dpi) with (IZR pixels)
    by (field; split; [exact Hd | lra]).
  apply Math_round_integer.
Qed.

Lemma pixels_round_trip_witness :
  300 <> 0 /\ mmToPixels (pixelsToMm (IZR 3508) 300) 300 = IZR 3508.
Proof.
  assert (H : 300 <> 0) by lra.
  split; [exact H | exact (pixels_round_trip 3508 300 H)].
Defined.

(** X24.  [mmToPixels] returns a whole number, and converting it back to
    millimetres at the same positive resolution misses the original length
    by at most half a pixel, that is [12.7 / dpi] millimetres. *)
Theorem millimetres_round_trip (mm dpi : R) :
  0 < dpi ->
  (exists n : Z, mmToPixels mm dpi = IZR n)
  /\ Rabs (pixelsToMm (mmToPixels mm dpi) dpi - mm) <= 12.7 / dpi.
Proof.
  intros Hd. split; [unfold mmToPixels, Math_round; eauto |].
  unfold mmToPixels, pixelsToMm. cbv zeta.
  set (v := mm / 25.4 * dpi).
  assert (Hpos : 0 < 25.4 / dpi) by (apply Rdiv_lt_0_compat; lra).
  assert (E : Math_round v / dpi * 25.4 - mm
              = (Math_round v - v) * (25.4 / dpi))
    by (unfold v; field; lra).
  rewrite E, Rabs_mult, (Rabs_right (25.4 / dpi)) by lra.
  pose proof (Math_round_near v) as Hn.
  replace (12.7 / dpi) with (0.5 * (25.4 / dpi)) by (unfold Rdiv; lra).
  apply Rmult_le_compat_r; lra.
Qed.

Lemma millimetres_round_trip_witness :
  0 < 300
  /\ Rabs (pixelsToMm (mmToPixels 210 300) 300 - 210) <= 12.7 / 300.
Proof.
  assert (H : 0 < 300) by lra.
  split; [exact H | exact (proj2 (millimetres_round_trip 210 300 H))].
Defined.

(** *** File names *)

Lemma allChars_replaceNonAlphanumeric (s : string) :
  allChars slugChar (replaceNonAlphanumeric s) = true.
Proof.
  induction s as [| c s IH]; cbn [replaceNonAlphanumeric allChars];
    [reflexivity |].
  rewrite IH, andb_true_r. unfold slugChar.
  destruct (isAlphanumeric c) eqn:E; [now rewrite E |].
  apply orb_true_r.
Qed.

Lemma allChars_collapseHyphens (test : ascii -> bool) (s : string) :
  allChars test s = true -> allChars test (collapseHyphens s) = true.
Proof.
  induction s as [| c s IH]; [easy |].
  cbn [allChars]. intros H. apply andb_prop in H. destruct H as [Hc Hs].
  specialize (IH Hs). cbn [collapseHyphens].
  destruct (Ascii.eqb c hyphen) eqn:E.
  - apply Ascii.eqb_eq in E. subst c.
    destruct s as [| c' s']; [cbn [allChars]; now rewrite Hc |].
    destruct (Ascii.eqb c' hyphen); [exact IH |].
    cbn [allChars]. now rewrite Hc, IH.
  - cbn [allChars]. now rewrite Hc, IH.
Qed.

(** [collapseHyphens] keeps the first character. *)
Lemma collapseHyphens_head (s : string) :
  match s with
  | EmptyString => collapseHyphens s = EmptyString
  | String c _ => exists rest, collapseHyphens s = String c rest
  end.
Proof.
  induction s as [| c s IH]; [reflexivity |].
  cbn [collapseHyphens].
  destruct (Ascii.eqb c hyphen) eqn:E; [| eauto].
  apply Ascii.eqb_eq in E. subst c.
  destruct s as [| c' s']; [eauto |].
  destruct (Ascii.eqb c' hyphen) eqn:E'; [| eauto].
  apply Ascii.eqb_eq in E'. subst c'. exact IH.
Qed.

Lemma noDoubleHyphen_collapseHyphens (s : string) :
  noDoubleHyphen (collapseHyphens s) = true.
Proof.
  induction s as [| c s IH]; [reflexivity |].
  cbn [collapseHyphens].
  destruct (Ascii.eqb c hyphen) eqn:E.
  - destruct s as [| c' s']; [reflexivity |].
    destruct (Ascii.eqb c' hyphen) eqn:E'; [exact IH |].
    cbn [noDoubleHyphen]. rewrite IH, andb_true_r.
    destruct (collapseHyphens_head (String c' s')) as [rest ->].
    rewrite E'. reflexivity.
  - cbn [noDoubleHyphen]. rewrite E, IH. reflexivity.
Qed.

Lemma collapseHyphens_length (s : string) :
  (String.length (collapseHyphens s) <= String.length s)%nat.
Proof.
  induction s as [| c s IH]; [reflexivity |].
  cbn [collapseHyphens].
  destruct (Ascii.eqb c hyphen).
  - destruct s as [| c' s']; [reflexivity |].
    destruct (Ascii.eqb c' hyphen); cbn [String.length] in *; lia.
  - cbn [String.length]. lia.
Qed.

Lemma replaceNonAlphanumeric_length (s : string) :
  String.length (replaceNonAlphanumeric s) = String.length s.
Proof.
  induction s as [| c s IH]; cbn [replaceNonAlphanumeric String.length];
    congruence.
Qed.

(** X25.  For a valid date, [generateFilename] returns
    [starmap-<slug>-<first ten characters of the ISO date>.<format>], where
    the slug is no longer than the location, holds only letters, digits
    and hyphens, and never two hyphens in a row; for an invalid date it
    throws. *)
Theorem generateFilename_slug {host : Host} (location : string)
    (date : Date) (format : string) :
  match date with
  | Some t =>
      exists slug,
        generateFilename location date format
        = Ok ("starmap-" ++ slug ++ "-" ++ substring 0 10 (toISOString t)
              ++ "." ++ format)%string
        /\ (String.length slug <= String.length location)%nat
        /\ allChars slugChar slug = true
        /\ noDoubleHyphen slug = true
  | None => exists e, generateFilename location date format = Throw e
  end.
Proof.
  destruct date as [t |]; cbn [generateFilename]; [| eauto].
  exists (locationSlug location). split; [reflexivity |].
  unfold locationSlug. split; [| split].
  - rewrite <- (replaceNonAlphanumeric_length location).
    apply collapseHyphens_length.
  - apply allChars_collapseHyphens, allChars_replaceNonAlphanumeric.
  - apply noDoubleHyphen_collapseHyphens.
Qed.

(** ** XML escaping *)

Lemma escapeXml_cons (a : ascii) (rest : string) :
  escapeXml (String a rest) = (escapeChar a ++ escapeXml rest)%string.
Proof.
  unfold escapeChar.
  destruct (Ascii.eqb a ampersand) eqn:E1.
  { apply Ascii.eqb_eq in E1. subst a. reflexivity. }
  destruct (Ascii.eqb a lessThan) eqn:E2.
  { apply Ascii.eqb_eq in E2. subst a. reflexivity. }
  destruct (Ascii.eqb a greaterThan) eqn:E3.
  { apply Ascii.eqb_eq in E3. subst a. reflexivity. }
  destruct (Ascii.eqb a doubleQuote) eqn:E4.
  { apply Ascii.eqb_eq in E4. subst a. reflexivity. }
  destruct (Ascii.eqb a apostrophe) eqn:E5.
  { apply Ascii.eqb_eq in E5. subst a. reflexivity. }
  unfold escapeXml. cbn [replaceAllChar].
  rewrite E1. cbn [replaceAllChar].
  rewrite E2. cbn [replaceAllChar].
  rewrite E3. cbn [replaceAllChar].
  rewrite E4. cbn [replaceAllChar].
  rewrite E5. reflexivity.
Qed.

(** X26.  The five replacements of [escapeXml], made one after the other
    over the whole string, amount to escaping each character on its own:
    the ampersands of the entities written by the later replacements are
    not escaped again. *)
Theorem escapeXml_characterwise (str : string) :
  escapeXml str = escapeEach str.
Proof.
  induction str as [| a rest IH]; [reflexivity |].
  rewrite escapeXml_cons, IH. reflexivity.
Qed.

Lemma allChars_app (test : ascii -> bool) (s1 s2 : string) :
  allChars test (s1 ++ s2) = allChars test s1 && allChars test s2.
Proof.
  induction s1 as [| c s1 IH]; cbn [append allChars]; [reflexivity |].
  now rewrite IH, andb_assoc.
Qed.

Lemma escapeChar_no_markup (a : ascii) :
  allChars (fun c => negb (markupChar c)) (escapeChar a) = true.
Proof.
  unfold escapeChar.
  destruct (Ascii.eqb a ampersand) eqn:E1; [reflexivity |].
  destruct (Ascii.eqb a lessThan) eqn:E2; [reflexivity |].
  destruct (Ascii.eqb a greaterThan) eqn:E3; [reflexivity |].
  destruct (Ascii.eqb a doubleQuote) eqn:E4; [reflexivity |].
  destruct (Ascii.eqb a apostrophe) eqn:E5; [reflexivity |].
  cbn [allChars]. unfold markupChar. now rewrite E2, E3, E4, E5.
Qed.

(** X27.  The result of [escapeXml] holds none of the characters [<], [>],
    the double quote and the apostrophe, and a string without any of the
    five special characters is returned as it is. *)
Theorem escapeXml_output (str : string) :
  allChars (fun c => negb (markupChar c)) (escapeXml str) = true
  /\ (allChars (fun c => negb (specialChar c)) str = true ->
      escapeXml str = str).
Proof.
  split.
  - induction str as [| a rest IH]; [reflexivity |].
    rewrite escapeXml_cons, allChars_app, escapeChar_no_markup, IH.
    reflexivity.
  - induction str as [| a rest IH]; [reflexivity |].
    cbn [allChars]. intros H. apply andb_prop in H. destruct H as [Ha Hr].
    rewrite escapeXml_cons, (IH Hr).
    unfold specialChar, markupChar in Ha.
    apply negb_true_iff in Ha. rewrite !orb_false_iff in Ha.
    destruct Ha as (E1 & ((E2 & E3) & E4) & E5).
    unfold escapeChar. now rewrite E1, E2, E3, E4, E5.
Qed.

(** ** Render styles *)

(** X28.  [scaleStyles] scales the four line widths and the two font
    sizes and nothing else (the planet size, the flags, the colours and
    the font family are kept); scaling twice is scaling by the product of
    the factors. *)
Theorem scaleStyles_composes (styles : RenderStyles) (a b : R) :
  scaleStyles (scaleStyles styles a) b = scaleStyles styles (a * b)
  /\ planetSize (scaleStyles styles a) = planetSize styles
  /\ colors (scaleStyles styles a) = colors styles
  /\ starFill (scaleStyles styles a) = starFill styles
  /\ starStroke (scaleStyles styles a) = starStroke styles
  /\ fontFamily (scaleStyles styles a) = fontFamily styles
  /\ horizonWidth (scaleStyles styles a) = horizonWidth styles * a.
Proof.
  repeat split.
  unfold scaleStyles. cbn. f_equal; ring.
Qed.

(** ** Local sidereal time *)

Lemma Ztrunc_bound (v : R) : Rabs (v - IZR (Ztrunc v)) < 1.
Proof.
  unfold Ztrunc. destruct (Rlt_dec v 0) as [L | L].
  - rewrite (proj2 (Rltb_true _ _) L).
    pose proof (Zfloor_bound (- v)) as [H1 H2].
    rewrite opp_IZR. apply Rabs_def1; lra.
  - rewrite (proj2 (Rltb_false _ _)) by lra.
    pose proof (Zfloor_bound v) as [H1 H2].
    apply Rabs_def1; lra.
Qed.

(** The remainder is smaller than the divisor in absolute value. *)
Lemma js_rem_bound (a b : R) : 0 < b -> - b < js_rem a b < b.
Proof.
  intros Hb. unfold js_rem.
  pose proof (Ztrunc_bound (a / b)) as H.
  apply Rabs_def2 in H. destruct H as [H1 H2].
  replace (a - b * IZR (Ztrunc (a / b)))
    with (b * (a / b - IZR (Ztrunc (a / b)))) by (field; lra).
  split; nra.
Qed.

(** X29.  [calculateLST] returns NaN exactly when the date is invalid or
    the longitude is not a finite number, and otherwise an angle in
    [[0, 360]]: the remainder has the sign of the dividend and 360 is
    added to a negative one.  (Over the reals the angle is below 360; the
    bound is closed because the sum of the source can round up to 360.) *)
Theorem calculateLST_range {fields : DateFields} (observer : JsObserver) :
  (calculateLST observer = NaN <->
   js_date observer = None \/ ~ finite (js_longitude observer))
  /\ (forall lst, calculateLST observer = Num lst -> 0 <= lst <= 360)
  /\ calculateLST observer <> PosInfinity
  /\ calculateLST observer <> NegInfinity.
Proof.
  unfold calculateLST, finite.
  destruct (js_date observer) as [t |].
  2: { repeat split; try discriminate; auto. }
  cbv zeta.
  destruct (js_longitude observer) as [longitude | | |].
  - split; [| split; [| split; discriminate]].
    + split; [discriminate |].
      intros [H | H]; [discriminate H | contradiction H; eauto].
    + intros lst [= <-].
      match goal with
      | |- context [js_rem ?a 360] =>
          pose proof (js_rem_bound a 360 ltac:(lra)) as [H1 H2];
          set (r := js_rem a 360) in *
      end.
      destruct (Rlt_dec r 0) as [L | L].
      * rewrite (proj2 (Rltb_true _ _) L). lra.
      * rewrite (proj2 (Rltb_false _ _)) by lra. lra.
  - repeat split; try discriminate.
    intros _. right. intros [r H]. discriminate H.
  - repeat split; try discriminate.
    intros _. right. intros [r H]. discriminate H.
  - repeat split; try discriminate.
    intros _. right. intros [r H]. discriminate H.
Qed.

(** ** A planet that cannot be resolved *)

Section ReturnedPlanets.
Context {engine : AstronomyEngine}.


End ReturnedPlanets.




Section PlanetsLayerComplete.
Context {engine : AstronomyEngine} {host : Host}.
Variable constellationData : list Constellation.
Variables (stars : list CatalogStar) (observer : Observer).
Variables (options : RenderOptions) (viewportSize : R).
Variable t : BuildTrace.
Hypothesis Ht :
  buildTraceOf constellationData stars observer options viewportSize t.



End PlanetsLayerComplete.




